(** * Verification of the Random-Challenge metric and scoring engine

    Shallow embedding of:
    - [check_sequence_randomness] (src/checker/randomness_checker.py),
    - [calculate_transition_matrix] (src/exported_classifier/trans/lib/transition_probs.py),
    - [redundancy], [coupon], [_pl_d] (src/exported_classifier/stat/lib/metrics.py)
      together with the Mersenne Twister behind Python's [random] module,
    - [generate_improvement_suggestions] (src/local_server.py),
    - the other metrics of metrics.py: [coupon]'s mean, [repetition_gap],
      [adjacent], [rp], [autocorr_lag1], [adjacent_diff_stats],
      [max_min_ratio], [digit_frequencies],
    - [extract_transition_metrics] and [calculate_transition_metrics_for_sequence]
      (transition_probs.py) and [calculate_transition_features]
      (src/exported_classifier/calculate_features.py),
    - [extract_statistical_metrics], [generate_deviation_report],
      [load_bounds_table], [calculate_statistical_range] and
      [get_improvement_tip] (src/local_server.py).

    Floating-point numbers are modelled as exact rationals [Q] (or reals [R]
    for the logarithms of [redundancy]); NaN inputs are left out. *)

From Stdlib Require Import String Ascii ZArith QArith Qabs Qreals List Bool Lia.
From Stdlib Require Import Reals Lra.
From Stdlib Require DecimalString DecimalNat Lqa.
Import ListNotations.

(* ------------------------------------------------------------------ *)
(** ** Bounds comparator: [check_sequence_randomness] *)

Module Checker.

Local Open Scope Q_scope.
Local Open Scope string_scope.

Definition Qltb (a b : Q) : bool := negb (Qle_bool b a).

(** One row of the bounds table (a row of the pandas DataFrame). *)
Record BoundsEntry := mkBoundsEntry {
  metric : string;
  expected_mean : Q;
  expected_std : Q;
  bound_95_lower : Q;
  bound_95_upper : Q;
  bound_99_lower : Q;
  bound_99_upper : Q;
  interpretation : string
}.

(** [bounds_table.iterrows()] visits the rows in order; rows may repeat. *)
Definition BoundsTable := list BoundsEntry.

(** The dict [test_metrics]: metric name -> value. *)
Definition MetricRecord := list (string * Q).

(** [metric in test_metrics] / [test_metrics[metric]]. *)
Fixpoint dict_get (d : MetricRecord) (k : string) : option Q :=
  match d with
  | [] => None
  | (k', v) :: d' => if String.eqb k k' then Some v else dict_get d' k
  end.

(** The [confidence_level] argument selects the column prefix
    [bound_95_] or [bound_99_]. *)
Inductive confidence := CL95 | CL99.

Definition bound_lower (c : confidence) (row : BoundsEntry) : Q :=
  match c with CL95 => bound_95_lower row | CL99 => bound_99_lower row end.
Definition bound_upper (c : confidence) (row : BoundsEntry) : Q :=
  match c with CL95 => bound_95_upper row | CL99 => bound_99_upper row end.

(** Python's [/] on floats: [None] stands for the absence of a finite
    quotient (a [ZeroDivisionError] on Python floats, [inf]/[nan] on numpy
    floats) when the divisor is zero. *)
Definition py_div (a b : Q) : option Q :=
  if Qeq_bool b 0 then None else Some (a / b).

Inductive direction := below | above.
Inductive severity := extreme | high | moderate.

Record WithinEntry := mkWithin {
  w_metric : string;
  w_value : Q;
  w_expected_range : Q * Q;
  w_distance_from_mean : option Q
}.

Record OutlierEntry := mkOutlier {
  o_metric : string;
  o_value : Q;
  o_expected_range : Q * Q;
  o_distance_from_bound : Q;
  o_relative_distance : Q;
  o_direction : direction;
  o_severity : severity;
  o_std_distance : option Q;
  o_interpretation : string
}.

(** What one iteration of the loop over the rows appends, and to which list. *)
Inductive row_outcome :=
  | Missing (m : string)
  | Within (w : WithinEntry)
  | Outlier (o : OutlierEntry).

Definition classify_row (test_metrics : MetricRecord) (c : confidence)
    (row : BoundsEntry) : row_outcome :=
  match dict_get test_metrics (metric row) with
  | None => Missing (metric row)
  | Some value =>
      let lower := bound_lower c row in
      let upper := bound_upper c row in
      if Qle_bool lower value && Qle_bool value upper then
        Within (mkWithin (metric row) value (lower, upper)
                  (py_div (Qabs (value - expected_mean row)) (expected_std row)))
      else
        let '(distance_from_bound, dir) :=
          if Qltb value lower then (lower - value, below)
          else (value - upper, above) in
        let relative_distance := distance_from_bound /
          (if Qltb 0 (expected_mean row) then expected_mean row else 1) in
        let sev := if Qltb 1 relative_distance then extreme
                   else if Qltb (1#2) relative_distance then high
                   else moderate in
        Outlier (mkOutlier (metric row) value (lower, upper) distance_from_bound
                   relative_distance dir sev
                   (py_div (Qabs (value - expected_mean row)) (expected_std row))
                   (interpretation row))
  end.

(** The loop of lines 52-93: returns [(outliers, within_bounds, missing_metrics)]
    in the order the rows are visited. *)
Fixpoint classify_rows (test_metrics : MetricRecord) (c : confidence)
    (rows : BoundsTable) : list OutlierEntry * list WithinEntry * list string :=
  match rows with
  | [] => ([], [], [])
  | row :: rest =>
      let '(outs, ins, miss) := classify_rows test_metrics c rest in
      match classify_row test_metrics c row with
      | Missing m => (outs, ins, m :: miss)
      | Within w => (outs, w :: ins, miss)
      | Outlier o => (o :: outs, ins, miss)
      end
  end.

Inductive assessment :=
  | highly_likely_random
  | likely_random
  | possibly_random
  | possibly_non_random
  | likely_non_random.

Record AnalysisResult := mkResult {
  randomness_score : Q;
  assessment_of : assessment;
  confidence_level : confidence;
  total_metrics_tested : nat;
  within_bounds_count : nat;
  outlier_count : nat;
  severe_outlier_count : nat;
  missing_metrics_count : nat;
  outliers : list OutlierEntry;
  within_bounds : list WithinEntry;
  missing_metrics : list string
}.

Definition is_severe (o : OutlierEntry) : bool :=
  match o_severity o with high | extreme => true | moderate => false end.

Definition natQ (n : nat) : Q := inject_Z (Z.of_nat n).

Definition check_sequence_randomness (test_metrics : MetricRecord)
    (bounds_table : BoundsTable) (confidence_level : confidence) : AnalysisResult :=
  let '(outs, ins, miss) := classify_rows test_metrics confidence_level bounds_table in
  let total_tested := (length ins + length outs)%nat in
  let randomness_score :=
    if Nat.ltb 0 total_tested then natQ (length ins) / natQ total_tested else 0 in
  let assessment :=
    if Qltb (90#100) randomness_score then highly_likely_random
    else if Qltb (80#100) randomness_score then likely_random
    else if Qltb (70#100) randomness_score then possibly_random
    else if Qltb (50#100) randomness_score then possibly_non_random
    else likely_non_random in
  let severe_outliers := filter is_severe outs in
  mkResult randomness_score assessment confidence_level total_tested
    (length ins) (length outs) (length severe_outliers) (length miss)
    outs ins miss.

(** The threshold table of the spec (section 4.4, step 5), written from its
    words: the first row whose threshold the score strictly exceeds gives the
    label, and [likely_non_random] is the default. *)
Definition spec_thresholds : list (Q * assessment) :=
  [(90#100, highly_likely_random); (80#100, likely_random);
   (70#100, possibly_random); (50#100, possibly_non_random)].

Fixpoint first_exceeded (tbl : list (Q * assessment)) (dflt : assessment)
    (score : Q) : assessment :=
  match tbl with
  | [] => dflt
  | (t, l) :: rest => if Qltb t score then l else first_exceeded rest dflt score
  end.

Definition spec_assessment (score : Q) : assessment :=
  first_exceeded spec_thresholds likely_non_random score.

End Checker.

(* ------------------------------------------------------------------ *)
(** ** Transition matrix engine: [calculate_transition_matrix] *)

(** Python list assignment [l[i] = v] for an index in range. *)
Fixpoint list_set {A : Type} (l : list A) (i : nat) (v : A) : list A :=
  match l, i with
  | [], _ => []
  | _ :: t, O => v :: t
  | h :: t, S i' => h :: list_set t i' v
  end.

Module Transitions.

Local Open Scope Q_scope.

(** Contents of one cell of a float64 buffer. *)
Inductive f64 := Fin (q : Q) | NaN | PInf | NInf.

(** The largest finite float64, [(2 - 2^-52) * 2^1023]. *)
Definition FLOAT_MAX : Q := inject_Z (2 ^ 1024 - 2 ^ 971).

(** [np.nan_to_num]: NaN becomes 0, infinities the extreme finite floats,
    finite values are kept. *)
Definition nan_to_num (x : f64) : Q :=
  match x with
  | Fin q => q
  | NaN => 0
  | PInf => FLOAT_MAX
  | NInf => - FLOAT_MAX
  end.

(** numpy indexing of an axis of length [base]: negative indices count from
    the end, anything else out of range raises [IndexError] ([None]). *)
Definition np_index (base : nat) (i : Z) : option nat :=
  if (0 <=? i)%Z && (i <? Z.of_nat base)%Z then Some (Z.to_nat i)
  else if (- Z.of_nat base <=? i)%Z && (i <? 0)%Z then Some (Z.to_nat (i + Z.of_nat base))
  else None.

Definition counts := list (list nat).

(** [np.zeros((base, base), dtype=int)]. *)
Definition zeros (base : nat) : counts := repeat (repeat 0%nat base) base.

(** [transitions[from_digit, to_digit] += 1]. *)
Definition incr (m : counts) (a b : nat) : counts :=
  let row := nth a m [] in
  list_set m a (list_set row b (S (nth b row 0%nat))).

(** [for i in range(len(sequence) - step)]: [fuel] is the number of
    iterations, [i] the loop index. *)
Fixpoint count_loop (sequence : list Z) (step base : nat) (i fuel : nat)
    (m : counts) : option counts :=
  match fuel with
  | O => Some m
  | S f =>
      match np_index base (nth i sequence 0%Z),
            np_index base (nth (i + step) sequence 0%Z) with
      | Some a, Some b => count_loop sequence step base (S i) f (incr m a b)
      | _, _ => None
      end
  end.

Definition count_transitions (sequence : list Z) (step base : nat) : option counts :=
  count_loop sequence step base 0 (length sequence - step) (zeros base).

Definition natQ (n : nat) : Q := inject_Z (Z.of_nat n).

Definition row_sum (row : list nat) : nat := fold_right plus 0%nat row.

(** One row of [np.divide(transitions, row_sums, where=row_sums!=0)]
    followed by [np.nan_to_num]. The division writes only where the row sum
    is nonzero; since no [out=] array is passed, the other cells keep the
    contents [buf_row] of the freshly allocated output buffer. *)
Definition prob_row (row : list nat) (buf_row : list f64) : list Q :=
  let s := row_sum row in
  if Nat.eqb s 0 then map nan_to_num buf_row
  else map (fun c => nan_to_num (Fin (natQ c / natQ s))) row.

Fixpoint prob_rows (m : counts) (buf : list (list f64)) : list (list Q) :=
  match m with
  | [] => []
  | row :: rest =>
      prob_row row (hd [] buf) :: prob_rows rest (tl buf)
  end.

(** [calculate_transition_matrix(sequence, step, base)]; [buf] is the
    uninitialized [base x base] buffer numpy allocates for the result.
    [None] is an [IndexError] (a symbol outside [-base, base)). *)
Definition calculate_transition_matrix (sequence : list Z) (step base : nat)
    (buf : list (list f64)) : option (list (list Q)) :=
  match count_transitions sequence step base with
  | None => None
  | Some transitions => Some (prob_rows transitions buf)
  end.

Definition Qsum (l : list Q) : Q := fold_right Qplus 0 l.

End Transitions.

(* ------------------------------------------------------------------ *)
(** ** Python's [random] module: the Mersenne Twister of [_randommodule.c] *)

Module MT.
Local Open Scope Z_scope.

Definition N : nat := 624.
Definition M : nat := 397.
Definition MATRIX_A : Z := 2567483615.   (* 0x9908b0df *)
Definition UPPER_MASK : Z := 2147483648. (* 0x80000000 *)
Definition LOWER_MASK : Z := 2147483647. (* 0x7fffffff *)
Definition mask32 (x : Z) : Z := Z.land x 4294967295.

Definition get (l : list Z) (i : nat) : Z := nth i l 0.

(** [RandomObject]: the 624-word state [mt] and the read position [index]. *)
Record state := mkState { mt : list Z; index : nat }.

(** [init_genrand]: [mt[i] = 1812433253 * (mt[i-1] ^ (mt[i-1] >> 30)) + i]. *)
Fixpoint init_genrand_loop (fuel mti : nat) (prev : Z) : list Z :=
  match fuel with
  | O => []
  | S f =>
      let v := mask32 (1812433253 * Z.lxor prev (Z.shiftr prev 30) + Z.of_nat mti) in
      v :: init_genrand_loop f (S mti) v
  end.
Definition init_genrand (s : Z) : list Z :=
  let s0 := mask32 s in s0 :: init_genrand_loop (N - 1) 1 s0.

(** The two loops of [init_by_array]. *)
Fixpoint init_by_array_loop1 (k : nat) (mt : list Z) (i j : nat) (key : list Z)
    : list Z * nat :=
  match k with
  | O => (mt, i)
  | S k' =>
      let prev := get mt (i - 1) in
      let v := mask32 (Z.lxor (get mt i) (Z.lxor prev (Z.shiftr prev 30) * 1664525)
                       + nth j key 0 + Z.of_nat j) in
      let mt1 := list_set mt i v in
      let i1 := S i in
      let j1 := S j in
      let '(mt2, i2) :=
        if Nat.leb N i1 then (list_set mt1 0 (get mt1 (N - 1)), 1%nat) else (mt1, i1) in
      let j2 := if Nat.leb (length key) j1 then O else j1 in
      init_by_array_loop1 k' mt2 i2 j2 key
  end.
Fixpoint init_by_array_loop2 (k : nat) (mt : list Z) (i : nat) : list Z :=
  match k with
  | O => mt
  | S k' =>
      let prev := get mt (i - 1) in
      let v := mask32 (Z.lxor (get mt i) (Z.lxor prev (Z.shiftr prev 30) * 1566083941)
                       - Z.of_nat i) in
      let mt1 := list_set mt i v in
      let i1 := S i in
      let '(mt2, i2) :=
        if Nat.leb N i1 then (list_set mt1 0 (get mt1 (N - 1)), 1%nat) else (mt1, i1) in
      init_by_array_loop2 k' mt2 i2
  end.
Definition init_by_array (key : list Z) : state :=
  let mt0 := init_genrand 19650218 in
  let '(mt1, i) := init_by_array_loop1 (Nat.max N (length key)) mt0 1 0 key in
  let mt2 := init_by_array_loop2 (N - 1) mt1 i in
  mkState (list_set mt2 0 2147483648) N.

(** [random.seed(a)] for a small non-negative int [a]: the key is [[a]]. *)
Definition seed (a : Z) : state := init_by_array [a].

(** Regeneration of the 624 words in [genrand_uint32], updated in place. *)
Definition twist_word (cur nxt far : Z) : Z :=
  let y := Z.lor (Z.land cur UPPER_MASK) (Z.land nxt LOWER_MASK) in
  Z.lxor (Z.lxor far (Z.shiftr y 1)) (if Z.odd y then MATRIX_A else 0).
Fixpoint twist_loop (fuel kk : nat) (mt : list Z) : list Z :=
  match fuel with
  | O => mt
  | S f =>
      let far := if Nat.ltb kk (N - M) then get mt (kk + M) else get mt (kk + M - N) in
      twist_loop f (S kk) (list_set mt kk (twist_word (get mt kk) (get mt (S kk)) far))
  end.
Definition twist (mt : list Z) : list Z :=
  let mt1 := twist_loop (N - 1) 0 mt in
  list_set mt1 (N - 1) (twist_word (get mt1 (N - 1)) (get mt1 0) (get mt1 (M - 1))).

Definition temper (y0 : Z) : Z :=
  let y1 := Z.lxor y0 (Z.shiftr y0 11) in
  let y2 := Z.lxor y1 (Z.land (Z.shiftl y1 7) 2636928640) in   (* 0x9d2c5680 *)
  let y3 := Z.lxor y2 (Z.land (Z.shiftl y2 15) 4022730752) in  (* 0xefc60000 *)
  Z.lxor y3 (Z.shiftr y3 18).

Definition genrand_uint32 (s : state) : Z * state :=
  let '(mt0, i0) := if Nat.leb N (index s) then (twist (mt s), O) else (mt s, index s) in
  (temper (get mt0 i0), mkState mt0 (S i0)).

(** Computations that draw from the module-level generator: state passing,
    with [None] when the rejection loop of [_randbelow] runs out of fuel. *)
Definition RNG (A : Type) := state -> option (A * state).
Definition ret {A} (a : A) : RNG A := fun s => Some (a, s).
Definition bind {A B} (m : RNG A) (k : A -> RNG B) : RNG B :=
  fun s => match m s with Some (a, s') => k a s' | None => None end.

Notation "x <- m ;; k" := (bind m (fun x => k)) (at level 61, m at next level, right associativity).

(** [getrandbits(k)] for [0 < k <= 32]. *)
Definition getrandbits (k : Z) : RNG Z :=
  fun s => let '(y, s') := genrand_uint32 s in Some (Z.shiftr y (32 - k), s').

(** [_randbelow_with_getrandbits(n)]: [k = n.bit_length()], draw [k] bits
    until the result is below [n]. *)
Fixpoint randbelow_loop (fuel : nat) (n k : Z) : RNG Z :=
  match fuel with
  | O => fun _ => None
  | S f => r <- getrandbits k ;; if r <? n then ret r else randbelow_loop f n k
  end.
Definition randbelow (n : Z) : RNG Z := randbelow_loop 1000 n (Z.log2 n + 1).

(** [randint(a, b) = randrange(a, b + 1) = a + _randbelow(b - a + 1)]. *)
Definition randint (a b : Z) : RNG Z := x <- randbelow (b - a + 1) ;; ret (a + x).

Fixpoint replicateM {A} (n : nat) (m : RNG A) : RNG (list A) :=
  match n with
  | O => ret []
  | S n' => x <- m ;; xs <- replicateM n' m ;; ret (x :: xs)
  end.

End MT.

(* ------------------------------------------------------------------ *)
(** ** Metric library: [redundancy], [coupon], [_pl_d] *)

Module Metrics.
Import MT.

(** *** [_pl_d] and its simulated expectation *)

(** [diff = [z[i+1] - z[i] for i in range(len(z) - 1)]]. *)
Fixpoint diffs (z : list Z) : list Z :=
  match z with
  | a :: ((b :: _) as rest) => (b - a)%Z :: diffs rest
  | _ => []
  end.

(** [tp_indices]: the [i] in [1 .. len(diff)-1] with [diff[i-1] * diff[i] < 0],
    over the nonzero differences. *)
Fixpoint tp_from (prev : Z) (ds : list Z) (i : nat) : list nat :=
  match ds with
  | [] => []
  | d :: ds' => (if (prev * d <? 0)%Z then [i] else []) ++ tp_from d ds' (S i)
  end.
Definition _extract_tp_indices (z : list Z) : list nat :=
  match filter (fun d => negb (Z.eqb d 0)) (diffs z) with
  | [] => []
  | d0 :: ds => tp_from d0 ds 1
  end.

(** Number of [i] in [1 .. len(tp)-1] with [tp[i] - tp[i-1] == d]. *)
Fixpoint gap_count (tp : list nat) (d : nat) : nat :=
  match tp with
  | a :: ((b :: _) as rest) => ((if Nat.eqb (b - a) d then 1 else 0) + gap_count rest d)%nat
  | _ => 0%nat
  end.

(** The trial loop of [_empirical_expected_pl]. *)
Fixpoint trials_total (trials m d base : nat) (total : nat) : RNG nat :=
  match trials with
  | O => ret total
  | S t =>
      rand_seq <- replicateM m (randint 0 (Z.of_nat base - 1)) ;;
      trials_total t m d base (total + gap_count (_extract_tp_indices rand_seq) d)%nat
  end.

Definition _empirical_expected_pl (m d num_trials base : nat) : RNG Q :=
  total <- trials_total num_trials m d base 0 ;;
  ret (inject_Z (Z.of_nat total) / inject_Z (Z.of_nat num_trials))%Q.

Definition _pl_d (z : list Z) (d base : nat) : RNG Q :=
  let m := length z in
  if Nat.ltb m (d + 3) then ret 0%Q
  else
    let observed := gap_count (_extract_tp_indices z) d in
    expected <- _empirical_expected_pl m d 1000 base ;;
    ret (if Qle_bool expected 0 then 0%Q
         else (inject_Z (Z.of_nat observed) / expected)%Q).

Definition pl1 (z : list Z) (base : nat) : RNG Q := _pl_d z 1 base.
Definition pl2 (z : list Z) (base : nat) : RNG Q := _pl_d z 2 base.
Definition pl3 (z : list Z) (base : nat) : RNG Q := _pl_d z 3 base.
Definition pl4 (z : list Z) (base : nat) : RNG Q := _pl_d z 4 base.
Definition pl5 (z : list Z) (base : nat) : RNG Q := _pl_d z 5 base.

(** The generator state right after [import metrics] ran [random.seed(42)]. *)
Definition import_state : state := seed 42.

(** *** [coupon] *)

(** [has_all(t) = all(i in t for i in range(base))]. *)
Definition has_all (base : nat) (t : list Z) : bool :=
  forallb (fun i => existsb (Z.eqb i) t) (map Z.of_nat (seq 0 base)).

(** The inner loop for start index [i]: [tmp] grows by [z[i+j]] until it
    holds every symbol, and [j+1] is recorded; [None] when the loop ends
    without [break]. *)
Fixpoint coupon_inner (base : nat) (z : list Z) (i j fuel : nat) (tmp : list Z)
    : option nat :=
  match fuel with
  | O => None
  | S f =>
      let tmp' := tmp ++ [nth (i + j) z 0%Z] in
      if has_all base tmp' then Some (S j) else coupon_inner base z i (S j) f tmp'
  end.

(** [res]: one completion length per successful start index, in order. *)
Definition coupon_res (z : list Z) (base : nat) : list nat :=
  flat_map (fun i => match coupon_inner base z i 0 (length z - i) [] with
                     | Some k => [k]
                     | None => []
                     end)
           (seq 0 (length z)).

Definition sumn (l : list nat) : nat := fold_right plus 0%nat l.

(** [statistics.mean] of integers: exact quotient. *)
Definition mean_nat (l : list nat) : Q :=
  (inject_Z (Z.of_nat (sumn l)) / inject_Z (Z.of_nat (length l)))%Q.

(** [statistics.stdev]: sample standard deviation ([n - 1] divisor). *)
Definition stdev_nat (l : list nat) : R :=
  let mu := Q2R (mean_nat l) in
  sqrt (fold_right Rplus 0%R (map (fun x => (INR x - mu) ^ 2)%R l)
        / INR (length l - 1))%R.

Record coupon_result := mkCoupon { coupon_mean : Q; coupon_std : R }.

Definition coupon (z : list Z) (base : nat) : coupon_result :=
  let res := coupon_res z base in
  match res with
  | [] => mkCoupon (inject_Z (Z.of_nat (length z + 1))) (INR (length z + 1))
  | [_] => mkCoupon (mean_nat res) 0%R
  | _ => mkCoupon (mean_nat res) (stdev_nat res)
  end.

(** *** [redundancy] *)

(** [Counter(z)]: distinct symbols with their counts, in first-seen order. *)
Fixpoint counter_add (c : list (Z * nat)) (x : Z) : list (Z * nat) :=
  match c with
  | [] => [(x, 1%nat)]
  | (k, v) :: c' => if Z.eqb k x then (k, S v) :: c' else (k, v) :: counter_add c' x
  end.
Definition counter (z : list Z) : list (Z * nat) := fold_left counter_add z [].

(** [math.log2]: [ValueError] ([None]) outside the positive reals. *)
Definition log2 (x : R) : option R :=
  if Rlt_dec 0 x then Some (ln x / ln 2)%R else None.

(** Python float division: [ZeroDivisionError] ([None]) on a zero divisor. *)
Definition py_rdiv (a b : R) : option R :=
  if Req_EM_T b 0 then None else Some (a / b)%R.

(** [-sum((c/n) * math.log2(c/n) for c in freq.values())]: every [c/n] is
    positive, so [math.log2] returns [ln(c/n) / ln 2]. *)
Definition entropy (cs : list nat) (n : nat) : R :=
  (- fold_right Rplus 0 (map (fun c => (INR c / INR n) * (ln (INR c / INR n) / ln 2)) cs))%R.

Definition redundancy (z : list Z) (base : nat) : option R :=
  let n := length z in
  if Nat.eqb n 0 then Some 0%R
  else
    let freq := counter z in
    let ent := entropy (map snd freq) n in
    match log2 (INR base) with
    | None => None
    | Some max_entropy =>
        match py_rdiv ent max_entropy with
        | None => None
        | Some q => Some (1 - q)%R
        end
    end.

End Metrics.

(* ------------------------------------------------------------------ *)
(** ** Exceptions of local_server.py *)

(** The exceptions the report code can raise. *)
Inductive py_error := TypeError | IndexError.

Inductive result (A : Type) := Ok (a : A) | Err (e : py_error).
Arguments Ok {A} a.
Arguments Err {A} e.

(* ------------------------------------------------------------------ *)
(** ** Deviation reporter: [generate_improvement_suggestions] *)

Module Suggestions.
Local Open Scope string_scope.

(** The fields of an entry of [report['outliers']] that the function reads. *)
Record ReportOutlier := mkReportOutlier {
  metric : string;
  deviation_type : string   (* 'high' or 'low' *)
}.

(** The suggestions appended, one constructor per message template. *)
Inductive suggestion :=
  | digit_bias_suggestion (favorite_digits avoided_digits : list string)
  | pattern_suggestion
  | dependency_suggestion
  | variation_suggestion
  | redundancy_suggestion
  | collection_suggestion
  | phase_suggestion (phases : list string)
  | minor_bias_suggestion.

(** [s.split('_')]. *)
Fixpoint split_underscore (s : string) : list string :=
  match s with
  | EmptyString => [EmptyString]
  | String c s' =>
      let parts := split_underscore s' in
      if Ascii.eqb c "_"%char then EmptyString :: parts
      else match parts with
           | [] => [String c EmptyString]
           | w :: ws => String c w :: ws
           end
  end.

Definition mem (m : string) (names : list string) : bool := existsb (String.eqb m) names.

(** [s[i]]: [IndexError] past the end of the string. *)
Definition str_index (s : string) (i : nat) : result string :=
  match String.get i s with
  | Some c => Ok (String c EmptyString)
  | None => Err IndexError
  end.

(** A list comprehension whose body may raise: the first exception wins. *)
Fixpoint map_result {A B : Type} (f : A -> result B) (l : list A) : result (list B) :=
  match l with
  | [] => Ok []
  | x :: l' =>
      match f x with
      | Err e => Err e
      | Ok y =>
          match map_result f l' with
          | Err e => Err e
          | Ok ys => Ok (y :: ys)
          end
      end
  end.

Definition generate_improvement_suggestions (outliers : list ReportOutlier)
    : result (list suggestion) :=
  let freq_outliers := filter (fun o => String.prefix "freq_" (metric o)) outliers in
  let s_freq :=
    if Nat.ltb 3 (length freq_outliers) then
      let favorite_digits := map (fun o => nth 1 (split_underscore (metric o)) "")
        (filter (fun o => String.eqb (deviation_type o) "high") freq_outliers) in
      let avoided_digits := map (fun o => nth 1 (split_underscore (metric o)) "")
        (filter (fun o => String.eqb (deviation_type o) "low") freq_outliers) in
      [digit_bias_suggestion favorite_digits avoided_digits]
    else [] in
  let pattern_outliers :=
    filter (fun o => mem (metric o) ["adjacent"; "rp"; "pl1"; "pl2"; "pl3"]) outliers in
  let s_pattern := if Nat.leb 2 (length pattern_outliers) then [pattern_suggestion] else [] in
  let dependency_outliers :=
    filter (fun o => mem (metric o) ["autocorr_lag1"; "adjacent"; "repetition_gap_mean"]) outliers in
  let s_dep := if Nat.leb 2 (length dependency_outliers) then [dependency_suggestion] else [] in
  let variation_outliers :=
    filter (fun o => mem (metric o) ["tpi"; "adjacent_diff_mean"; "adjacent_diff_std"]) outliers in
  let s_var := if Nat.leb 2 (length variation_outliers) then [variation_suggestion] else [] in
  let s_red :=
    if existsb (fun o => String.eqb (metric o) "redundancy") outliers
    then [redundancy_suggestion] else [] in
  let collection_outliers := filter (fun o => String.prefix "coupon" (metric o)) outliers in
  let s_coll := if Nat.ltb 0 (length collection_outliers) then [collection_suggestion] else [] in
  let phase_outliers := filter (fun o => String.prefix "pl" (metric o)) outliers in
  let s_phase :=
    if Nat.leb 2 (length phase_outliers)
    then match map_result (fun o => str_index (metric o) 2) phase_outliers with
         | Err e => Err e
         | Ok phases => Ok [phase_suggestion phases]
         end
    else Ok [] in
  match s_phase with
  | Err e => Err e
  | Ok s_phase =>
      let suggestions :=
        (s_freq ++ s_pattern ++ s_dep ++ s_var ++ s_red ++ s_coll ++ s_phase)%list in
      Ok (match suggestions with
          | [] => [minor_bias_suggestion]
          | _ => suggestions
          end)
  end.

End Suggestions.

(* ------------------------------------------------------------------ *)
(** ** Python helpers: [str] of a non-negative [int], string-keyed dicts *)

(** [str(n)] for [n >= 0]: decimal digits without leading zeros. *)
Definition str_nat (n : nat) : string :=
  DecimalString.NilEmpty.string_of_uint (Nat.to_uint n).

Module PyDict.

(** [d.get(k)] on a dict with string keys, in insertion order. *)
Fixpoint get {V : Type} (d : list (string * V)) (k : string) : option V :=
  match d with
  | [] => None
  | (k', v) :: d' => if String.eqb k k' then Some v else get d' k
  end.

(** [d[k] = v]: an existing key keeps its place, a new key goes last. *)
Fixpoint set {V : Type} (d : list (string * V)) (k : string) (v : V) : list (string * V) :=
  match d with
  | [] => [(k, v)]
  | (k', v') :: d' =>
      if String.eqb k k' then (k', v) :: d' else (k', v') :: set d' k v
  end.

(** [d.update(e)]. *)
Definition update {V : Type} (d e : list (string * V)) : list (string * V) :=
  fold_left (fun acc kv => set acc (fst kv) (snd kv)) e d.

End PyDict.

(* ------------------------------------------------------------------ *)
(** ** The other metrics of metrics.py *)

Module StatMetrics.
Import Metrics.
Local Open Scope Q_scope.

Definition natQ (n : nat) : Q := inject_Z (Z.of_nat n).

(** *** [adjacent] *)

(** The loop over [range(n - 1)]: [up] counts the steps [+1], [down] the
    steps [-1] ([elif]: a step is never both). *)
Fixpoint up_down (z : list Z) (up down : nat) : nat * nat :=
  match z with
  | a :: ((b :: _) as rest) =>
      if Z.eqb b (a + 1) then up_down rest (S up) down
      else if Z.eqb b (a - 1) then up_down rest up (S down)
      else up_down rest up down
  | _ => (up, down)
  end.

Definition adjacent (z : list Z) (base : nat) : Q :=
  let n := length z in
  if Nat.ltb n 2 then 0
  else let '(up, down) := up_down z 0 0 in natQ (up + down) / natQ (n - 1).

(** *** [rp] *)

(** [Counter] over keys compared with [eqb], in first-seen order. *)
Fixpoint gcounter_add {A : Type} (eqb : A -> A -> bool) (c : list (A * nat)) (x : A)
    : list (A * nat) :=
  match c with
  | [] => [(x, 1%nat)]
  | (k, v) :: c' => if eqb k x then (k, S v) :: c' else (k, v) :: gcounter_add eqb c' x
  end.
Definition gcounter {A : Type} (eqb : A -> A -> bool) (l : list A) : list (A * nat) :=
  fold_left (gcounter_add eqb) l [].

(** Tuple equality on bigrams. *)
Definition pair_eqb (p q : Z * Z) : bool := Z.eqb (fst p) (fst q) && Z.eqb (snd p) (snd q).

(** [[(z[i], z[i+1]) for i in range(m - 1)]]. *)
Fixpoint bigrams (z : list Z) : list (Z * Z) :=
  match z with
  | a :: ((b :: _) as rest) => (a, b) :: bigrams rest
  | _ => []
  end.

Definition rp (z : list Z) (base : nat) : Q :=
  let m := length z in
  if Nat.ltb m 2 then 0
  else
    let counts := gcounter pair_eqb (bigrams z) in
    let nrs := length (filter (fun v => Nat.eqb v 1) (map snd counts)) in
    1 - natQ nrs / natQ (m - 1).

(** *** [autocorr_lag1] *)

(** [statistics.mean] of integers, exact. *)
Definition mean_Z (z : list Z) : Q :=
  inject_Z (fold_right Z.add 0%Z z) / natQ (length z).

(** The terms [(z[i] - m_z) * (z[i - 1] - m_z)] for [i] in [1 .. n-1]. *)
Fixpoint lag1_terms (m_z : Q) (z : list Z) : list Q :=
  match z with
  | a :: ((b :: _) as rest) =>
      (inject_Z b - m_z) * (inject_Z a - m_z) :: lag1_terms m_z rest
  | _ => []
  end.

Definition autocorr_lag1 (z : list Z) (base : nat) : Q :=
  let n := length z in
  if Nat.ltb n 2 then 0
  else
    let m_z := mean_Z z in
    let numerator := Transitions.Qsum (lag1_terms m_z z) in
    let denominator := Transitions.Qsum (map (fun v => (inject_Z v - m_z) ^ 2) z) in
    if Qeq_bool denominator 0 then 0 else numerator / denominator.

(** *** [adjacent_diff_stats] *)

(** [[abs(z[i + 1] - z[i]) for i in range(len(z) - 1)]]. *)
Fixpoint abs_diffs (z : list Z) : list nat :=
  match z with
  | a :: ((b :: _) as rest) => Z.abs_nat (b - a) :: abs_diffs rest
  | _ => []
  end.

Record adj_diff_result := mkAdjDiff {
  adjacent_diff_mean : Q;
  adjacent_diff_std : R
}.

Definition adjacent_diff_stats (z : list Z) (base : nat) : adj_diff_result :=
  if Nat.ltb (length z) 2 then mkAdjDiff 0 0%R
  else
    let diffs := abs_diffs z in
    mkAdjDiff (mean_nat diffs)
              (if Nat.ltb 1 (length diffs) then stdev_nat diffs else 0%R).

(** *** [max_min_ratio] (the second, identical, definition is the one bound) *)

(** [max(values)] and [min(values)] of a non-empty list. *)
Definition list_max (l : list nat) : nat := fold_left Nat.max (tl l) (hd 0%nat l).
Definition list_min (l : list nat) : nat := fold_left Nat.min (tl l) (hd 0%nat l).

Definition max_min_ratio (z : list Z) (base : nat) : Transitions.f64 :=
  let freq := counter z in
  match freq with
  | [] => Transitions.Fin 0
  | _ =>
      let max_f := list_max (map snd freq) in
      let min_f := list_min (map snd freq) in
      if Nat.ltb 0 min_f then Transitions.Fin (natQ max_f / natQ min_f)
      else Transitions.PInf
  end.

(** *** [digit_frequencies] *)

(** [freq.get(i, 0)] on a [Counter]. *)
Fixpoint counter_get (c : list (Z * nat)) (x : Z) : nat :=
  match c with
  | [] => 0%nat
  | (k, v) :: c' => if Z.eqb k x then v else counter_get c' x
  end.

(** The dict comprehension over [range(base)]; its keys are distinct, so
    the dict is the list of its items in order. *)
Definition digit_frequencies (z : list Z) (base : nat) : list (string * Q) :=
  let n := length z in
  let freq := counter z in
  map (fun i => (("freq_" ++ str_nat i)%string,
                 if Nat.ltb 0 n then natQ (counter_get freq (Z.of_nat i)) / natQ n else 0))
      (seq 0 base).

(** *** [repetition_gap] *)

(** The loop filling [positions = {i: [] for i in range(base)}]: [pos] holds
    [positions[0]], ..., [positions[base-1]]; [val in positions] holds
    exactly for [0 <= val < base]. *)
Fixpoint positions_loop (base : nat) (z : list Z) (idx : nat) (pos : list (list nat))
    : list (list nat) :=
  match z with
  | [] => pos
  | v :: z' =>
      let pos' :=
        if (0 <=? v)%Z && (v <? Z.of_nat base)%Z
        then list_set pos (Z.to_nat v) (nth (Z.to_nat v) pos [] ++ [idx])
        else pos in
      positions_loop base z' (S idx) pos'
  end.

(** [indices[i] - indices[i - 1]] for [i] in [1 .. len(indices)-1]; the
    indices are appended in increasing order, so no difference is
    truncated. *)
Fixpoint index_gaps (indices : list nat) : list nat :=
  match indices with
  | a :: ((b :: _) as rest) => (b - a)%nat :: index_gaps rest
  | _ => []
  end.

Record gap_result := mkGap { gap_mean : Q; gap_std : R }.

Definition repetition_gap (z : list Z) (base : nat) : gap_result :=
  let positions := positions_loop base z 0 (repeat [] base) in
  let gaps := flat_map index_gaps positions in
  match gaps with
  | [] => mkGap 0 0%R
  | [_] => mkGap (mean_nat gaps) 0%R
  | _ => mkGap (mean_nat gaps) (stdev_nat gaps)
  end.

End StatMetrics.

(* ------------------------------------------------------------------ *)
(** ** Transition features: transition_probs.py and calculate_features.py *)

Module TransitionFeatures.
Import Transitions.
Local Open Scope string_scope.

(** [prob_matrix[i, j]]. *)
Definition cell (m : list (list Q)) (i j : nat) : Q := nth j (nth i m []) 0%Q.

(** [f'trans_{i}_to_{j}']. *)
Definition trans_key (i j : nat) : string :=
  "trans_" ++ str_nat i ++ "_to_" ++ str_nat j.

Definition extract_transition_metrics (prob_matrix : list (list Q)) : list (string * Q) :=
  let base := length prob_matrix in
  fold_left (fun metrics i =>
               fold_left (fun metrics j =>
                            PyDict.set metrics (trans_key i j) (cell prob_matrix i j))
                         (seq 0 base) metrics)
            (seq 0 base) [].

(** [f'step{step}_{key}']. *)
Definition step_key (step : nat) (key : string) : string :=
  "step" ++ str_nat step ++ "_" ++ key.

(** The loop over [steps_range]; [bufs k] is the uninitialized output
    buffer of the [k]-th call of [calculate_transition_matrix], and [None]
    its [IndexError]. *)
Fixpoint metrics_loop (sequence : list Z) (base : nat) (bufs : nat -> list (list f64))
    (k : nat) (steps : list nat) (all_metrics : list (string * Q))
    : option (list (string * Q)) :=
  match steps with
  | [] => Some all_metrics
  | step :: rest =>
      match calculate_transition_matrix sequence step base (bufs k) with
      | None => None
      | Some prob_matrix =>
          let step_metrics := extract_transition_metrics prob_matrix in
          metrics_loop sequence base bufs (S k) rest
            (PyDict.update all_metrics
               (map (fun kv => (step_key step (fst kv), snd kv)) step_metrics))
      end
  end.

Definition calculate_transition_metrics_for_sequence (sequence : list Z)
    (steps_range : list nat) (base : nat) (bufs : nat -> list (list f64))
    : option (list (string * Q)) :=
  metrics_loop sequence base bufs 0 steps_range [].

(** [f'step{step}_trans_{from_digit}_to_{to_digit}'] of calculate_features.py. *)
Definition feature_name (step from_digit to_digit : nat) : string :=
  "step" ++ str_nat step ++ "_trans_" ++ str_nat from_digit ++ "_to_" ++ str_nat to_digit.

Fixpoint features_loop (sequence : list Z) (bufs : nat -> list (list f64)) (k : nat)
    (steps : list nat) (transition_features : list (string * Q))
    : option (list (string * Q)) :=
  match steps with
  | [] => Some transition_features
  | step :: rest =>
      match calculate_transition_matrix sequence step 10 (bufs k) with
      | None => None
      | Some step_matrix =>
          let tf :=
            fold_left (fun tf from_digit =>
                         fold_left (fun tf to_digit =>
                                      PyDict.set tf (feature_name step from_digit to_digit)
                                        (cell step_matrix from_digit to_digit))
                                   (seq 0 10) tf)
                      (seq 0 10) transition_features in
          features_loop sequence bufs (S k) rest tf
      end
  end.

(** [calculate_transition_features(sequence, max_step)]: steps
    [range(1, max_step + 1)], base 10. *)
Definition calculate_transition_features (sequence : list Z) (max_step : nat)
    (bufs : nat -> list (list f64)) : option (list (string * Q)) :=
  features_loop sequence bufs 0 (seq 1 max_step) [].

End TransitionFeatures.

(* ------------------------------------------------------------------ *)
(** ** Deviation report of local_server.py *)

Module Server.
Import Checker.
Local Open Scope string_scope.

(** The dict [{'lower': ..., 'upper': ..., 'mean': ...}]; [None] is Python's
    [None]. *)
Record stat_range := mkRange {
  r_lower : option Q;
  r_upper : option Q;
  r_mean : option Q
}.

Definition non_normal_metrics : list string := ["pl3"; "pl4"; "pl5"; "max_min_ratio"].

(** [calculate_statistical_range]; [bounds_df] is [None] when
    [load_bounds_table] did not find the file. *)
Definition calculate_statistical_range (metric_name : string)
    (bounds_df : option BoundsTable) (confidence_level : Q) : stat_range :=
  match bounds_df with
  | None => mkRange None None None
  | Some df =>
      match filter (fun row => String.eqb (metric row) metric_name) df with
      | [] => mkRange None None None
      | row :: _ =>
          let mean := expected_mean row in
          let std := expected_std row in
          let z_score :=
            if Qeq_bool confidence_level (95 # 100) then 196 # 100
            else if Qeq_bool confidence_level (99 # 100) then 258 # 100
            else 196 # 100 in
          if Suggestions.mem metric_name non_normal_metrics
          then mkRange (Some mean) (Some mean) (Some mean)
          else
            let margin := (z_score * std)%Q in
            mkRange (Some (mean - margin)%Q) (Some (mean + margin)%Q) (Some mean)
      end
  end.

(** [actual_value > x] and [actual_value < x] for [x] a float or [None];
    comparing a float with [None] raises [TypeError]. *)
Definition py_gt (a : Q) (x : option Q) : result bool :=
  match x with Some b => Ok (Qltb b a) | None => Err TypeError end.
Definition py_lt (a : Q) (x : option Q) : result bool :=
  match x with Some b => Ok (Qltb a b) | None => Err TypeError end.

(** [needle in hay] for strings. *)
Definition str_contains (needle hay : string) : bool :=
  match String.index 0 needle hay with Some _ => true | None => false end.

(** The messages of [get_improvement_tip], one constructor per template. *)
Inductive tip :=
  | tip_freq_overused (digit : string) (actual : Q)
  | tip_freq_underused (digit : string) (actual : Q)
  | tip_redundancy
  | tip_adjacent
  | tip_autocorr (positive : bool)
  | tip_tpi_many
  | tip_tpi_few
  | tip_max_min_ratio
  | tip_rp
  | tip_phase (phase_num : string)
  | tip_coupon_mean
  | tip_coupon_std
  | tip_repetition_gap
  | tip_adjacent_diff
  | tip_generic.

(** [get_improvement_tip]; the range always holds the three keys, so the
    defaults of its [.get] calls are never used. A branch whose test fails
    falls through to the final [return]. *)
Definition get_improvement_tip (metric_name : string) (actual_value : Q)
    (expected_range : stat_range) : result tip :=
  let upper := r_upper expected_range in
  let lower := r_lower expected_range in
  let when (t : result bool) (yes : tip) : result tip :=
    match t with Err e => Err e | Ok true => Ok yes | Ok false => Ok tip_generic end in
  if String.prefix "freq_" metric_name then
    let digit := nth 1 (Suggestions.split_underscore metric_name) "" in
    match py_gt actual_value upper with
    | Err e => Err e
    | Ok true => Ok (tip_freq_overused digit actual_value)
    | Ok false => Ok (tip_freq_underused digit actual_value)
    end
  else if String.eqb metric_name "redundancy" then when (py_gt actual_value upper) tip_redundancy
  else if String.eqb metric_name "adjacent" then when (py_gt actual_value upper) tip_adjacent
  else if String.eqb metric_name "autocorr_lag1" then
    if Qltb (15 # 100) (Qabs actual_value) then Ok (tip_autocorr (Qltb 0 actual_value))
    else Ok tip_generic
  else if String.eqb metric_name "tpi" then
    match py_gt actual_value upper with
    | Err e => Err e
    | Ok true => Ok tip_tpi_many
    | Ok false => when (py_lt actual_value lower) tip_tpi_few
    end
  else if String.eqb metric_name "max_min_ratio" then
    when (py_gt actual_value upper) tip_max_min_ratio
  else if String.eqb metric_name "rp" then when (py_gt actual_value upper) tip_rp
  else if String.prefix "pl" metric_name then
    match String.get 2 metric_name with
    | None => Err IndexError
    | Some c => when (py_gt actual_value upper) (tip_phase (String c EmptyString))
    end
  else if Suggestions.mem metric_name ["coupon_mean"; "coupon_std"] then
    let t_mean :=
      if str_contains "mean" metric_name then py_gt actual_value upper else Ok false in
    match t_mean with
    | Err e => Err e
    | Ok true => Ok tip_coupon_mean
    | Ok false =>
        if str_contains "std" metric_name
        then when (py_gt actual_value upper) tip_coupon_std
        else Ok tip_generic
    end
  else if String.prefix "repetition_gap" metric_name then
    if str_contains "mean" metric_name
    then when (py_lt actual_value lower) tip_repetition_gap
    else Ok tip_generic
  else if String.prefix "adjacent_diff" metric_name then
    if str_contains "mean" metric_name
    then when (py_lt actual_value lower) tip_adjacent_diff
    else Ok tip_generic
  else Ok tip_generic.

(** An entry of [report['outliers']]. The fields [explanation],
    [histogram_url] and [detailed_explanation] are lookups with defaults
    that never raise and that nothing below reads; they are left out. *)
Record report_entry := mkEntry {
  e_metric : string;
  e_actual : Q;
  e_expected_min : option Q;
  e_expected_max : option Q;
  e_expected_mean : option Q;
  e_deviation_type : string;
  e_improvement_tip : tip
}.

(** The body of the loop over the outliers, fields in source order:
    [deviation_type] ([actual_value > expected_range.get('upper', inf)],
    the key being present) is computed before [improvement_tip]. *)
Definition outlier_info (bounds_df : option BoundsTable) (o : OutlierEntry)
    : result report_entry :=
  let metric_name := o_metric o in
  let actual_value := o_value o in
  let expected_range := calculate_statistical_range metric_name bounds_df (95 # 100) in
  match py_gt actual_value (r_upper expected_range) with
  | Err e => Err e
  | Ok is_high =>
      match get_improvement_tip metric_name actual_value expected_range with
      | Err e => Err e
      | Ok t =>
          Ok (mkEntry metric_name actual_value (r_lower expected_range)
                (r_upper expected_range) (r_mean expected_range)
                (if is_high then "high" else "low") t)
      end
  end.

Fixpoint outliers_loop (bounds_df : option BoundsTable) (os : list OutlierEntry)
    : result (list report_entry) :=
  match os with
  | [] => Ok []
  | o :: os' =>
      match outlier_info bounds_df o with
      | Err e => Err e
      | Ok info =>
          match outliers_loop bounds_df os' with
          | Err e => Err e
          | Ok rest => Ok (info :: rest)
          end
      end
  end.

Record report_summary := mkSummary {
  total_metrics : nat;
  outliers_count : nat;
  summary_within_bounds_count : nat;
  is_random : bool
}.

Record deviation_report := mkReport {
  summary : report_summary;
  report_outliers : list report_entry;
  improvements : list Suggestions.suggestion
}.

Definition to_suggestion_input (e : report_entry) : Suggestions.ReportOutlier :=
  Suggestions.mkReportOutlier (e_metric e) (e_deviation_type e).

(** [generate_deviation_report(randomness_analysis, stat_metrics)], with
    [bounds_df] the result of [load_bounds_table()]; [None] for the
    argument is a falsy [randomness_analysis], [Ok None] the [return None]. *)
Definition generate_deviation_report (randomness_analysis : option AnalysisResult)
    (stat_metrics : MetricRecord) (bounds_df : option BoundsTable)
    : result (option deviation_report) :=
  match randomness_analysis with
  | None => Ok None
  | Some ra =>
      let summ := mkSummary (length stat_metrics) (length (outliers ra))
                    (length (within_bounds ra)) (Nat.eqb (length (outliers ra)) 0) in
      match outliers_loop bounds_df (outliers ra) with
      | Err e => Err e
      | Ok entries =>
          match Suggestions.generate_improvement_suggestions
                  (map to_suggestion_input entries) with
          | Err e => Err e
          | Ok imps => Ok (Some (mkReport summ entries imps))
          end
      end
  end.

(** The columns read by [extract_statistical_metrics], in source order. *)
Definition stat_metric_columns : list string :=
  ["redundancy"; "coupon_mean"; "coupon_std"; "repetition_gap_mean";
   "repetition_gap_std"; "adjacent"; "tpi"; "autocorr_lag1";
   "adjacent_diff_mean"; "adjacent_diff_std"; "max_min_ratio"; "rp"]
  ++ map (fun i => "pl" ++ str_nat i) (seq 1 5)
  ++ map (fun i => "freq_" ++ str_nat i) (seq 0 10).

(** [extract_statistical_metrics(features)]: [features] is the one-row
    DataFrame as its columns with their values. *)
Definition extract_statistical_metrics (features : list (string * Q)) : MetricRecord :=
  fold_left (fun metrics col =>
               match PyDict.get features col with
               | Some v => PyDict.set metrics col v
               | None => metrics
               end)
            stat_metric_columns [].

End Server.

(* ================================================================== *)
(** * Properties *)

(* ------------------------------------------------------------------ *)
(** ** Bounds comparator *)

Module CheckerFacts.
Import Checker.
Local Open Scope Q_scope.
Local Open Scope string_scope.

Lemma Qltb_iff (a b : Q) : Qltb a b = true <-> a < b.
Proof.
  unfold Qltb. rewrite negb_true_iff. split; intro H.
  - apply Qnot_le_lt. intro H'. apply Qle_bool_iff in H'. congruence.
  - destruct (Qle_bool b a) eqn:E; [|reflexivity].
    apply Qle_bool_iff in E. exfalso. apply (Qlt_not_le a b); assumption.
Qed.

Lemma Qltb_false_iff (a b : Q) : Qltb a b = false <-> b <= a.
Proof.
  unfold Qltb. rewrite negb_false_iff. apply Qle_bool_iff.
Qed.

Lemma natQ_nonneg (n : nat) : 0 <= natQ n.
Proof.
  unfold natQ. change 0 with (inject_Z 0). rewrite <- Zle_Qle. lia.
Qed.

Lemma natQ_le (a b : nat) : (a <= b)%nat -> natQ a <= natQ b.
Proof.
  intro H. unfold natQ. rewrite <- Zle_Qle. lia.
Qed.

Lemma natQ_pos (n : nat) : (0 < n)%nat -> 0 < natQ n.
Proof.
  intro H. unfold natQ. change 0 with (inject_Z 0). rewrite <- Zlt_Qlt. lia.
Qed.

(** A count divided by a larger positive count lies in [0,1]. *)
Lemma ratio_in_unit (w o : nat) : (0 < w + o)%nat ->
  0 <= natQ w / natQ (w + o) <= 1.
Proof.
  intro Hpos. pose proof (natQ_pos _ Hpos) as Hd. split.
  - apply Qle_shift_div_l; [exact Hd|]. rewrite Qmult_0_l. apply natQ_nonneg.
  - apply Qle_shift_div_r; [exact Hd|]. rewrite Qmult_1_l. apply natQ_le. lia.
Qed.

(** Each row lands in exactly one of the three lists, under its own name. *)
Lemma classify_row_metric (r : MetricRecord) (c : confidence) (row : BoundsEntry) :
  match classify_row r c row with
  | Missing m => m = metric row /\ dict_get r (metric row) = None
  | Within w => w_metric w = metric row /\ dict_get r (metric row) <> None
  | Outlier o => o_metric o = metric row /\ dict_get r (metric row) <> None
  end.
Proof.
  unfold classify_row. destruct (dict_get r (metric row)) as [v|] eqn:E.
  - destruct (Qle_bool _ v && Qle_bool v _).
    + simpl. split; [reflexivity | discriminate].
    + destruct (Qltb v (bound_lower c row)); simpl; split; (reflexivity || discriminate).
  - auto.
Qed.

Definition present (r : MetricRecord) (m : string) : bool :=
  match dict_get r m with Some _ => true | None => false end.

Definition occ (l : list string) (m : string) : nat := count_occ string_dec l m.
Arguments occ : simpl never.

Lemma occ_cons (x : string) (l : list string) (m : string) :
  occ (x :: l) m = ((if String.eqb x m then 1 else 0) + occ l m)%nat.
Proof.
  unfold occ. simpl. destruct (string_dec x m) as [->|Hne].
  - rewrite String.eqb_refl. reflexivity.
  - apply String.eqb_neq in Hne. rewrite Hne. reflexivity.
Qed.

(** Counting form of the partition, without any uniqueness assumption. *)
Lemma classify_rows_occ (r : MetricRecord) (c : confidence) (t : BoundsTable) (m : string) :
  let '(outs, ins, miss) := classify_rows r c t in
  (occ (map w_metric ins) m + occ (map o_metric outs) m =
     if present r m then occ (map metric t) m else 0%nat)%nat /\
  occ miss m = (if present r m then 0%nat else occ (map metric t) m) /\
  (length ins + length outs = length (filter (fun row => present r (metric row)) t))%nat.
Proof.
  induction t as [|row t IH]; simpl.
  - destruct (present r m); auto.
  - destruct (classify_rows r c t) as [[outs ins] miss].
    destruct IH as [IH1 [IH2 IH3]].
    pose proof (classify_row_metric r c row) as Hrow.
    rewrite occ_cons.
    destruct (classify_row r c row) as [mm|w|o]; destruct Hrow as [Hname Hget];
      unfold present in *; simpl.
    + rewrite Hget. rewrite occ_cons, Hname.
      destruct (String.eqb (metric row) m) eqn:Em.
      * apply String.eqb_eq in Em. subst m. rewrite Hget in *. lia.
      * destruct (dict_get r m); lia.
    + destruct (dict_get r (metric row)) eqn:Eg; [|congruence].
      rewrite occ_cons, Hname. simpl.
      destruct (String.eqb (metric row) m) eqn:Em.
      * apply String.eqb_eq in Em. subst m. rewrite Eg in *. lia.
      * destruct (dict_get r m); lia.
    + destruct (dict_get r (metric row)) eqn:Eg; [|congruence].
      rewrite occ_cons, Hname. simpl.
      destruct (String.eqb (metric row) m) eqn:Em.
      * apply String.eqb_eq in Em. subst m. rewrite Eg in *. lia.
      * destruct (dict_get r m); lia.
Qed.

(** Concrete tables used below. *)
Definition row_of (m : string) (mean std l95 u95 l99 u99 : Q) : BoundsEntry :=
  mkBoundsEntry m mean std l95 u95 l99 u99 "".

(** The spec's example row: [redundancy] with mean 0.015, std 0.005,
    95% bounds [0.005, 0.025], 99% bounds [0.002, 0.028]. *)
Definition redundancy_row : BoundsEntry :=
  row_of "redundancy" (15#1000) (5#1000) (5#1000) (25#1000) (2#1000) (28#1000).

Lemma spec_example_outlier :
  map (fun o => (o_direction o, o_severity o))
      (outliers (check_sequence_randomness [("redundancy", 45#1000)] [redundancy_row] CL95))
  = [(above, extreme)].
Proof. reflexivity. Qed.

(** A score of exactly 0.9 (9 of 10 metrics within bounds). *)
Definition ten_rows : BoundsTable :=
  map (fun m => row_of m 0 1 (-1) 1 (-2) 2)
      ["a"; "b"; "c"; "d"; "e"; "f"; "g"; "h"; "i"; "j"].
Definition nine_of_ten : MetricRecord :=
  [("a", 0); ("b", 0); ("c", 0); ("d", 0); ("e", 0);
   ("f", 0); ("g", 0); ("h", 0); ("i", 0); ("j", 5)].

Example nine_of_ten_score :
  (randomness_score (check_sequence_randomness nine_of_ten ten_rows CL95) == 9#10) /\
  assessment_of (check_sequence_randomness nine_of_ten ten_rows CL95) = likely_random.
Proof. split; reflexivity. Qed.

(** C1: the randomness score is the number of within-bounds metrics divided
    by the number of scored metrics (within-bounds plus outliers), 0 when no
    metric was scored; the scored metrics are the table rows whose metric the
    record contains, and the score lies in [0,1]. *)
Theorem randomness_score_ratio (r : MetricRecord) (t : BoundsTable) (c : confidence) :
  let res := check_sequence_randomness r t c in
  let w := within_bounds_count res in
  let o := outlier_count res in
  w = length (within_bounds res) /\ o = length (outliers res) /\
  total_metrics_tested res = (w + o)%nat /\
  (w + o = length (filter (fun row => present r (metric row)) t))%nat /\
  (randomness_score res == if Nat.eqb (w + o) 0 then 0 else natQ w / natQ (w + o)) /\
  0 <= randomness_score res <= 1.
Proof.
  pose proof (classify_rows_occ r c t EmptyString) as H.
  unfold check_sequence_randomness.
  destruct (classify_rows r c t) as [[outs ins] miss].
  destruct H as [_ [_ Hlen]]. cbn zeta; simpl.
  split; [reflexivity|]. split; [reflexivity|]. split; [reflexivity|].
  split; [exact Hlen|].
  destruct (Nat.ltb 0 (length ins + length outs)) eqn:E.
  - apply Nat.ltb_lt in E.
    destruct (Nat.eqb_spec (length ins + length outs) 0) as [E0|_]; [lia|].
    split; [apply Qeq_refl | apply ratio_in_unit; exact E].
  - apply Nat.ltb_ge in E.
    destruct (Nat.eqb_spec (length ins + length outs) 0) as [_|E0]; [|lia].
    split; [apply Qeq_refl|]. split; discriminate.
Qed.

(** C2: the assessment label is the spec's threshold table applied to the
    score with strict comparisons ([> 0.90] highly_likely_random, [> 0.80]
    likely_random, [> 0.70] possibly_random, [> 0.50] possibly_non_random,
    otherwise likely_non_random); at each boundary the lower label is
    taken, e.g. 0.90 gives likely_random. *)
Theorem assessment_thresholds (r : MetricRecord) (t : BoundsTable) (c : confidence) :
  let res := check_sequence_randomness r t c in
  assessment_of res = spec_assessment (randomness_score res) /\
  spec_assessment (90#100) = likely_random /\
  spec_assessment (80#100) = possibly_random /\
  spec_assessment (70#100) = possibly_non_random /\
  spec_assessment (50#100) = likely_non_random.
Proof.
  unfold check_sequence_randomness.
  destruct (classify_rows r c t) as [[outs ins] miss]. cbn zeta.
  repeat split; reflexivity.
Qed.

Definition in_table (t : BoundsTable) (m : string) : bool :=
  if in_dec string_dec m (map metric t) then true else false.

Lemma occ_nodup (l : list string) (m : string) :
  NoDup l -> occ l m = (if in_dec string_dec m l then 1 else 0)%nat.
Proof.
  intro Hnd. unfold occ.
  pose proof (proj1 (NoDup_count_occ string_dec l) Hnd m) as Hle.
  destruct (in_dec string_dec m l) as [Hin|Hin].
  - apply (count_occ_In string_dec) in Hin. lia.
  - apply (count_occ_not_In string_dec) in Hin. exact Hin.
Qed.

(** C3 (as the code behaves): when the table's metric names are unique, a
    name of the table that the record contains is classified exactly once
    (within-bounds or outlier) and not reported missing; a name of the table
    that the record lacks is reported missing exactly once and not scored; a
    name of the record that the table lacks appears in none of the three
    lists; and the score's denominator counts exactly the table rows whose
    metric the record contains. *)
Theorem classification_partition (r : MetricRecord) (t : BoundsTable)
    (c : confidence) (m : string) (Huniq : NoDup (map metric t)) :
  let res := check_sequence_randomness r t c in
  (occ (map w_metric (within_bounds res)) m + occ (map o_metric (outliers res)) m
     = if in_table t m && present r m then 1 else 0)%nat /\
  occ (missing_metrics res) m = (if in_table t m && negb (present r m) then 1 else 0)%nat /\
  total_metrics_tested res = length (filter (fun row => present r (metric row)) t).
Proof.
  pose proof (classify_rows_occ r c t m) as H.
  pose proof (occ_nodup _ m Huniq) as Hocc.
  unfold check_sequence_randomness, in_table.
  destruct (classify_rows r c t) as [[outs ins] miss]. cbn zeta; simpl.
  destruct H as [H1 [H2 H3]]. rewrite Hocc in H1, H2.
  destruct (in_dec string_dec m (map metric t)), (present r m); simpl in *;
    repeat split; lia.
Qed.

(** A record with one metric of the table and one metric the table lacks. *)
Definition extra_record : MetricRecord := [("redundancy", 45#1000); ("extra", 1)].

Lemma classification_partition_witness :
  NoDup (map metric [redundancy_row]) /\
  (let res := check_sequence_randomness extra_record
                [redundancy_row] CL95 in
   (occ (map w_metric (within_bounds res)) "extra" + occ (map o_metric (outliers res)) "extra"
      = if in_table [redundancy_row] "extra" && present extra_record "extra"
        then 1 else 0)%nat /\
   occ (missing_metrics res) "extra"
     = (if in_table [redundancy_row] "extra"
             && negb (present extra_record "extra") then 1 else 0)%nat /\
   total_metrics_tested res
     = length (filter (fun row => present extra_record (metric row))
                 [redundancy_row])).
Proof.
  assert (Hnd : NoDup (map metric [redundancy_row]))
    by (simpl; constructor; [simpl; tauto | constructor]).
  split; [exact Hnd|].
  exact (classification_partition extra_record [redundancy_row]
           CL95 "extra" Hnd).
Defined.

(** C3 as stated fails: a metric of the record that the bounds table lacks is
    not reported as missing (the loop only visits the table's rows). *)
Lemma record_only_metric_not_missing :
  missing_metrics (check_sequence_randomness extra_record
                     [redundancy_row] CL95) = [] /\
  ~ In "extra" (missing_metrics
                  (check_sequence_randomness extra_record
                     [redundancy_row] CL95)).
Proof.
  split; [reflexivity|]. simpl. tauto.
Qed.

(** A bounds row whose [expected_std] is 0: mean 0.015, 95% bounds
    [0.005, 0.025]. *)
Definition zero_std_row : BoundsEntry :=
  row_of "redundancy" (15#1000) 0 (5#1000) (25#1000) (2#1000) (28#1000).

(** C4: with [expected_std = 0] the within-bounds entry's
    [distance_from_mean] is computed by an unguarded division by zero: it has
    no finite value (Python raises [ZeroDivisionError], numpy gives [inf]),
    and it is not the 0 the spec asks for. *)
Theorem zero_std_distance_unguarded :
  map w_distance_from_mean
      (within_bounds (check_sequence_randomness [("redundancy", 2#100)] [zero_std_row] CL95))
    = [None] /\
  map w_distance_from_mean
      (within_bounds (check_sequence_randomness [("redundancy", 2#100)] [zero_std_row] CL95))
    <> [Some 0].
Proof.
  split; [reflexivity | discriminate].
Qed.

(** Nesting of bound intervals, one row at a time. *)
Lemma classify_row_outlier_99_95 (r : MetricRecord) (row : BoundsEntry) :
  (forall v, bound_95_lower row <= v <= bound_95_upper row ->
             bound_99_lower row <= v <= bound_99_upper row) ->
  match classify_row r CL99 row with
  | Outlier _ => exists o, classify_row r CL95 row = Outlier o
  | _ => True
  end.
Proof.
  intro Hnest. unfold classify_row.
  destruct (dict_get r (metric row)) as [v|]; [|exact I].
  simpl bound_lower; simpl bound_upper.
  destruct (Qle_bool (bound_99_lower row) v && Qle_bool v (bound_99_upper row)) eqn:E99;
    [exact I|].
  destruct (Qle_bool (bound_95_lower row) v && Qle_bool v (bound_95_upper row)) eqn:E95.
  - apply andb_true_iff in E95. destruct E95 as [Hl Hu].
    apply Qle_bool_iff in Hl. apply Qle_bool_iff in Hu.
    destruct (Hnest v (conj Hl Hu)) as [Hl' Hu'].
    apply Qle_bool_iff in Hl'. apply Qle_bool_iff in Hu'.
    rewrite Hl', Hu' in E99. discriminate.
  - destruct (Qltb v (bound_99_lower row)), (Qltb v (bound_95_lower row)); cbn; eexists; reflexivity.
Qed.

Lemma outliers_99_le_95 (r : MetricRecord) (t : BoundsTable) :
  (forall row, In row t ->
     forall v, bound_95_lower row <= v <= bound_95_upper row ->
               bound_99_lower row <= v <= bound_99_upper row) ->
  (length (fst (fst (classify_rows r CL99 t)))
     <= length (fst (fst (classify_rows r CL95 t))))%nat.
Proof.
  induction t as [|row t IH]; intro Hnest; simpl; [lia|].
  pose proof (classify_row_outlier_99_95 r row (Hnest row (or_introl eq_refl))) as Hrow.
  assert (IH' := IH (fun row' Hin => Hnest row' (or_intror Hin))).
  destruct (classify_rows r CL99 t) as [[o99 i99] m99].
  destruct (classify_rows r CL95 t) as [[o95 i95] m95]. simpl in IH'.
  destruct (classify_row r CL99 row); destruct (classify_row r CL95 row);
    simpl; try lia;
    destruct Hrow as [o' Ho']; discriminate.
Qed.

(** C6: when every row's 99% interval contains its 95% interval, the outlier
    count at confidence level 99 is at most the one at level 95. *)
Theorem outlier_count_monotone (r : MetricRecord) (t : BoundsTable)
    (Hnest : forall row, In row t ->
       forall v, bound_95_lower row <= v <= bound_95_upper row ->
                 bound_99_lower row <= v <= bound_99_upper row) :
  (outlier_count (check_sequence_randomness r t CL99)
     <= outlier_count (check_sequence_randomness r t CL95))%nat.
Proof.
  pose proof (outliers_99_le_95 r t Hnest) as H.
  unfold check_sequence_randomness.
  destruct (classify_rows r CL99 t) as [[o99 i99] m99].
  destruct (classify_rows r CL95 t) as [[o95 i95] m95]. exact H.
Qed.

Lemma outlier_count_monotone_witness :
  (forall row, In row [redundancy_row] ->
     forall v, bound_95_lower row <= v <= bound_95_upper row ->
               bound_99_lower row <= v <= bound_99_upper row) /\
  (outlier_count (check_sequence_randomness [("redundancy", 27#1000)] [redundancy_row] CL99)
     <= outlier_count (check_sequence_randomness [("redundancy", 27#1000)] [redundancy_row] CL95))%nat.
Proof.
  assert (Hn : forall row, In row [redundancy_row] ->
     forall v, bound_95_lower row <= v <= bound_95_upper row ->
               bound_99_lower row <= v <= bound_99_upper row).
  { intros row [<-|[]] v [Hl Hu]. simpl in *. split.
    - apply Qle_trans with (5#1000); [apply Qle_bool_iff; reflexivity | exact Hl].
    - apply Qle_trans with (25#1000); [exact Hu | apply Qle_bool_iff; reflexivity]. }
  split; [exact Hn|].
  exact (outlier_count_monotone [("redundancy", 27#1000)] [redundancy_row] Hn).
Defined.

End CheckerFacts.

(* ------------------------------------------------------------------ *)
(** ** Transition matrix engine *)

Module TransitionFacts.
Import Transitions.
Local Open Scope Q_scope.

Example step1_small :
  calculate_transition_matrix [0; 1; 0]%Z 1 2 [[NaN; NaN]; [NaN; NaN]]
  = Some [[0; 1]; [1; 0]].
Proof. reflexivity. Qed.

Lemma natQ_add (a b : nat) : natQ (a + b) == natQ a + natQ b.
Proof. unfold natQ. rewrite Nat2Z.inj_add, inject_Z_plus. reflexivity. Qed.

Lemma natQ_nonneg_count (n : nat) : 0 <= natQ n.
Proof. unfold natQ. change 0 with (inject_Z 0). rewrite <- Zle_Qle. lia. Qed.

Lemma Qsum_scaled (row : list nat) (s : nat) :
  Qsum (map (fun c => nan_to_num (Fin (natQ c / natQ s))) row)
  == natQ (row_sum row) / natQ s.
Proof.
  induction row as [|c row IH]; simpl.
  - unfold Qdiv. rewrite Qmult_0_l. reflexivity.
  - unfold Qsum in IH. rewrite IH. rewrite natQ_add. unfold Qdiv.
    rewrite Qmult_plus_distr_l. reflexivity.
Qed.

(** The designed part of the normalization: a row with at least one
    transition becomes non-negative probabilities summing to 1, whatever the
    output buffer held. *)
Lemma prob_row_nonzero (row : list nat) (buf_row : list f64) :
  (0 < row_sum row)%nat ->
  Qsum (prob_row row buf_row) == 1 /\
  Forall (fun q => 0 <= q) (prob_row row buf_row).
Proof.
  intro Hpos. unfold prob_row.
  destruct (Nat.eqb_spec (row_sum row) 0) as [E|_]; [lia|].
  assert (Hs : 0 < natQ (row_sum row)).
  { unfold natQ. change 0 with (inject_Z 0). rewrite <- Zlt_Qlt. lia. }
  split.
  - rewrite Qsum_scaled. unfold Qdiv. apply Qmult_inv_r.
    intro H0. rewrite H0 in Hs. discriminate.
  - apply Forall_forall. intros q Hq. apply in_map_iff in Hq.
    destruct Hq as [c [<- _]]. simpl.
    apply Qle_shift_div_l; [exact Hs|]. rewrite Qmult_0_l. apply natQ_nonneg_count.
Qed.

(** A numpy result buffer whose cells still hold 1.0 from earlier use. *)
Definition stale_buffer : list (list f64) := repeat (repeat (Fin 1) 10) 10.

(** C5: for the one-symbol sequence [0] at step 1 and base 10 no pair is at
    distance 1, every row has zero transitions, and the rows are not
    zeroed: they keep the buffer's stale values (here 1.0 in every cell, so
    each row sums to 10). *)
Theorem zero_rows_not_zeroed :
  calculate_transition_matrix [0%Z] 1 10 stale_buffer
    = Some (repeat (repeat 1 10) 10) /\
  match calculate_transition_matrix [0%Z] 1 10 stale_buffer with
  | Some m => Qsum (nth 0 m []) == 10
  | None => False
  end.
Proof.
  split; reflexivity.
Qed.

End TransitionFacts.

(* ------------------------------------------------------------------ *)
(** ** Metric library *)

Module MetricFacts.
Import MT Metrics.

(** The generator model reproduces CPython: after [random.seed(42)] the first
    two 32-bit outputs are 2746317213 and 478163327, the words behind
    [random.random() == 0.6394267984578837]. *)
Example seed42_first_words :
  let '(a, s1) := genrand_uint32 import_state in
  let '(b, _) := genrand_uint32 s1 in
  (a, b) = (2746317213%Z, 478163327%Z).
Proof. vm_compute. reflexivity. Qed.

Example tp_indices_0101 : _extract_tp_indices [0; 1; 0; 1]%Z = [1; 2]%nat.
Proof. reflexivity. Qed.

(** Two evaluations of [pl1] on the same sequence, one after the other. *)
Definition pl1_twice (z : list Z) : RNG (Q * Q) :=
  v1 <- pl1 z 10 ;; v2 <- pl1 z 10 ;; ret (v1, v2).

(** The run returned the pair of values [(q1, q2)] (up to [Qeq]). *)
Definition returns_pair (r : option ((Q * Q) * state)) (q1 q2 : Q) : Prop :=
  match r with
  | Some ((v1, v2), _) => (v1 == q1)%Q /\ (v2 == q2)%Q
  | None => False
  end.

(** The run returned two different values. *)
Definition returns_distinct (r : option ((Q * Q) * state)) : Prop :=
  match r with
  | Some ((v1, v2), _) => ~ (v1 == v2)%Q
  | None => False
  end.

(** C7 as stated fails: right after import, evaluating [pl1([0,1,0,1])]
    twice gives two different values, because each evaluation advances the
    module-level generator. *)
Lemma pl1_repeated_evaluations_differ :
  returns_distinct (pl1_twice [0; 1; 0; 1]%Z import_state).
Proof. vm_compute. intro H. discriminate H. Qed.

(** One 32-bit word drawn from the generator. *)
Definition advance (s : state) : state := snd (genrand_uint32 s).

(** Whenever [m] returns, it has drawn at least [lo] words from the
    generator: the final state is the initial one advanced [n >= lo]
    times. *)
Definition draws_at_least {A : Type} (lo : nat) (m : RNG A) : Prop :=
  forall s a s', m s = Some (a, s') -> exists n, (lo <= n)%nat /\ s' = Nat.iter n advance s.

Lemma draws_ret {A : Type} (a : A) : draws_at_least 0 (ret a).
Proof.
  intros s a' s' H. unfold ret in H. injection H as _ <-. exists 0%nat. split; reflexivity.
Qed.

Lemma draws_weaken {A : Type} (lo lo' : nat) (m : RNG A) :
  (lo' <= lo)%nat -> draws_at_least lo m -> draws_at_least lo' m.
Proof.
  intros Hle Hm s a s' H. destruct (Hm s a s' H) as [n [Hn E]].
  exists n. split; [lia | exact E].
Qed.

Lemma draws_bind {A B : Type} (l1 l2 : nat) (m : RNG A) (k : A -> RNG B) :
  draws_at_least l1 m -> (forall a, draws_at_least l2 (k a)) ->
  draws_at_least (l1 + l2) (bind m k).
Proof.
  intros Hm Hk s b s'' H. unfold bind in H.
  destruct (m s) as [[a s1]|] eqn:E; [|discriminate H].
  destruct (Hm s a s1 E) as [n1 [Hn1 ->]].
  destruct (Hk a _ b s'' H) as [n2 [Hn2 ->]].
  exists (n2 + n1)%nat. split; [lia|]. symmetry. apply Nat.iter_add.
Qed.

Lemma draws_getrandbits (k : Z) : draws_at_least 1 (getrandbits k).
Proof.
  intros s a s' H. unfold getrandbits in H.
  destruct (genrand_uint32 s) as [y s1] eqn:E. injection H as _ <-.
  exists 1%nat. split; [lia|]. simpl. unfold advance. rewrite E. reflexivity.
Qed.

Lemma draws_randbelow_loop (fuel : nat) (n k : Z) : draws_at_least 1 (randbelow_loop fuel n k).
Proof.
  induction fuel as [|f IH].
  - intros s a s' H. discriminate H.
  - change (randbelow_loop (S f) n k)
      with (bind (getrandbits k) (fun r => if (r <? n)%Z then ret r else randbelow_loop f n k)).
    apply (draws_weaken (1 + 0)); [lia|]. apply draws_bind; [apply draws_getrandbits|].
    intro r. destruct (r <? n)%Z; [apply draws_ret | exact (draws_weaken 1 0 _ ltac:(lia) IH)].
Qed.

Lemma draws_randint (a b : Z) : draws_at_least 1 (randint a b).
Proof.
  unfold randint, randbelow. apply (draws_weaken (1 + 0)); [lia|].
  apply draws_bind; [apply draws_randbelow_loop | intro x; apply draws_ret].
Qed.

Lemma draws_replicateM {A : Type} (l n : nat) (m : RNG A) :
  draws_at_least l m -> draws_at_least (n * l) (replicateM n m).
Proof.
  intro Hm. induction n as [|n IH]; [apply draws_ret|].
  change (replicateM (S n) m) with (x <- m ;; xs <- replicateM n m ;; ret (x :: xs)).
  apply (draws_weaken (l + (n * l + 0))); [lia|].
  apply draws_bind; [exact Hm|]. intro x.
  apply draws_bind; [exact IH | intro xs; apply draws_ret].
Qed.

Lemma draws_trials_total (m d base : nat) :
  forall trials total, draws_at_least (trials * m) (trials_total trials m d base total).
Proof.
  induction trials as [|t IH]; intro total; [apply draws_ret|].
  change (trials_total (S t) m d base total)
    with (rand_seq <- replicateM m (randint 0 (Z.of_nat base - 1)) ;;
          trials_total t m d base (total + gap_count (_extract_tp_indices rand_seq) d)%nat).
  apply (draws_weaken (m * 1 + t * m)); [lia|].
  apply draws_bind; [apply draws_replicateM, draws_randint | intro rs; apply IH].
Qed.

Lemma draws_pl_d (z : list Z) (d base : nat) :
  (d + 3 <= length z)%nat -> draws_at_least (1000 * length z) (_pl_d z d base).
Proof.
  intro Hm. unfold _pl_d.
  destruct (Nat.ltb_spec (length z) (d + 3)) as [Hlt|_]; [lia|].
  apply (draws_weaken (1000 * length z + 0 + 0)); [lia|].
  apply draws_bind; [|intro e; apply draws_ret].
  unfold _empirical_expected_pl.
  apply draws_bind; [apply draws_trials_total | intro t; apply draws_ret].
Qed.

(** C7 (as the code behaves): a sequence too short for gap [d] gives 0 and
    leaves the generator untouched; otherwise every evaluation of [_pl_d]
    draws at least [1000 * len(z)] words from the generator seeded once
    with 42 at import, so its value depends on that state, which each call
    advances. In a fresh process the first two evaluations of
    [pl1([0,1,0,1])] always return 1000/325 and then 1000/346. *)
Theorem pl_values_follow_generator_state :
  (forall (z : list Z) (d base : nat) (s : state),
     (length z < d + 3)%nat -> _pl_d z d base s = Some (0%Q, s)) /\
  (forall (z : list Z) (d base : nat) (s : state) (v : Q) (s' : state),
     (d + 3 <= length z)%nat -> _pl_d z d base s = Some (v, s') ->
     exists n, (1000 * length z <= n)%nat /\ s' = Nat.iter n advance s) /\
  returns_pair (pl1_twice [0; 1; 0; 1]%Z import_state) (1000 # 325) (1000 # 346).
Proof.
  split; [|split].
  - intros z d base s Hlt. unfold _pl_d.
    apply Nat.ltb_lt in Hlt. rewrite Hlt. reflexivity.
  - intros z d base s v s' Hm H. exact (draws_pl_d z d base Hm s v s' H).
  - vm_compute. split; reflexivity.
Qed.

Lemma pl_values_follow_generator_state_witness :
  (length [0; 1]%Z < 1 + 3)%nat /\ _pl_d [0; 1]%Z 1 10 import_state = Some (0%Q, import_state) /\
  (1 + 3 <= length [0; 1; 0; 1]%Z)%nat /\
  match _pl_d [0; 1; 0; 1]%Z 1 10 import_state with
  | Some (_, s') => exists n, (1000 * length [0; 1; 0; 1]%Z <= n)%nat /\
                              s' = Nat.iter n advance import_state
  | None => False
  end.
Proof.
  assert (Hlt : (length [0; 1]%Z < 1 + 3)%nat) by (cbn; lia).
  assert (Hge : (1 + 3 <= length [0; 1; 0; 1]%Z)%nat) by (cbn; lia).
  split; [exact Hlt|].
  split; [exact (proj1 pl_values_follow_generator_state [0; 1]%Z 1%nat 10%nat import_state Hlt)|].
  split; [exact Hge|].
  destruct (_pl_d [0; 1; 0; 1]%Z 1 10 import_state) as [[v s']|] eqn:E.
  - exact (proj1 (proj2 pl_values_follow_generator_state) [0; 1; 0; 1]%Z 1%nat 10%nat
             import_state v s' Hge E).
  - vm_compute in E. discriminate E.
Defined.

(** *** [coupon] *)

Lemma NoDup_map_of_nat (l : list nat) : NoDup l -> NoDup (map Z.of_nat l).
Proof.
  induction 1 as [|x l Hx Hnd IH]; simpl; constructor; [|exact IH].
  intro Hin. apply in_map_iff in Hin. destruct Hin as [y [Hy Hyl]].
  apply Nat2Z.inj in Hy. subst y. contradiction.
Qed.

(** A list holding every symbol of [range(base)] has at least [base] elements. *)
Lemma has_all_length (base : nat) (t : list Z) :
  has_all base t = true -> (base <= length t)%nat.
Proof.
  unfold has_all. intro H. rewrite forallb_forall in H.
  assert (Hincl : incl (map Z.of_nat (seq 0 base)) t).
  { intros x Hx. specialize (H x Hx). apply existsb_exists in H.
    destruct H as [y [Hy Heq]]. apply Z.eqb_eq in Heq. subst y. exact Hy. }
  pose proof (NoDup_incl_length (NoDup_map_of_nat _ (seq_NoDup base 0)) Hincl) as Hle.
  rewrite length_map, length_seq in Hle. exact Hle.
Qed.

Lemma coupon_inner_ge (base : nat) (z : list Z) (i : nat) :
  forall fuel j tmp k, length tmp = j ->
  coupon_inner base z i j fuel tmp = Some k -> (base <= k)%nat.
Proof.
  induction fuel as [|f IH]; intros j tmp k Hlen H; simpl in H; [discriminate|].
  destruct (has_all base (tmp ++ [nth (i + j) z 0%Z])) eqn:Hall.
  - injection H as <-. apply has_all_length in Hall.
    rewrite length_app, Hlen in Hall. simpl in Hall. lia.
  - apply (IH (S j) (tmp ++ [nth (i + j) z 0%Z])); [|exact H].
    rewrite length_app, Hlen. simpl. lia.
Qed.

Lemma coupon_res_ge (z : list Z) (base : nat) :
  Forall (fun k => (base <= k)%nat) (coupon_res z base).
Proof.
  apply Forall_forall. intros k Hk. unfold coupon_res in Hk.
  apply in_flat_map in Hk. destruct Hk as [i [_ Hk]].
  destruct (coupon_inner base z i 0 (length z - i) []) as [k'|] eqn:E;
    [|destruct Hk].
  destruct Hk as [<-|[]].
  exact (coupon_inner_ge base z i _ 0 [] k' eq_refl E).
Qed.

Lemma sumn_ge (base : nat) (l : list nat) :
  Forall (fun k => (base <= k)%nat) l -> (length l * base <= sumn l)%nat.
Proof.
  induction 1 as [|x l Hx _ IH]; simpl; lia.
Qed.

Lemma mean_nat_ge (base : nat) (l : list nat) :
  l <> [] -> Forall (fun k => (base <= k)%nat) l ->
  (inject_Z (Z.of_nat base) <= mean_nat l)%Q.
Proof.
  intros Hne Hall. pose proof (sumn_ge base l Hall) as Hs.
  assert (Hl : (0 < length l)%nat) by (destruct l; [congruence | simpl; lia]).
  unfold mean_nat. apply Qle_shift_div_l.
  - change 0%Q with (inject_Z 0). rewrite <- Zlt_Qlt. lia.
  - rewrite <- inject_Z_mult, <- Zle_Qle. lia.
Qed.

(** C10: every completion length recorded by [coupon] is at least [base]
    (a window holding all [base] symbols has at least [base] elements), so
    when some start position completes a full set the mean is at least
    [base]. *)
Theorem coupon_lengths_at_least_base (z : list Z) (base : nat) :
  Forall (fun k => (base <= k)%nat) (coupon_res z base) /\
  match coupon_res z base with
  | [] => True
  | _ => (inject_Z (Z.of_nat base) <= coupon_mean (coupon z base))%Q
  end.
Proof.
  pose proof (coupon_res_ge z base) as Hge. split; [exact Hge|].
  unfold coupon. destruct (coupon_res z base) as [|k [|k' l]] eqn:E; [exact I| |];
    simpl coupon_mean; apply mean_nat_ge; (discriminate || exact Hge).
Qed.

Example coupon_example :
  coupon_res [0; 1; 1; 0; 1]%Z 2 = [2; 3; 2; 2]%nat /\
  (coupon_mean (coupon [0; 1; 1; 0; 1]%Z 2) == 9 # 4)%Q.
Proof. split; reflexivity. Qed.

End MetricFacts.

(* ------------------------------------------------------------------ *)
(** ** Deviation reporter *)

Module SuggestionFacts.
Import Suggestions.
Local Open Scope string_scope.

Lemma keep_nonempty (x : suggestion) (l : list suggestion) :
  In x l -> In x (match l with [] => [minor_bias_suggestion] | _ => l end).
Proof. destruct l; [intros []|auto]. Qed.

Definition three_freq_outliers : list ReportOutlier :=
  [mkReportOutlier "freq_1" "high"; mkReportOutlier "freq_2" "high";
   mkReportOutlier "freq_7" "low"].

(** C9 as stated fails: three frequency outliers do not trigger the
    combined digit-bias suggestion (the code requires more than 3). *)
Lemma three_freq_outliers_no_digit_bias :
  generate_improvement_suggestions three_freq_outliers = Ok [minor_bias_suggestion].
Proof. reflexivity. Qed.

Example four_freq_outliers :
  generate_improvement_suggestions
    (mkReportOutlier "freq_0" "low" :: three_freq_outliers)
  = Ok [digit_bias_suggestion ["1"; "2"] ["0"; "7"]].
Proof. reflexivity. Qed.

(** Two phase outliers, one of them named exactly [pl]: [o['metric'][2]]
    raises before any suggestion is returned. *)
Example pl_phase_outlier_raises :
  generate_improvement_suggestions
    (mkReportOutlier "pl" "high" :: mkReportOutlier "pl1" "high"
       :: mkReportOutlier "freq_0" "low" :: three_freq_outliers)
  = Err IndexError.
Proof. reflexivity. Qed.

Lemma prefix_pl_short (name : string) :
  String.prefix "pl" name = true -> String.get 2 name = None -> name = "pl"%string.
Proof.
  intros H1 H2.
  destruct name as [|c1 [|c2 [|c3 s]]]; cbn [String.prefix] in H1; cbn [String.get] in H2;
    try discriminate; revert H1.
  - destruct (Ascii.ascii_dec "p" c1); cbn [String.prefix]; intro H; discriminate H.
  - destruct (Ascii.ascii_dec "p" c1) as [<-|]; cbn [String.prefix]; intro H; [|discriminate H].
    destruct (Ascii.ascii_dec "l" c2) as [<-|]; [reflexivity | discriminate H].
Qed.

Lemma str_index_some (s : string) (i : nat) :
  String.get i s <> None -> exists c, str_index s i = Ok c.
Proof.
  unfold str_index. destruct (String.get i s); [intros _; eexists; reflexivity|].
  intro H. exfalso. apply H. reflexivity.
Qed.

(** The comprehension [[o['metric'][2] for o in phase_outliers]] raises
    exactly when one of the metrics is [pl] itself. *)
Lemma phase_list_result (l : list ReportOutlier) :
  Forall (fun o => String.prefix "pl" (metric o) = true) l ->
  match map_result (fun o => str_index (metric o) 2) l with
  | Ok _ => ~ In "pl" (map metric l)
  | Err e => e = IndexError /\ In "pl" (map metric l)
  end.
Proof.
  induction 1 as [|o l Ho Hl IH]; cbn [map_result map]; [intros []|].
  destruct (String.get 2 (metric o)) as [c|] eqn:Eg.
  - unfold str_index at 1. rewrite Eg.
    destruct (map_result (fun o0 => str_index (metric o0) 2) l) as [ys|e].
    + intros [Hpl|Hin]; [|exact (IH Hin)].
      rewrite Hpl in Eg. discriminate Eg.
    + destruct IH as [He Hin]. split; [exact He | right; exact Hin].
  - unfold str_index at 1. rewrite Eg.
    split; [reflexivity | left; exact (prefix_pl_short _ Ho Eg)].
Qed.

Lemma phase_outliers_prefix (outliers : list ReportOutlier) :
  Forall (fun o => String.prefix "pl" (metric o) = true)
         (filter (fun o => String.prefix "pl" (metric o)) outliers).
Proof.
  apply Forall_forall. intros o Ho. apply filter_In in Ho. exact (proj2 Ho).
Qed.

Lemma pl_in_phase_outliers (outliers : list ReportOutlier) :
  In "pl" (map metric outliers) ->
  In "pl" (map metric (filter (fun o => String.prefix "pl" (metric o)) outliers)).
Proof.
  intro H. apply in_map_iff in H. destruct H as [o [Ho Hin]].
  apply in_map_iff. exists o. split; [exact Ho|].
  apply filter_In. split; [exact Hin|]. rewrite Ho. reflexivity.
Qed.

Lemma pl_in_map_filter (outliers : list ReportOutlier) (f : ReportOutlier -> bool) :
  In "pl" (map metric (filter f outliers)) -> In "pl" (map metric outliers).
Proof.
  intro H. apply in_map_iff in H. destruct H as [o [Ho Hin]].
  apply filter_In in Hin. apply in_map_iff. exists o. split; [exact Ho | exact (proj1 Hin)].
Qed.

(** Without an outlier named [pl], the suggestions are always returned. *)
Lemma suggestions_ok (outliers : list ReportOutlier) :
  ~ In "pl" (map metric outliers) -> exists res, generate_improvement_suggestions outliers = Ok res.
Proof.
  intro Hno. pose proof (phase_list_result _ (phase_outliers_prefix outliers)) as Hph.
  unfold generate_improvement_suggestions. cbv zeta.
  destruct (Nat.leb 2 (length (filter (fun o => String.prefix "pl" (metric o)) outliers)));
    [|eexists; reflexivity].
  destruct (map_result (fun o => str_index (metric o) 2)
              (filter (fun o => String.prefix "pl" (metric o)) outliers)) as [phases|e];
    [eexists; reflexivity|].
  exfalso. exact (Hno (pl_in_map_filter _ _ (proj2 Hph))).
Qed.

Ltac trigger_tac :=
  let H := fresh "H" in
  split; intro H;
  [ apply Nat.ltb_lt in H; rewrite H; do 2 eexists; apply keep_nonempty; left; reflexivity
  | apply Nat.leb_le in H; rewrite H; apply keep_nonempty; apply in_or_app; right;
    left; reflexivity ].

(** C9 (as the code behaves): [generate_improvement_suggestions] raises
    [IndexError] exactly when at least two outlier metrics start with [pl]
    and one of them is [pl] itself. Whenever it returns, at least 4
    outliers whose metric starts with [freq_] give the combined digit-bias
    suggestion, and at least 2 outliers among [adjacent], [rp], [pl1],
    [pl2], [pl3] give the pattern suggestion. *)
Theorem suggestion_triggers (outliers : list ReportOutlier) :
  match generate_improvement_suggestions outliers with
  | Ok res =>
      ((4 <= length (filter (fun o => String.prefix "freq_" (metric o)) outliers))%nat ->
         exists fav av, In (digit_bias_suggestion fav av) res) /\
      ((2 <= length (filter (fun o => mem (metric o) ["adjacent"; "rp"; "pl1"; "pl2"; "pl3"])
                       outliers))%nat ->
         In pattern_suggestion res)
  | Err e => e = IndexError
  end /\
  ((exists e, generate_improvement_suggestions outliers = Err e) <->
   (2 <= length (filter (fun o => String.prefix "pl" (metric o)) outliers))%nat /\
   In "pl" (map metric outliers)).
Proof.
  pose proof (phase_list_result _ (phase_outliers_prefix outliers)) as Hph.
  unfold generate_improvement_suggestions. cbv zeta.
  destruct (Nat.leb_spec 2 (length (filter (fun o => String.prefix "pl" (metric o)) outliers)))
    as [Hp|Hp].
  - destruct (map_result (fun o => str_index (metric o) 2)
                (filter (fun o => String.prefix "pl" (metric o)) outliers)) as [phases|e].
    + split; [trigger_tac|]. split.
      * intros [e He]. discriminate He.
      * intros [_ Hin]. exfalso. exact (Hph (pl_in_phase_outliers _ Hin)).
    + destruct Hph as [He Hin]. split; [exact He|]. split.
      * intros _. split; [exact Hp | exact (pl_in_map_filter _ _ Hin)].
      * intros _. exists e. reflexivity.
  - split; [trigger_tac|]. split.
    + intros [e He]. discriminate He.
    + intros [Hp' _]. lia.
Qed.

Definition two_pattern_outliers : list ReportOutlier :=
  [mkReportOutlier "rp" "high"; mkReportOutlier "pl2" "high"].

Lemma suggestion_triggers_witness :
  generate_improvement_suggestions two_pattern_outliers = Ok [pattern_suggestion] /\
  (2 <= length (filter (fun o => mem (metric o) ["adjacent"; "rp"; "pl1"; "pl2"; "pl3"])
                  two_pattern_outliers))%nat /\
  In pattern_suggestion [pattern_suggestion].
Proof.
  assert (E : generate_improvement_suggestions two_pattern_outliers = Ok [pattern_suggestion])
    by reflexivity.
  assert (H : (2 <= length (filter (fun o => mem (metric o) ["adjacent"; "rp"; "pl1"; "pl2"; "pl3"])
                              two_pattern_outliers))%nat) by (simpl; lia).
  split; [exact E|]. split; [exact H|].
  pose proof (proj1 (suggestion_triggers two_pattern_outliers)) as T.
  change (match Ok [pattern_suggestion] with
          | Ok res =>
              ((4 <= length (filter (fun o => String.prefix "freq_" (metric o))
                                    two_pattern_outliers))%nat ->
                 exists fav av, In (digit_bias_suggestion fav av) res) /\
              ((2 <= length (filter (fun o => mem (metric o) ["adjacent"; "rp"; "pl1"; "pl2"; "pl3"])
                               two_pattern_outliers))%nat ->
                 In pattern_suggestion res)
          | Err e => e = IndexError
          end) in T.
  exact (proj2 T H).
Defined.

End SuggestionFacts.

(* ------------------------------------------------------------------ *)
(** ** [redundancy] *)

Module RedundancyFacts.
Import Metrics.

(** *** [Counter] *)

Lemma counter_add_keys (c : list (Z * nat)) (x : Z) :
  map fst (counter_add c x) =
  if existsb (Z.eqb x) (map fst c) then map fst c else map fst c ++ [x].
Proof.
  induction c as [|[k v] c IH]; simpl; [reflexivity|].
  rewrite (Z.eqb_sym x k).
  destruct (Z.eqb k x); simpl; [reflexivity|].
  rewrite IH. destruct (existsb (Z.eqb x) (map fst c)); reflexivity.
Qed.

Lemma counter_add_sum (c : list (Z * nat)) (x : Z) :
  sumn (map snd (counter_add c x)) = S (sumn (map snd c)).
Proof.
  induction c as [|[k v] c IH]; simpl; [reflexivity|].
  destruct (Z.eqb k x); simpl; [reflexivity|]. rewrite IH. lia.
Qed.

Lemma counter_add_pos (c : list (Z * nat)) (x : Z) :
  Forall (fun v => (0 < v)%nat) (map snd c) ->
  Forall (fun v => (0 < v)%nat) (map snd (counter_add c x)).
Proof.
  induction c as [|[k v] c IH]; simpl; intro H.
  - constructor; [lia | constructor].
  - inversion H as [|? ? Hv Hc]; subst.
    destruct (Z.eqb k x); simpl; constructor; auto; lia.
Qed.

Lemma counter_add_nodup (c : list (Z * nat)) (x : Z) :
  NoDup (map fst c) -> NoDup (map fst (counter_add c x)).
Proof.
  intro Hnd. rewrite counter_add_keys.
  destruct (existsb (Z.eqb x) (map fst c)) eqn:E; [exact Hnd|].
  apply NoDup_app; [exact Hnd | constructor; [intros [] | constructor] |].
  intros a Ha [Hxa|[]]. subst a.
  assert (Hex : existsb (Z.eqb x) (map fst c) = true)
    by (apply existsb_exists; exists x; split; [exact Ha | apply Z.eqb_refl]).
  congruence.
Qed.

Lemma counter_add_keys_in (c : list (Z * nat)) (x k : Z) :
  In k (map fst (counter_add c x)) -> In k (map fst c) \/ k = x.
Proof.
  rewrite counter_add_keys.
  destruct (existsb (Z.eqb x) (map fst c)); [auto|].
  intro H. apply in_app_or in H. destruct H as [H|[<-|[]]]; auto.
Qed.

Lemma counter_fold (z : list Z) : forall c,
  NoDup (map fst c) -> Forall (fun v => (0 < v)%nat) (map snd c) ->
  NoDup (map fst (fold_left counter_add z c)) /\
  Forall (fun v => (0 < v)%nat) (map snd (fold_left counter_add z c)) /\
  sumn (map snd (fold_left counter_add z c)) = (sumn (map snd c) + length z)%nat /\
  (forall k, In k (map fst (fold_left counter_add z c)) -> In k (map fst c) \/ In k z).
Proof.
  induction z as [|x z IH]; intros c Hnd Hpos; simpl.
  - repeat split; auto; lia.
  - destruct (IH (counter_add c x) (counter_add_nodup c x Hnd) (counter_add_pos c x Hpos))
      as [H1 [H2 [H3 H4]]].
    repeat split; auto.
    + rewrite H3, counter_add_sum. lia.
    + intros k Hk. destruct (H4 k Hk) as [Hin|Hin]; [|auto].
      destruct (counter_add_keys_in c x k Hin); auto.
Qed.

Lemma in_le_sumn (c : nat) (l : list nat) : In c l -> (c <= sumn l)%nat.
Proof.
  induction l as [|x l IH]; simpl; [intros []|]. intros [<-|H]; [lia|].
  specialize (IH H). lia.
Qed.

(** *** Real-valued bounds *)

Local Open Scope R_scope.

Lemma ln_le_sub1 (x : R) : 0 < x -> ln x <= x - 1.
Proof.
  intro Hx. pose proof (exp_ineq1_le (ln x)) as H. rewrite exp_ln in H by exact Hx. lra.
Qed.

(** Gibbs' inequality, one term at a time: [-p ln p <= p ln b + (1/b - p)]. *)
Lemma entropy_term_le (p b : R) : 0 < p -> 0 < b -> p * - ln p <= p * ln b + (/ b - p).
Proof.
  intros Hp Hb.
  assert (Hbp : 0 < b * p) by (apply Rmult_lt_0_compat; assumption).
  pose proof (ln_le_sub1 (/ (b * p)) (Rinv_0_lt_compat _ Hbp)) as H.
  rewrite ln_Rinv, ln_mult in H by assumption.
  apply (Rmult_le_compat_l p) in H; [|lra].
  assert (Heq : p * (/ (b * p) - 1) = / b - p) by (field; lra).
  rewrite Heq in H. lra.
Qed.

Lemma entropy_term_nonneg (p : R) : 0 < p -> p <= 1 -> 0 <= p * - ln p.
Proof.
  intros Hp Hp1. pose proof (ln_le_sub1 p Hp). apply Rmult_le_pos; lra.
Qed.

Definition Rsum (l : list R) : R := fold_right Rplus 0 l.

(** Entropy in nats: [sum (c/n) * -ln(c/n)]. *)
Definition entropy_ln (cs : list nat) (n : nat) : R :=
  Rsum (map (fun c => INR c / INR n * - ln (INR c / INR n)) cs).

Lemma entropy_eq (cs : list nat) (n : nat) : entropy cs n = entropy_ln cs n / ln 2.
Proof.
  assert (H2 : 0 < ln 2) by (pose proof ln_lt_2; lra).
  unfold entropy, entropy_ln, Rsum.
  induction cs as [|c cs IH]; simpl.
  - field. lra.
  - assert (Hr : fold_right Rplus 0
                   (map (fun c0 => INR c0 / INR n * (ln (INR c0 / INR n) / ln 2)) cs)
                 = - (fold_right Rplus 0
                        (map (fun c0 => INR c0 / INR n * - ln (INR c0 / INR n)) cs) / ln 2))
      by lra.
    rewrite Hr.
    generalize (fold_right Rplus 0
                  (map (fun c0 => INR c0 / INR n * - ln (INR c0 / INR n)) cs)) as F.
    generalize (INR c / INR n) as p. intros p F. field. lra.
Qed.

Lemma Rsum_map_le {A : Type} (f g : A -> R) (l : list A) :
  (forall x, In x l -> f x <= g x) -> Rsum (map f l) <= Rsum (map g l).
Proof.
  induction l as [|x l IH]; simpl; intro H; [lra|].
  pose proof (H x (or_introl eq_refl)).
  assert (Rsum (map f l) <= Rsum (map g l)) by (apply IH; auto).
  unfold Rsum in *. lra.
Qed.

Lemma Rsum_map_nonneg {A : Type} (f : A -> R) (l : list A) :
  (forall x, In x l -> 0 <= f x) -> 0 <= Rsum (map f l).
Proof.
  induction l as [|x l IH]; simpl; intro H; [lra|].
  pose proof (H x (or_introl eq_refl)).
  assert (0 <= Rsum (map f l)) by (apply IH; auto).
  unfold Rsum in *. lra.
Qed.

Lemma Rsum_gibbs_rhs (cs : list nat) (n : nat) (b : R) :
  Rsum (map (fun c => INR c / INR n * ln b + (/ b - INR c / INR n)) cs)
  = INR (sumn cs) / INR n * ln b + INR (length cs) * / b - INR (sumn cs) / INR n.
Proof.
  unfold Rsum. induction cs as [|c cs IH]; simpl.
  - unfold Rdiv. ring.
  - rewrite IH. rewrite plus_INR. destruct (length cs); [simpl|rewrite S_INR];
      unfold Rdiv; ring.
Qed.

(** With [k <= b] positive counts summing to [n > 0], the entropy in nats
    lies in [0, ln b]. *)
Lemma entropy_ln_bounds (cs : list nat) (n b : nat) :
  (0 < n)%nat -> (1 <= b)%nat -> sumn cs = n -> (length cs <= b)%nat ->
  Forall (fun c => (0 < c)%nat) cs ->
  0 <= entropy_ln cs n <= ln (INR b).
Proof.
  intros Hn Hb Hsum Hlen Hpos.
  assert (HnR : 0 < INR n) by (apply lt_0_INR; exact Hn).
  assert (HbR : 0 < INR b) by (apply lt_0_INR; lia).
  assert (Hp : forall c, In c cs -> 0 < INR c / INR n /\ INR c / INR n <= 1).
  { intros c Hc. rewrite Forall_forall in Hpos. specialize (Hpos c Hc).
    pose proof (in_le_sumn c cs Hc) as Hle. rewrite Hsum in Hle.
    split.
    - apply Rdiv_lt_0_compat; [apply lt_0_INR; exact Hpos | exact HnR].
    - apply (Rmult_le_reg_r (INR n)); [exact HnR|].
      unfold Rdiv. rewrite Rmult_assoc, Rinv_l by lra. rewrite Rmult_1_r, Rmult_1_l.
      apply le_INR. exact Hle. }
  unfold entropy_ln. split.
  - apply Rsum_map_nonneg. intros c Hc. destruct (Hp c Hc).
    apply entropy_term_nonneg; assumption.
  - eapply Rle_trans.
    + apply (Rsum_map_le _ (fun c => INR c / INR n * ln (INR b) + (/ INR b - INR c / INR n))).
      intros c Hc. destruct (Hp c Hc). apply entropy_term_le; assumption.
    + rewrite Rsum_gibbs_rhs, Hsum.
      assert (Hone : INR n / INR n = 1) by (field; lra).
      rewrite Hone.
      assert (Hk : INR (length cs) * / INR b <= 1).
      { apply (Rmult_le_reg_r (INR b)); [exact HbR|].
        rewrite Rmult_assoc, Rinv_l by lra. rewrite Rmult_1_r, Rmult_1_l.
        apply le_INR. exact Hlen. }
      lra.
Qed.

(** The number of distinct symbols of a sequence over [range(base)] is at
    most [base]. *)
Lemma counter_length_le (z : list Z) (base : nat) :
  Forall (fun x => (0 <= x < Z.of_nat base)%Z) z ->
  (length (counter z) <= base)%nat.
Proof.
  intro Hrange. unfold counter.
  destruct (counter_fold z [] (NoDup_nil _) (Forall_nil _)) as [Hnd [_ [_ Hkeys]]].
  rewrite <- (length_map fst).
  rewrite <- (length_seq base 0), <- (length_map Z.of_nat (seq 0 base)).
  apply NoDup_incl_length; [exact Hnd|].
  intros k Hk. destruct (Hkeys k Hk) as [[]|Hz].
  rewrite Forall_forall in Hrange. specialize (Hrange k Hz).
  apply in_map_iff. exists (Z.to_nat k). split; [lia|].
  apply in_seq. lia.
Qed.

(** For an alphabet of at least two symbols, [redundancy] of any sequence over [range(base)] (empty or not) returns a
    value in [0,1] (exact real arithmetic). *)
Theorem redundancy_in_unit_interval (z : list Z) (base : nat)
    (Hbase : (2 <= base)%nat)
    (Hrange : Forall (fun x => (0 <= x < Z.of_nat base)%Z) z) :
  exists r, redundancy z base = Some r /\ 0 <= r <= 1.
Proof.
  unfold redundancy.
  destruct (Nat.eqb_spec (length z) 0) as [E|E].
  { exists 0. split; [reflexivity | lra]. }
  destruct (counter_fold z [] (NoDup_nil _) (Forall_nil _)) as [_ [Hpos [Hsum _]]].
  simpl in Hsum. fold (counter z) in Hpos, Hsum.
  pose proof (counter_length_le z base Hrange) as Hlen.
  assert (Hb1 : 1 < INR base) by (apply lt_1_INR; lia).
  assert (Hlnb : 0 < ln (INR base)) by (rewrite <- ln_1; apply ln_increasing; lra).
  assert (H2 : 0 < ln 2) by (pose proof ln_lt_2; lra).
  unfold log2. destruct (Rlt_dec 0 (INR base)) as [_|Hb]; [|lra].
  unfold py_rdiv.
  destruct (Req_EM_T (ln (INR base) / ln 2) 0) as [Hz|_].
  { exfalso. pose proof (Rdiv_lt_0_compat _ _ Hlnb H2). lra. }
  eexists. split; [reflexivity|].
  rewrite entropy_eq.
  destruct (entropy_ln_bounds (map snd (counter z)) (length z) base)
    as [Hlo Hhi]; try lia; try exact Hpos.
  - rewrite length_map. exact Hlen.
  - replace (entropy_ln (map snd (counter z)) (length z) / ln 2 / (ln (INR base) / ln 2))
      with (entropy_ln (map snd (counter z)) (length z) * / ln (INR base))
      by (field; lra).
    assert (Hinv : 0 < / ln (INR base)) by (apply Rinv_0_lt_compat; exact Hlnb).
    assert (Hmul : entropy_ln (map snd (counter z)) (length z) * / ln (INR base) <= 1).
    { rewrite <- (Rinv_r (ln (INR base))) by lra.
      apply Rmult_le_compat_r; lra. }
    assert (0 <= entropy_ln (map snd (counter z)) (length z) * / ln (INR base))
      by (apply Rmult_le_pos; lra).
    lra.
Qed.

Lemma redundancy_in_unit_interval_witness :
  (2 <= 10)%nat /\ Forall (fun x => (0 <= x < Z.of_nat 10)%Z) [3; 1; 4; 1; 5]%Z /\
  exists r, redundancy [3; 1; 4; 1; 5]%Z 10 = Some r /\ 0 <= r <= 1.
Proof.
  assert (Hb : (2 <= 10)%nat) by lia.
  assert (Hr : Forall (fun x => (0 <= x < Z.of_nat 10)%Z) [3; 1; 4; 1; 5]%Z)
    by (repeat constructor; lia).
  split; [exact Hb|]. split; [exact Hr|].
  exact (redundancy_in_unit_interval [3; 1; 4; 1; 5]%Z 10 Hb Hr).
Defined.

(** C8: the code fails the promised range for a one-symbol alphabet:
    [math.log2(1)] is 0 and the unguarded [entropy / max_entropy] raises
    [ZeroDivisionError] on [[0]] with [base = 1], so no value in [0,1] is
    returned. *)
Lemma redundancy_base1_raises : redundancy [0%Z] 1 = None.
Proof.
  unfold redundancy. simpl Nat.eqb. cbv zeta.
  unfold log2. destruct (Rlt_dec 0 (INR 1)) as [_|H]; [|exfalso; apply H; simpl; lra].
  unfold py_rdiv. simpl INR. rewrite ln_1, Rdiv_0_l.
  destruct (Req_EM_T 0 0) as [_|H]; [reflexivity | contradiction].
Qed.

End RedundancyFacts.


Module ListSetFacts.

(** ** Python list assignment *)

Lemma length_list_set {A : Type} (l : list A) (i : nat) (v : A) :
  length (list_set l i v) = length l.
Proof.
  revert i. induction l as [|h t IH]; intros [|i]; simpl; try reflexivity.
  rewrite IH. reflexivity.
Qed.

Lemma nth_list_set_eq {A : Type} (l : list A) (i : nat) (v d : A) :
  (i < length l)%nat -> nth i (list_set l i v) d = v.
Proof.
  revert i. induction l as [|h t IH]; intros [|i] Hi; simpl in *; try lia; try reflexivity.
  apply IH. lia.
Qed.

Lemma nth_list_set_neq {A : Type} (l : list A) (i j : nat) (v d : A) :
  j <> i -> nth j (list_set l i v) d = nth j l d.
Proof.
  revert i j. induction l as [|h t IH]; intros [|i] [|j] Hij; simpl; try reflexivity; try lia.
  apply IH. lia.
Qed.

End ListSetFacts.

Module StatMetricsFacts.
Import Metrics StatMetrics Lqa.
Local Open Scope Q_scope.

Lemma sm_natQ_nonneg (n : nat) : 0 <= natQ n.
Proof. unfold natQ. change 0 with (inject_Z 0). rewrite <- Zle_Qle. lia. Qed.

Lemma sm_natQ_le (a b : nat) : (a <= b)%nat -> natQ a <= natQ b.
Proof. intro H. unfold natQ. rewrite <- Zle_Qle. lia. Qed.

Lemma sm_natQ_pos (n : nat) : (0 < n)%nat -> 0 < natQ n.
Proof. intro H. unfold natQ. change 0 with (inject_Z 0). rewrite <- Zlt_Qlt. lia. Qed.

(** [a / b] lies in [0,1] for counts [a <= b], [b > 0]. *)
Lemma count_ratio_unit (a b : nat) : (a <= b)%nat -> (0 < b)%nat ->
  0 <= natQ a / natQ b <= 1.
Proof.
  intros Hab Hb. pose proof (sm_natQ_pos b Hb) as Hd. split.
  - apply Qle_shift_div_l; [exact Hd|]. rewrite Qmult_0_l. apply sm_natQ_nonneg.
  - apply Qle_shift_div_r; [exact Hd|]. rewrite Qmult_1_l. apply sm_natQ_le. exact Hab.
Qed.

(** *** [adjacent] *)

Lemma up_down_le (z : list Z) : forall u d,
  (fst (up_down z u d) + snd (up_down z u d) <= u + d + (length z - 1))%nat.
Proof.
  induction z as [|a z IH]; intros u d; [simpl; lia|].
  destruct z as [|b rest]; [simpl; lia|].
  change (up_down (a :: b :: rest) u d) with
    (if Z.eqb b (a + 1)%Z then up_down (b :: rest) (S u) d
     else if Z.eqb b (a - 1)%Z then up_down (b :: rest) u (S d)
     else up_down (b :: rest) u d).
  simpl length in *.
  destruct (Z.eqb b (a + 1)%Z); [specialize (IH (S u) d); lia|].
  destruct (Z.eqb b (a - 1)%Z); [specialize (IH u (S d)); lia|].
  specialize (IH u d); lia.
Qed.

(** X1: [adjacent] is a proportion: 0.0 for fewer than two symbols, and
    otherwise the number of steps of exactly [+1] or [-1] divided by the
    [n - 1] adjacent pairs, so it lies in [0,1]. *)
Theorem adjacent_in_unit_interval (z : list Z) (base : nat) :
  0 <= adjacent z base <= 1.
Proof.
  unfold adjacent. destruct (Nat.ltb_spec (length z) 2) as [Hn|Hn].
  - split; [apply Qle_refl | compute; discriminate].
  - pose proof (up_down_le z 0 0) as H.
    destruct (up_down z 0 0) as [u d]. simpl in H.
    apply count_ratio_unit; lia.
Qed.

(** *** [rp] *)

Lemma gcounter_add_sum {A : Type} (eqb : A -> A -> bool) (c : list (A * nat)) (x : A) :
  sumn (map snd (gcounter_add eqb c x)) = S (sumn (map snd c)).
Proof.
  induction c as [|[k v] c IH]; simpl; [reflexivity|].
  destruct (eqb k x); simpl; [reflexivity|]. rewrite IH. lia.
Qed.

Lemma gcounter_add_pos {A : Type} (eqb : A -> A -> bool) (c : list (A * nat)) (x : A) :
  Forall (fun v => (0 < v)%nat) (map snd c) ->
  Forall (fun v => (0 < v)%nat) (map snd (gcounter_add eqb c x)).
Proof.
  induction c as [|[k v] c IH]; simpl; intro H.
  - constructor; [lia | constructor].
  - inversion H as [|? ? Hv Hc]; subst.
    destruct (eqb k x); simpl; constructor; auto; lia.
Qed.

Lemma gcounter_fold {A : Type} (eqb : A -> A -> bool) (l : list A) : forall c,
  Forall (fun v => (0 < v)%nat) (map snd c) ->
  Forall (fun v => (0 < v)%nat) (map snd (fold_left (gcounter_add eqb) l c)) /\
  sumn (map snd (fold_left (gcounter_add eqb) l c)) = (sumn (map snd c) + length l)%nat.
Proof.
  induction l as [|x l IH]; intros c Hpos; simpl; [split; [exact Hpos | lia]|].
  destruct (IH (gcounter_add eqb c x) (gcounter_add_pos eqb c x Hpos)) as [H1 H2].
  split; [exact H1|]. rewrite H2, gcounter_add_sum. lia.
Qed.

Lemma length_le_sumn_pos (l : list nat) :
  Forall (fun v => (0 < v)%nat) l -> (length l <= sumn l)%nat.
Proof. induction 1; simpl; lia. Qed.

Lemma bigrams_length (z : list Z) : length (bigrams z) = (length z - 1)%nat.
Proof.
  induction z as [|a z IH]; [reflexivity|].
  destruct z as [|b rest]; [reflexivity|].
  change (bigrams (a :: b :: rest)) with ((a, b) :: bigrams (b :: rest)).
  simpl length in *. lia.
Qed.

(** X3: [rp] lies in [0,1]: the number of bigrams seen exactly once is at
    most the number of distinct bigrams, itself at most the [m - 1] bigrams
    of the sequence. *)
Theorem rp_in_unit_interval (z : list Z) (base : nat) :
  0 <= rp z base <= 1.
Proof.
  unfold rp. destruct (Nat.ltb_spec (length z) 2) as [Hm|Hm].
  - split; [apply Qle_refl | compute; discriminate].
  - unfold gcounter.
    destruct (gcounter_fold pair_eqb (bigrams z) [] (Forall_nil _)) as [Hpos Hsum].
    simpl in Hsum. rewrite bigrams_length in Hsum.
    pose proof (length_le_sumn_pos _ Hpos) as Hlen. rewrite length_map in Hlen.
    set (cs := fold_left (gcounter_add pair_eqb) (bigrams z) []) in *.
    pose proof (filter_length_le (fun v => Nat.eqb v 1) (map snd cs)) as Hf.
    rewrite length_map in Hf.
    destruct (count_ratio_unit (length (filter (fun v => Nat.eqb v 1) (map snd cs)))
                (length z - 1)) as [H0 H1]; [lia | lia |].
    set (r := natQ (length (filter (fun v => Nat.eqb v 1) (map snd cs)))
                / natQ (length z - 1)) in *.
    split; lra.
Qed.

(** *** [autocorr_lag1] *)

Lemma sq_nonneg_Q (x : Q) : 0 <= x * x.
Proof.
  destruct (Qlt_le_dec x 0) as [H|H].
  - setoid_replace (x * x) with ((- x) * (- x)) by ring.
    apply Qmult_le_0_compat; lra.
  - apply Qmult_le_0_compat; lra.
Qed.

Lemma Qsum_cons (a : Q) (l : list Q) :
  Transitions.Qsum (a :: l) = a + Transitions.Qsum l.
Proof. reflexivity. Qed.

Lemma Qpow2 (x : Q) : x ^ 2 = x * x.
Proof. reflexivity. Qed.

Lemma lag1_terms_cons2 (m : Q) (x y : Z) (rest : list Z) :
  lag1_terms m (x :: y :: rest) =
  (inject_Z y - m) * (inject_Z x - m) :: lag1_terms m (y :: rest).
Proof. reflexivity. Qed.

(** Twice the lag-1 sum, plus the square of the first deviation, is at
    most twice the sum of squares, for either sign of the lag-1 sum. *)
Lemma lag1_bound (m : Q) (rest : list Z) : forall x,
  2 * Transitions.Qsum (lag1_terms m (x :: rest)) + (inject_Z x - m) * (inject_Z x - m)
    <= 2 * Transitions.Qsum (map (fun v => (inject_Z v - m) ^ 2) (x :: rest)) /\
  - (2 * Transitions.Qsum (lag1_terms m (x :: rest))) + (inject_Z x - m) * (inject_Z x - m)
    <= 2 * Transitions.Qsum (map (fun v => (inject_Z v - m) ^ 2) (x :: rest)).
Proof.
  induction rest as [|y rest IH]; intro x.
  - cbn [lag1_terms map]. rewrite !Qsum_cons, Qpow2.
    pose proof (sq_nonneg_Q (inject_Z x - m)).
    change (Transitions.Qsum []) with 0. split; lra.
  - specialize (IH y). rewrite lag1_terms_cons2. cbn [map] in IH |- *.
    rewrite !Qsum_cons in IH. rewrite !Qpow2 in IH.
    rewrite !Qsum_cons. rewrite !Qpow2.
    set (a := inject_Z x - m) in *. set (b := inject_Z y - m) in *.
    set (S := Transitions.Qsum (lag1_terms m (y :: rest))) in *.
    set (SS := Transitions.Qsum (map (fun v => (inject_Z v - m) ^ 2) rest)) in *.
    pose proof (sq_nonneg_Q (a - b)). pose proof (sq_nonneg_Q (a + b)).
    destruct IH as [IH1 IH2]. split; lra.
Qed.

(** X4: [autocorr_lag1] always lies in [-1, 1]: the lag-1 sum of the
    deviations from the mean is bounded in absolute value by their sum of
    squares, and a zero denominator (a constant sequence) gives 0.0. *)
Theorem autocorr_lag1_bounded (z : list Z) (base : nat) :
  -1 <= autocorr_lag1 z base <= 1.
Proof.
  unfold autocorr_lag1. destruct (Nat.ltb_spec (length z) 2) as [Hn|Hn].
  - split; compute; discriminate.
  - destruct z as [|x rest]; [simpl in Hn; lia|].
    set (m := mean_Z (x :: rest)).
    destruct (lag1_bound m rest x) as [H1 H2].
    set (S := Transitions.Qsum (lag1_terms m (x :: rest))) in *.
    set (SS := Transitions.Qsum (map (fun v => (inject_Z v - m) ^ 2) (x :: rest))) in *.
    pose proof (sq_nonneg_Q (inject_Z x - m)) as Ha.
    destruct (Qeq_bool SS 0) eqn:E; [split; compute; discriminate|].
    apply Qeq_bool_neq in E.
    assert (Hpos : 0 < SS).
    { destruct (Qle_lt_or_eq 0 SS) as [Hlt|Heq]; [lra | exact Hlt |].
      exfalso. apply E. symmetry. exact Heq. }
    split.
    + apply Qle_shift_div_l; [exact Hpos|]. lra.
    + apply Qle_shift_div_r; [exact Hpos|]. lra.
Qed.

(** *** [adjacent_diff_stats] *)

Lemma abs_diffs_length (z : list Z) : length (abs_diffs z) = (length z - 1)%nat.
Proof.
  induction z as [|a z IH]; [reflexivity|].
  destruct z as [|b rest]; [reflexivity|].
  change (abs_diffs (a :: b :: rest)) with (Z.abs_nat (b - a) :: abs_diffs (b :: rest)).
  simpl length in *. lia.
Qed.

Lemma abs_diffs_le (z : list Z) (base : nat) :
  Forall (fun x => (0 <= x < Z.of_nat base)%Z) z ->
  Forall (fun d => (d <= base - 1)%nat) (abs_diffs z).
Proof.
  induction z as [|a z IH]; intro H; [constructor|].
  destruct z as [|b rest]; [constructor|].
  inversion H as [|? ? Ha Hr]; subst. inversion Hr as [|? ? Hb _]; subst.
  change (abs_diffs (a :: b :: rest)) with (Z.abs_nat (b - a) :: abs_diffs (b :: rest)).
  constructor; [lia | exact (IH Hr)].
Qed.

Lemma abs_diffs_zero_const (z : list Z) :
  (forall d, In d (abs_diffs z) -> d = 0%nat) <->
  (forall x y, In x z -> In y z -> x = y).
Proof.
  induction z as [|a z IH]; [split; [intros _ x y [] | intros _ d []]|].
  destruct z as [|b rest].
  - split; [intros _ x y [<-|[]] [<-|[]]; reflexivity | intros _ d []].
  - change (abs_diffs (a :: b :: rest)) with (Z.abs_nat (b - a) :: abs_diffs (b :: rest)).
    split.
    + intros H. assert (Hab : Z.abs_nat (b - a) = 0%nat) by (apply H; left; reflexivity).
      assert (Hrest : forall x y, In x (b :: rest) -> In y (b :: rest) -> x = y)
        by (apply IH; intros d Hd; apply H; right; exact Hd).
      assert (Hba : b = a) by lia.
      intros x y Hx Hy.
      assert (Hx' : In x (b :: rest)) by (destruct Hx as [<-|Hx]; [rewrite <- Hba; left; reflexivity | exact Hx]).
      assert (Hy' : In y (b :: rest)) by (destruct Hy as [<-|Hy]; [rewrite <- Hba; left; reflexivity | exact Hy]).
      exact (Hrest x y Hx' Hy').
    + intros H d [<-|Hd].
      * rewrite (H b a); [lia | right; left; reflexivity | left; reflexivity].
      * apply (proj2 IH); [|exact Hd]. intros x y Hx Hy. apply H; right; assumption.
Qed.

Lemma sumn_cons (a : nat) (l : list nat) : sumn (a :: l) = (a + sumn l)%nat.
Proof. reflexivity. Qed.

Lemma sumn_zero_iff (l : list nat) : sumn l = 0%nat <-> (forall d, In d l -> d = 0%nat).
Proof.
  induction l as [|x l IH]; simpl; [split; [intros _ d []|reflexivity]|].
  split.
  - intros H d [<-|Hd]; [lia|]. apply (proj1 IH); [lia|exact Hd].
  - intros H. rewrite (H x (or_introl eq_refl)). apply IH. intros d Hd. apply H. right. exact Hd.
Qed.

Lemma sumn_le_bound (c : nat) (l : list nat) :
  Forall (fun k => (k <= c)%nat) l -> (sumn l <= length l * c)%nat.
Proof. induction 1; simpl; lia. Qed.

Lemma mean_nat_le (c : nat) (l : list nat) :
  l <> [] -> Forall (fun k => (k <= c)%nat) l ->
  mean_nat l <= inject_Z (Z.of_nat c).
Proof.
  intros Hne Hall. pose proof (sumn_le_bound c l Hall) as Hs.
  assert (Hl : (0 < length l)%nat) by (destruct l; [congruence | simpl; lia]).
  unfold mean_nat. apply Qle_shift_div_r.
  - change 0 with (inject_Z 0). rewrite <- Zlt_Qlt. lia.
  - rewrite <- inject_Z_mult, <- Zle_Qle. lia.
Qed.

Lemma mean_nat_nonneg (l : list nat) : 0 <= mean_nat l.
Proof.
  unfold mean_nat. destruct (length l) eqn:E.
  - simpl. unfold Qdiv. rewrite Qmult_comm. simpl. apply Qle_refl.
  - apply Qle_shift_div_l.
    + change 0 with (inject_Z 0). rewrite <- Zlt_Qlt. lia.
    + rewrite Qmult_0_l. change 0 with (inject_Z 0). rewrite <- Zle_Qle. lia.
Qed.

Lemma mean_nat_zero_iff (l : list nat) :
  l <> [] -> (mean_nat l == 0 <-> sumn l = 0%nat).
Proof.
  intro Hne. assert (Hl : (0 < length l)%nat) by (destruct l; [congruence | simpl; lia]).
  unfold mean_nat. split.
  - intro H. apply Qeq_bool_iff in H. destruct (sumn l) eqn:Es; [reflexivity|].
    exfalso. apply Qeq_bool_iff in H.
    assert (Hp : 0 < inject_Z (Z.of_nat (S n)) / inject_Z (Z.of_nat (length l))).
    { apply Qlt_shift_div_l.
      - change 0 with (inject_Z 0). rewrite <- Zlt_Qlt. lia.
      - rewrite Qmult_0_l. change 0 with (inject_Z 0). rewrite <- Zlt_Qlt. lia. }
    rewrite H in Hp. discriminate.
  - intro H. rewrite H. unfold Qdiv. simpl. reflexivity.
Qed.

(** X5: for a sequence of at least two symbols of [[0, base)],
    [adjacent_diff_mean] lies in [[0, base - 1]], and it is 0 exactly when
    the sequence is constant. *)
Theorem adjacent_diff_mean_range (z : list Z) (base : nat) :
  (2 <= length z)%nat -> Forall (fun x => (0 <= x < Z.of_nat base)%Z) z ->
  (0 <= adjacent_diff_mean (adjacent_diff_stats z base) <= natQ (base - 1)) /\
  (adjacent_diff_mean (adjacent_diff_stats z base) == 0 <->
   forall x y, In x z -> In y z -> x = y).
Proof.
  intros Hlen Hrange. unfold adjacent_diff_stats.
  destruct (Nat.ltb_spec (length z) 2) as [Hn|_]; [lia|]. simpl adjacent_diff_mean.
  assert (Hne : abs_diffs z <> []).
  { intro E. pose proof (abs_diffs_length z) as L. rewrite E in L. simpl in L. lia. }
  split; [split|].
  - apply mean_nat_nonneg.
  - apply mean_nat_le; [exact Hne | exact (abs_diffs_le z base Hrange)].
  - rewrite (mean_nat_zero_iff _ Hne), sumn_zero_iff. apply abs_diffs_zero_const.
Qed.

Lemma adjacent_diff_mean_range_witness :
  (2 <= length [0; 3; 1]%Z)%nat /\ Forall (fun x => (0 <= x < Z.of_nat 4)%Z) [0; 3; 1]%Z /\
  (0 <= adjacent_diff_mean (adjacent_diff_stats [0; 3; 1]%Z 4) <= natQ (4 - 1)) /\
  (adjacent_diff_mean (adjacent_diff_stats [0; 3; 1]%Z 4) == 0 <->
   forall x y, In x [0; 3; 1]%Z -> In y [0; 3; 1]%Z -> x = y).
Proof.
  assert (H1 : (2 <= length [0; 3; 1]%Z)%nat) by (simpl; lia).
  assert (H2 : Forall (fun x => (0 <= x < Z.of_nat 4)%Z) [0; 3; 1]%Z)
    by (repeat constructor; lia).
  split; [exact H1|]. split; [exact H2|].
  exact (adjacent_diff_mean_range [0; 3; 1]%Z 4 H1 H2).
Defined.

(** *** [max_min_ratio] *)

Lemma fold_max_ge (l : list nat) : forall a, (a <= fold_left Nat.max l a)%nat.
Proof. induction l as [|x l IH]; intro a; simpl; [lia|]. specialize (IH (Nat.max a x)). lia. Qed.

Lemma fold_max_le (l : list nat) (c : nat) : forall a,
  (a <= c)%nat -> Forall (fun x => (x <= c)%nat) l -> (fold_left Nat.max l a <= c)%nat.
Proof.
  induction l as [|x l IH]; intros a Ha Hl; simpl; [exact Ha|].
  inversion Hl; subst. apply IH; [lia | assumption].
Qed.

Lemma fold_min_le (l : list nat) : forall a, (fold_left Nat.min l a <= a)%nat.
Proof. induction l as [|x l IH]; intro a; simpl; [lia|]. specialize (IH (Nat.min a x)). lia. Qed.

Lemma fold_min_ge (l : list nat) (c : nat) : forall a,
  (c <= a)%nat -> Forall (fun x => (c <= x)%nat) l -> (c <= fold_left Nat.min l a)%nat.
Proof.
  induction l as [|x l IH]; intros a Ha Hl; simpl; [exact Ha|].
  inversion Hl; subst. apply IH; [lia | assumption].
Qed.

(** X6: [max_min_ratio] never takes its [float('inf')] branch: a [Counter]
    only holds counts of at least 1. It returns 0.0 for an empty sequence
    and otherwise a finite ratio between 1 and [len(z)]. *)
Theorem max_min_ratio_finite (z : list Z) (base : nat) :
  (z = [] -> max_min_ratio z base = Transitions.Fin 0) /\
  (z <> [] -> exists q, max_min_ratio z base = Transitions.Fin q /\
                        1 <= q <= natQ (length z)).
Proof.
  split; [intros ->; reflexivity|]. intro Hne.
  destruct (RedundancyFacts.counter_fold z [] (NoDup_nil _) (Forall_nil _))
    as [_ [Hpos [Hsum _]]].
  simpl in Hsum. unfold max_min_ratio. fold (counter z) in Hpos, Hsum.
  destruct (counter z) as [|[k c0] cs] eqn:Ec.
  { simpl in Hsum. destruct z; [congruence | simpl in Hsum; lia]. }
  simpl map in *. unfold list_max, list_min. simpl tl. simpl hd.
  inversion Hpos as [|? ? Hc0 Hcs]; subst.
  set (vals := map snd cs) in *.
  assert (Hle : Forall (fun x => (x <= length z)%nat) vals).
  { apply Forall_forall. intros x Hx. rewrite <- Hsum.
    apply RedundancyFacts.in_le_sumn. right. exact Hx. }
  assert (Hc0le : (c0 <= length z)%nat) by (rewrite <- Hsum; simpl; lia).
  pose proof (fold_min_ge vals 1 c0 Hc0 (Forall_impl _ (fun x (H : (0 < x)%nat) => H) Hcs)) as Hmin1.
  pose proof (fold_min_le vals c0) as Hmin2.
  pose proof (fold_max_ge vals c0) as Hmax1.
  pose proof (fold_max_le vals (length z) c0 Hc0le Hle) as Hmax2.
  set (mn := fold_left Nat.min vals c0) in *. set (mx := fold_left Nat.max vals c0) in *.
  destruct (Nat.ltb_spec 0 mn) as [Hmn|Hmn]; [|lia].
  eexists. split; [reflexivity|].
  pose proof (sm_natQ_pos mn Hmn) as Hq. split.
  - apply Qle_shift_div_l; [exact Hq|]. rewrite Qmult_1_l. apply sm_natQ_le. lia.
  - apply Qle_shift_div_r; [exact Hq|].
    unfold natQ. rewrite <- inject_Z_mult, <- Zle_Qle. nia.
Qed.

(** *** [digit_frequencies] *)

Lemma counter_get_add (c : list (Z * nat)) (x y : Z) :
  counter_get (counter_add c x) y = (counter_get c y + if Z.eqb x y then 1 else 0)%nat.
Proof.
  induction c as [|[k v] c IH]; simpl.
  - destruct (Z.eqb x y); reflexivity.
  - destruct (Z.eqb_spec k x) as [->|Hkx]; simpl.
    + destruct (Z.eqb x y); lia.
    + rewrite IH. destruct (Z.eqb_spec k y) as [->|Hky]; [|reflexivity].
      destruct (Z.eqb_spec x y); [congruence | lia].
Qed.

Lemma counter_get_fold (z : list Z) : forall c y,
  counter_get (fold_left counter_add z c) y = (counter_get c y + count_occ Z.eq_dec z y)%nat.
Proof.
  induction z as [|x z IH]; intros c y; simpl; [lia|].
  rewrite IH, counter_get_add. destruct (Z.eq_dec x y) as [->|Hxy].
  - rewrite Z.eqb_refl. lia.
  - apply Z.eqb_neq in Hxy. rewrite Hxy. lia.
Qed.

(** [Counter(z).get(y, 0)] is the number of occurrences of [y]. *)
Lemma counter_get_count (z : list Z) (y : Z) :
  counter_get (counter z) y = count_occ Z.eq_dec z y.
Proof. unfold counter. rewrite counter_get_fold. reflexivity. Qed.

Lemma str_nat_inj (a b : nat) : str_nat a = str_nat b -> a = b.
Proof.
  unfold str_nat. intro H.
  apply (f_equal DecimalString.NilEmpty.uint_of_string) in H.
  rewrite !DecimalString.NilEmpty.usu in H. injection H as H.
  rewrite <- (DecimalNat.Unsigned.of_to a), <- (DecimalNat.Unsigned.of_to b), H.
  reflexivity.
Qed.

Lemma get_map_seq {V : Type} (key : nat -> string) (val : nat -> V) (len : nat) :
  (forall a b, key a = key b -> a = b) -> forall s i, (s <= i < s + len)%nat ->
  PyDict.get (map (fun k => (key k, val k)) (seq s len)) (key i) = Some (val i).
Proof.
  intro Hinj. induction len as [|len IH]; intros s i Hi; [lia|].
  simpl. destruct (String.eqb_spec (key i) (key s)) as [E|E].
  - apply Hinj in E. subst. reflexivity.
  - apply IH. assert (i <> s) by (intro; subst; contradiction). lia.
Qed.

(** X7: for every [i] in [range(base)], [digit_frequencies] maps
    ['freq_<i>'] to the share of [i] among the symbols of [z] (0.0 for an
    empty sequence). *)
Theorem digit_frequencies_lookup (z : list Z) (base i : nat) :
  (i < base)%nat ->
  PyDict.get (digit_frequencies z base) ("freq_" ++ str_nat i)%string =
  Some (if Nat.ltb 0 (length z)
        then natQ (count_occ Z.eq_dec z (Z.of_nat i)) / natQ (length z) else 0).
Proof.
  intro Hi. unfold digit_frequencies.
  rewrite (get_map_seq (fun k => ("freq_" ++ str_nat k)%string)
             (fun k => if Nat.ltb 0 (length z)
                       then natQ (counter_get (counter z) (Z.of_nat k)) / natQ (length z)
                       else 0) base).
  - rewrite counter_get_count. reflexivity.
  - intros a b H. simpl in H. injection H as H. apply str_nat_inj. exact H.
  - lia.
Qed.

Lemma digit_frequencies_lookup_witness :
  (2 < 10)%nat /\
  PyDict.get (digit_frequencies [1; 2; 2]%Z 10) ("freq_" ++ str_nat 2)%string =
  Some (if Nat.ltb 0 (length [1; 2; 2]%Z)
        then natQ (count_occ Z.eq_dec [1; 2; 2]%Z (Z.of_nat 2)) / natQ (length [1; 2; 2]%Z)
        else 0).
Proof.
  assert (H : (2 < 10)%nat) by lia.
  split; [exact H | exact (digit_frequencies_lookup [1; 2; 2]%Z 10 2 H)].
Defined.

Lemma Qsum_map_div (f : nat -> nat) (d : Q) (l : list nat) :
  Transitions.Qsum (map (fun i => natQ (f i) / d) l) == natQ (sumn (map f l)) / d.
Proof.
  induction l as [|x l IH]; simpl.
  - unfold Qdiv. rewrite Qmult_0_l. reflexivity.
  - unfold Transitions.Qsum in IH |- *. simpl. rewrite IH.
    unfold natQ. rewrite Nat2Z.inj_add, inject_Z_plus. unfold Qdiv. ring.
Qed.

Lemma indicator_sum (x : Z) (len : nat) : forall s,
  sumn (map (fun i => if Z.eq_dec x (Z.of_nat i) then 1%nat else 0%nat) (seq s len)) =
  (if (Z.of_nat s <=? x)%Z && (x <? Z.of_nat (s + len))%Z then 1 else 0)%nat.
Proof.
  induction len as [|len IH]; intro s; simpl.
  - destruct (Z.of_nat s <=? x)%Z eqn:E1; destruct (x <? Z.of_nat (s + 0))%Z eqn:E2;
      simpl; try reflexivity.
    apply Z.leb_le in E1. apply Z.ltb_lt in E2. lia.
  - rewrite IH. destruct (Z.eq_dec x (Z.of_nat s)) as [->|Hne].
    + replace ((Z.of_nat (S s) <=? Z.of_nat s)%Z) with false by (symmetry; apply Z.leb_gt; lia).
      replace ((Z.of_nat s <=? Z.of_nat s)%Z) with true by (symmetry; apply Z.leb_le; lia).
      replace ((Z.of_nat s <? Z.of_nat (s + S len))%Z) with true by (symmetry; apply Z.ltb_lt; lia).
      reflexivity.
    + replace (S s + len)%nat with (s + S len)%nat by lia.
      destruct (Z.of_nat (S s) <=? x)%Z eqn:E1; destruct (Z.of_nat s <=? x)%Z eqn:E2;
        simpl; try reflexivity;
        apply Z.leb_le in E1 || apply Z.leb_gt in E1;
        apply Z.leb_le in E2 || apply Z.leb_gt in E2; lia.
Qed.

Lemma count_sum_in_range (z : list Z) (base : nat) :
  Forall (fun x => (0 <= x < Z.of_nat base)%Z) z ->
  sumn (map (fun i => count_occ Z.eq_dec z (Z.of_nat i)) (seq 0 base)) = length z.
Proof.
  induction z as [|x z IH]; intro H.
  - simpl. induction (seq 0 base); simpl; [reflexivity | exact IHl].
  - inversion H as [|? ? Hx Hz]; subst.
    transitivity (sumn (map (fun i => count_occ Z.eq_dec z (Z.of_nat i)) (seq 0 base)) +
                  sumn (map (fun i => if Z.eq_dec x (Z.of_nat i) then 1%nat else 0%nat)
                          (seq 0 base)))%nat.
    + clear. induction (seq 0 base) as [|i l IHl]; [reflexivity|]. cbn [map].
      rewrite !sumn_cons, IHl. cbn [count_occ]. destruct (Z.eq_dec x (Z.of_nat i)); lia.
    + rewrite (IH Hz), indicator_sum.
      replace ((Z.of_nat 0 <=? x)%Z && (x <? Z.of_nat (0 + base))%Z) with true.
      * simpl. lia.
      * symmetry. apply andb_true_iff. split; [apply Z.leb_le | apply Z.ltb_lt]; lia.
Qed.

(** X8: when [z] is non-empty and every symbol lies in [[0, base)], the
    values of [digit_frequencies] sum to 1 (in exact arithmetic). *)
Theorem digit_frequencies_sum_one (z : list Z) (base : nat) :
  z <> [] -> Forall (fun x => (0 <= x < Z.of_nat base)%Z) z ->
  Transitions.Qsum (map snd (digit_frequencies z base)) == 1.
Proof.
  intros Hne Hr. unfold digit_frequencies. rewrite map_map. simpl.
  destruct (Nat.ltb_spec 0 (length z)) as [Hl|Hl];
    [|destruct z; [congruence | simpl in Hl; lia]].
  rewrite (map_ext _ (fun i => natQ (count_occ Z.eq_dec z (Z.of_nat i)) / natQ (length z)))
    by (intro i; rewrite counter_get_count; reflexivity).
  rewrite (Qsum_map_div (fun i => count_occ Z.eq_dec z (Z.of_nat i))).
  rewrite count_sum_in_range by exact Hr.
  unfold Qdiv. apply Qmult_inv_r. pose proof (sm_natQ_pos _ Hl) as Hp.
  intro E. rewrite E in Hp. discriminate.
Qed.

Lemma digit_frequencies_sum_one_witness :
  [1; 0; 1]%Z <> [] /\ Forall (fun x => (0 <= x < Z.of_nat 2)%Z) [1; 0; 1]%Z /\
  Transitions.Qsum (map snd (digit_frequencies [1; 0; 1]%Z 2)) == 1.
Proof.
  assert (H1 : [1; 0; 1]%Z <> []) by discriminate.
  assert (H2 : Forall (fun x => (0 <= x < Z.of_nat 2)%Z) [1; 0; 1]%Z)
    by (repeat constructor; lia).
  split; [exact H1|]. split; [exact H2|].
  exact (digit_frequencies_sum_one [1; 0; 1]%Z 2 H1 H2).
Defined.


(** *** [repetition_gap] *)

Lemma index_gaps_cons2 (a b : nat) (rest : list nat) :
  index_gaps (a :: b :: rest) = (b - a)%nat :: index_gaps (b :: rest).
Proof. reflexivity. Qed.

Lemma index_gaps_length (l : list nat) : length (index_gaps l) = (length l - 1)%nat.
Proof.
  induction l as [|a l IH]; [reflexivity|].
  destruct l as [|b rest]; [reflexivity|].
  rewrite index_gaps_cons2. simpl length in *. lia.
Qed.

Lemma index_gaps_snoc (l : list nat) (x : nat) :
  l <> [] -> index_gaps (l ++ [x]) = index_gaps l ++ [(x - last l 0)%nat].
Proof.
  induction l as [|a l IH]; intro Hne; [congruence|].
  destruct l as [|b rest]; [reflexivity|].
  change ((a :: b :: rest) ++ [x]) with (a :: b :: (rest ++ [x])).
  rewrite !index_gaps_cons2. rewrite <- app_comm_cons.
  change (b :: rest ++ [x]) with ((b :: rest) ++ [x]).
  rewrite IH by discriminate. reflexivity.
Qed.

Lemma last_in (l : list nat) : l <> [] -> In (last l 0%nat) l.
Proof.
  induction l as [|a l IH]; intro Hne; [congruence|].
  destruct l as [|b rest]; [left; reflexivity|].
  right. apply IH. discriminate.
Qed.

(** The invariant of one list of positions after reading [idx] symbols:
    every position is below [idx] and every gap lies in [[1, idx)]. *)
Definition pos_inv (idx : nat) (l : list nat) : Prop :=
  Forall (fun p => (p < idx)%nat) l /\
  Forall (fun g => (1 <= g < idx)%nat) (index_gaps l).

Lemma pos_inv_mono (idx : nat) (l : list nat) : pos_inv idx l -> pos_inv (S idx) l.
Proof.
  intros [H1 H2]. split; eapply Forall_impl; try eassumption; simpl; intros; lia.
Qed.

Lemma pos_inv_snoc (idx : nat) (l : list nat) : pos_inv idx l -> pos_inv (S idx) (l ++ [idx]).
Proof.
  intros [H1 H2]. split.
  - apply Forall_app. split; [eapply Forall_impl; [|exact H1]; simpl; intros; lia|].
    constructor; [lia | constructor].
  - destruct l as [|a l]; [constructor|].
    rewrite index_gaps_snoc by discriminate. apply Forall_app. split.
    + eapply Forall_impl; [|exact H2]; simpl; intros; lia.
    + constructor; [|constructor].
      pose proof (proj1 (Forall_forall _ _) H1 _ (last_in (a :: l) ltac:(discriminate))).
      simpl in *. lia.
Qed.

Lemma positions_loop_inv (base : nat) (z : list Z) : forall idx pos,
  length pos = base ->
  (forall v, (v < base)%nat -> pos_inv idx (nth v pos [])) ->
  length (positions_loop base z idx pos) = base /\
  (forall v, (v < base)%nat ->
     pos_inv (idx + length z) (nth v (positions_loop base z idx pos) []) /\
     length (nth v (positions_loop base z idx pos) []) =
       (length (nth v pos []) + count_occ Z.eq_dec z (Z.of_nat v))%nat).
Proof.
  induction z as [|x z IH]; intros idx pos Hlen Hinv.
  - simpl. split; [exact Hlen|]. intros v Hv. rewrite Nat.add_0_r.
    split; [apply Hinv; exact Hv | lia].
  - cbn [positions_loop].
    set (pos' := if (0 <=? x)%Z && (x <? Z.of_nat base)%Z
                 then list_set pos (Z.to_nat x) (nth (Z.to_nat x) pos [] ++ [idx])
                 else pos).
    assert (Hlen' : length pos' = base).
    { unfold pos'. destruct (_ && _); [rewrite ListSetFacts.length_list_set|]; exact Hlen. }
    assert (Hnth : forall v, (v < base)%nat ->
              nth v pos' [] = if Z.eq_dec x (Z.of_nat v)
                              then nth v pos [] ++ [idx] else nth v pos []).
    { intros v Hv. unfold pos'. destruct (Z.eq_dec x (Z.of_nat v)) as [->|Hne].
      - replace ((0 <=? Z.of_nat v)%Z && (Z.of_nat v <? Z.of_nat base)%Z) with true
          by (symmetry; apply andb_true_iff; split; [apply Z.leb_le | apply Z.ltb_lt]; lia).
        rewrite Nat2Z.id. apply ListSetFacts.nth_list_set_eq. lia.
      - destruct (_ && _) eqn:E; [|reflexivity].
        apply andb_true_iff in E. destruct E as [E1 E2].
        apply Z.leb_le in E1. apply Z.ltb_lt in E2.
        apply ListSetFacts.nth_list_set_neq. intro Heq. subst v.
        rewrite Z2Nat.id in Hne by lia. contradiction. }
    assert (Hinv' : forall v, (v < base)%nat -> pos_inv (S idx) (nth v pos' [])).
    { intros v Hv. rewrite (Hnth v Hv). destruct (Z.eq_dec x (Z.of_nat v)).
      - apply pos_inv_snoc. apply Hinv. exact Hv.
      - apply pos_inv_mono. apply Hinv. exact Hv. }
    destruct (IH (S idx) pos' Hlen' Hinv') as [HL HV].
    split; [exact HL|]. intros v Hv. destruct (HV v Hv) as [HV1 HV2].
    split.
    + replace (idx + length (x :: z))%nat with (S idx + length z)%nat by (simpl; lia).
      exact HV1.
    + rewrite HV2, (Hnth v Hv). cbn [count_occ].
      destruct (Z.eq_dec x (Z.of_nat v)); [rewrite length_app; simpl|]; lia.
Qed.

Lemma nth_repeat_nil (base v : nat) : nth v (repeat (@nil nat) base) [] = [].
Proof.
  revert v. induction base as [|b IH]; intros [|v]; simpl; try reflexivity. apply IH.
Qed.

Lemma In_nth_length {A : Type} (l : list A) (x d : A) :
  In x l -> exists v, (v < length l)%nat /\ nth v l d = x.
Proof.
  intro H. destruct (In_nth l x d H) as [v [Hv Hx]]. exists v. split; assumption.
Qed.

(** X9: the mean gap of [repetition_gap] is 0.0 exactly when no symbol of
    [range(base)] occurs twice in [z]; every recorded gap lies in
    [[1, len(z) - 1]], so the mean lies in [[0, len(z) - 1]]. *)
Theorem repetition_gap_mean_range (z : list Z) (base : nat) :
  (0 <= gap_mean (repetition_gap z base) <= natQ (length z - 1)) /\
  (gap_mean (repetition_gap z base) == 0 <->
   forall v, (v < base)%nat -> (count_occ Z.eq_dec z (Z.of_nat v) <= 1)%nat).
Proof.
  destruct (positions_loop_inv base z 0 (repeat [] base) (repeat_length _ _))
    as [HL HV].
  { intros v _. rewrite nth_repeat_nil. split; constructor. }
  unfold repetition_gap.
  set (positions := positions_loop base z 0 (repeat [] base)) in *.
  assert (Hgaps : Forall (fun g => (1 <= g <= length z - 1)%nat)
                         (flat_map index_gaps positions)).
  { apply Forall_forall. intros g Hg. apply in_flat_map in Hg. destruct Hg as [l [Hl Hg]].
    destruct (In_nth_length positions l [] Hl) as [v [Hv <-]]. rewrite HL in Hv.
    destruct (HV v Hv) as [[_ Hgs] _]. apply (proj1 (Forall_forall _ _) Hgs) in Hg.
    simpl in Hg. lia. }
  assert (Hempty : flat_map index_gaps positions = [] <->
                   forall v, (v < base)%nat -> (count_occ Z.eq_dec z (Z.of_nat v) <= 1)%nat).
  { split.
    - intros E v Hv. destruct (HV v Hv) as [_ Hc]. rewrite nth_repeat_nil in Hc.
      simpl in Hc. pose proof (index_gaps_length (nth v positions [])) as Hg.
      assert (Hnil : index_gaps (nth v positions []) = []).
      { destruct (index_gaps (nth v positions [])) as [|g gs] eqn:Eg; [reflexivity|].
        exfalso. assert (Hin : In g (flat_map index_gaps positions)).
        { apply in_flat_map. exists (nth v positions []). split.
          - apply nth_In. lia.
          - rewrite Eg. left. reflexivity. }
        rewrite E in Hin. destruct Hin. }
      rewrite Hnil in Hg. simpl in Hg. lia.
    - intros Hc. destruct (flat_map index_gaps positions) as [|g gs] eqn:E; [reflexivity|].
      exfalso. assert (Hin : In g (flat_map index_gaps positions)) by (rewrite E; left; reflexivity).
      apply in_flat_map in Hin. destruct Hin as [l [Hl Hg]].
      destruct (In_nth_length positions l [] Hl) as [v [Hv <-]]. rewrite HL in Hv.
      destruct (HV v Hv) as [_ Hlen]. rewrite nth_repeat_nil in Hlen. simpl in Hlen.
      pose proof (index_gaps_length (nth v positions [])) as Hg'.
      destruct (index_gaps (nth v positions [])); [destruct Hg|].
      simpl in Hg'. specialize (Hc v Hv). lia. }
  destruct (flat_map index_gaps positions) as [|g gs] eqn:E.
  - simpl gap_mean. split; [split; [apply Qle_refl | apply sm_natQ_nonneg]|].
    split; [intros _; apply Hempty; reflexivity | intros _; reflexivity].
  - assert (Hne : g :: gs <> []) by discriminate.
    assert (Hge : 1 <= mean_nat (g :: gs)).
    { apply (MetricFacts.mean_nat_ge 1). exact Hne.
      eapply Forall_impl; [|exact Hgaps]. simpl. intros; lia. }
    assert (Hle : mean_nat (g :: gs) <= natQ (length z - 1)).
    { apply (mean_nat_le (length z - 1)). exact Hne.
      eapply Forall_impl; [|exact Hgaps]. simpl. intros; lia. }
    assert (Hm : gap_mean (match g :: gs with
                           | [] => mkGap 0 0%R
                           | [_] => mkGap (mean_nat (g :: gs)) 0%R
                           | _ => mkGap (mean_nat (g :: gs)) (stdev_nat (g :: gs))
                           end) = mean_nat (g :: gs)) by (destruct gs; reflexivity).
    rewrite Hm. split; [split; lra|].
    split.
    + intro H0. lra.
    + intro Hc. apply Hempty in Hc. discriminate.
Qed.

(** *** [coupon] *)

Lemma coupon_inner_le (base : nat) (z : list Z) (i : nat) :
  forall fuel j tmp k, coupon_inner base z i j fuel tmp = Some k -> (k <= j + fuel)%nat.
Proof.
  induction fuel as [|f IH]; intros j tmp k H; simpl in H; [discriminate|].
  destruct (has_all base (tmp ++ [nth (i + j) z 0%Z])).
  - injection H as <-. lia.
  - apply IH in H. lia.
Qed.

Lemma coupon_res_le (z : list Z) (base : nat) :
  Forall (fun k => (k <= length z)%nat) (coupon_res z base).
Proof.
  apply Forall_forall. intros k Hk. unfold coupon_res in Hk.
  apply in_flat_map in Hk. destruct Hk as [i [_ Hk]].
  destruct (coupon_inner base z i 0 (length z - i) []) as [k'|] eqn:E; [|destruct Hk].
  destruct Hk as [<-|[]]. apply coupon_inner_le in E. lia.
Qed.

(** X10: the value [len(z) + 1] that [coupon] reports when no start
    position completes a full set can never be a real mean: every recorded
    completion length is at most [len(z)], so otherwise the mean is at most
    [len(z)]. *)
Theorem coupon_mean_sentinel (z : list Z) (base : nat) :
  Forall (fun k => (k <= length z)%nat) (coupon_res z base) /\
  (coupon_res z base = [] -> coupon_mean (coupon z base) == natQ (length z + 1)) /\
  (coupon_res z base <> [] -> coupon_mean (coupon z base) <= natQ (length z)).
Proof.
  pose proof (coupon_res_le z base) as Hle. split; [exact Hle|].
  unfold coupon. destruct (coupon_res z base) as [|k [|k' l]] eqn:E.
  - split; [intros _; reflexivity | intro H; congruence].
  - split; [discriminate|]. intros Hne. simpl coupon_mean.
    apply (mean_nat_le (length z)); assumption.
  - split; [discriminate|]. intros Hne. simpl coupon_mean.
    apply (mean_nat_le (length z)); assumption.
Qed.

End StatMetricsFacts.

Module TransitionMatrixFacts.
Import Transitions.
Local Open Scope Q_scope.

(** The pair read at loop index [k] is [(a, b)]. *)
Definition trans_hit (sequence : list Z) (step base a b k : nat) : bool :=
  match np_index base (nth k sequence 0%Z), np_index base (nth (k + step) sequence 0%Z) with
  | Some a', Some b' => Nat.eqb a' a && Nat.eqb b' b
  | _, _ => false
  end.

Definition entry (m : counts) (a b : nat) : nat := nth b (nth a m []) 0%nat.

Lemma np_index_lt (base : nat) (x : Z) (a : nat) : np_index base x = Some a -> (a < base)%nat.
Proof.
  unfold np_index. intro H.
  destruct ((0 <=? x)%Z && (x <? Z.of_nat base)%Z) eqn:E1.
  - injection H as <-. apply andb_true_iff in E1. destruct E1 as [E0 E1].
    apply Z.leb_le in E0. apply Z.ltb_lt in E1. lia.
  - destruct ((- Z.of_nat base <=? x)%Z && (x <? 0)%Z) eqn:E2; [|discriminate].
    injection H as <-. apply andb_true_iff in E2. destruct E2 as [E2 E3].
    apply Z.leb_le in E2. apply Z.ltb_lt in E3. lia.
Qed.

Lemma In_list_set {A : Type} (l : list A) (i : nat) (v r : A) :
  In r (list_set l i v) -> r = v \/ In r l.
Proof.
  revert i. induction l as [|h t IH]; intros [|i] H; simpl in H.
  - destruct H.
  - destruct H.
  - destruct H as [<-|H]; [left; reflexivity | right; right; exact H].
  - destruct H as [<-|H]; [right; left; reflexivity|].
    destruct (IH i H) as [E|E]; [left; exact E | right; right; exact E].
Qed.

Lemma incr_shape (m : counts) (base a b : nat) :
  length m = base -> Forall (fun r => length r = base) m -> (a < base)%nat ->
  length (incr m a b) = base /\ Forall (fun r => length r = base) (incr m a b).
Proof.
  intros Hl Hr Ha. unfold incr. split; [rewrite ListSetFacts.length_list_set; exact Hl|].
  apply Forall_forall. intros r Hin. apply In_list_set in Hin. destruct Hin as [->|Hin].
  - rewrite ListSetFacts.length_list_set.
    apply (proj1 (Forall_forall _ _) Hr). apply nth_In. lia.
  - exact (proj1 (Forall_forall _ _) Hr r Hin).
Qed.

Lemma incr_entry (m : counts) (base a0 b0 a b : nat) :
  length m = base -> Forall (fun r => length r = base) m ->
  (a0 < base)%nat -> (b0 < base)%nat -> (a < base)%nat -> (b < base)%nat ->
  entry (incr m a0 b0) a b =
  (entry m a b + if Nat.eqb a0 a && Nat.eqb b0 b then 1 else 0)%nat.
Proof.
  intros Hl Hr Ha0 Hb0 Ha Hb. unfold entry, incr.
  assert (Hrow : length (nth a0 m []) = base).
  { apply (proj1 (Forall_forall _ _) Hr). apply nth_In. lia. }
  destruct (Nat.eqb_spec a0 a) as [<-|Hne].
  - rewrite ListSetFacts.nth_list_set_eq by lia.
    destruct (Nat.eqb_spec b0 b) as [<-|Hne'].
    + rewrite ListSetFacts.nth_list_set_eq by lia. simpl. lia.
    + rewrite ListSetFacts.nth_list_set_neq by lia. simpl. lia.
  - rewrite ListSetFacts.nth_list_set_neq by lia. simpl. lia.
Qed.

Lemma filter_seq_S (f : nat -> bool) (i n : nat) :
  length (filter f (seq i (S n))) =
  ((if f i then 1 else 0) + length (filter f (seq (S i) n)))%nat.
Proof. simpl. destruct (f i); reflexivity. Qed.

Lemma count_loop_entries (sequence : list Z) (step base : nat) :
  forall fuel i m m',
  length m = base -> Forall (fun r => length r = base) m ->
  count_loop sequence step base i fuel m = Some m' ->
  length m' = base /\ Forall (fun r => length r = base) m' /\
  forall a b, (a < base)%nat -> (b < base)%nat ->
    entry m' a b = (entry m a b +
                    length (filter (trans_hit sequence step base a b) (seq i fuel)))%nat.
Proof.
  induction fuel as [|f IH]; intros i m m' Hl Hr H; simpl in H.
  - injection H as <-. split; [exact Hl|]. split; [exact Hr|]. intros. simpl. lia.
  - destruct (np_index base (nth i sequence 0%Z)) as [a0|] eqn:Ea; [|discriminate].
    destruct (np_index base (nth (i + step) sequence 0%Z)) as [b0|] eqn:Eb; [|discriminate].
    pose proof (np_index_lt _ _ _ Ea) as Ha0. pose proof (np_index_lt _ _ _ Eb) as Hb0.
    destruct (incr_shape m base a0 b0 Hl Hr Ha0) as [Hl' Hr'].
    destruct (IH (S i) _ _ Hl' Hr' H) as [HL [HR HE]].
    split; [exact HL|]. split; [exact HR|]. intros a b Ha Hb.
    rewrite HE by assumption. rewrite (incr_entry m base a0 b0 a b) by assumption.
    rewrite filter_seq_S. unfold trans_hit at 2. rewrite Ea, Eb. lia.
Qed.

Lemma count_loop_none (sequence : list Z) (step base : nat) :
  forall fuel i m,
  count_loop sequence step base i fuel m = None <->
  exists k, (i <= k < i + fuel)%nat /\
    (np_index base (nth k sequence 0%Z) = None \/
     np_index base (nth (k + step) sequence 0%Z) = None).
Proof.
  induction fuel as [|f IH]; intros i m; simpl.
  - split; [discriminate | intros [k [Hk _]]; lia].
  - destruct (np_index base (nth i sequence 0%Z)) as [a0|] eqn:Ea.
    + destruct (np_index base (nth (i + step) sequence 0%Z)) as [b0|] eqn:Eb.
      * rewrite IH. split.
        -- intros [k [Hk Hbad]]. exists k. split; [lia | exact Hbad].
        -- intros [k [Hk Hbad]]. exists k. split; [|exact Hbad].
           destruct (Nat.eq_dec k i) as [->|Hne]; [|lia].
           rewrite Ea, Eb in Hbad. destruct Hbad; discriminate.
      * split; [intros _; exists i; split; [lia | right; exact Eb] | reflexivity].
    + split; [intros _; exists i; split; [lia | left; exact Ea] | reflexivity].
Qed.

Lemma zeros_shape (base : nat) :
  length (zeros base) = base /\ Forall (fun r => length r = base) (zeros base).
Proof.
  unfold zeros. split; [apply repeat_length|].
  apply Forall_forall. intros r Hr. apply repeat_spec in Hr. subst. apply repeat_length.
Qed.

Lemma nth_repeat_cases {A : Type} (x d : A) (n : nat) : forall k,
  nth k (repeat x n) d = x \/ nth k (repeat x n) d = d.
Proof.
  induction n as [|n IH]; intros [|k]; simpl; auto.
Qed.

Lemma zeros_entry (base a b : nat) : entry (zeros base) a b = 0%nat.
Proof.
  unfold entry, zeros.
  destruct (nth_repeat_cases (repeat 0%nat base) [] base a) as [-> | ->].
  - destruct (nth_repeat_cases 0%nat 0%nat base b) as [-> | ->]; reflexivity.
  - destruct b; reflexivity.
Qed.

Lemma count_transitions_cells (sequence : list Z) (step base : nat) (m : counts) :
  count_transitions sequence step base = Some m ->
  length m = base /\ Forall (fun r => length r = base) m /\
  forall a b, (a < base)%nat -> (b < base)%nat ->
    nth b (nth a m []) 0%nat =
    length (filter (trans_hit sequence step base a b) (seq 0 (length sequence - step))).
Proof.
  intro H. destruct (zeros_shape base) as [Hl Hr].
  destruct (count_loop_entries sequence step base _ 0 _ m Hl Hr H) as [HL [HR HE]].
  split; [exact HL|]. split; [exact HR|]. intros a b Ha Hb.
  change (nth b (nth a m []) 0%nat) with (entry m a b).
  rewrite HE by assumption. rewrite zeros_entry. reflexivity.
Qed.

(** X11: when [count_transitions] returns, the matrix is [base x base] and
    cell [(a, b)] counts the loop indices [i < len(sequence) - step] whose
    symbol maps to row [a] and whose successor at distance [step] maps to
    column [b]. *)
Theorem count_transitions_entries (sequence : list Z) (step base : nat) (m : counts) :
  count_transitions sequence step base = Some m ->
  length m = base /\ Forall (fun r => length r = base) m /\
  forall a b, (a < base)%nat -> (b < base)%nat ->
    nth b (nth a m []) 0%nat =
    length (filter (trans_hit sequence step base a b) (seq 0 (length sequence - step))).
Proof. exact (count_transitions_cells sequence step base m). Qed.

Lemma count_transitions_entries_witness :
  count_transitions [0; 1; 0]%Z 1 2 = Some [[0; 1]; [1; 0]]%nat /\
  length [[0; 1]; [1; 0]]%nat = 2%nat /\
  Forall (fun r => length r = 2%nat) [[0; 1]; [1; 0]]%nat /\
  forall a b, (a < 2)%nat -> (b < 2)%nat ->
    nth b (nth a [[0; 1]; [1; 0]]%nat []) 0%nat =
    length (filter (trans_hit [0; 1; 0]%Z 1 2 a b) (seq 0 (length [0; 1; 0]%Z - 1))).
Proof.
  assert (H : count_transitions [0; 1; 0]%Z 1 2 = Some [[0; 1]; [1; 0]]%nat) by reflexivity.
  split; [exact H|].
  exact (count_transitions_entries [0; 1; 0]%Z 1 2 [[0; 1]; [1; 0]]%nat H).
Defined.

(** X12: [calculate_transition_matrix] raises [IndexError] exactly when a
    symbol it reads (at a loop index [i < len(sequence) - step], or at
    [i + step]) lies outside [[-base, base)]. *)
Theorem transition_matrix_index_error (sequence : list Z) (step base : nat)
    (buf : list (list f64)) :
  calculate_transition_matrix sequence step base buf = None <->
  exists k, (k < length sequence - step)%nat /\
    (np_index base (nth k sequence 0%Z) = None \/
     np_index base (nth (k + step) sequence 0%Z) = None).
Proof.
  unfold calculate_transition_matrix, count_transitions.
  split.
  - destruct (count_loop sequence step base 0 (length sequence - step) (zeros base))
      eqn:E; [discriminate|]. intros _.
    apply count_loop_none in E. destruct E as [k [Hk Hb]].
    exists k. split; [lia | exact Hb].
  - intros [k [Hk Hb]].
    assert (E : count_loop sequence step base 0 (length sequence - step) (zeros base) = None)
      by (apply count_loop_none; exists k; split; [lia | exact Hb]).
    rewrite E. reflexivity.
Qed.


(** numpy's negative indexing, [x -> x + base] for [x < 0]. *)
Lemma np_index_wrap (base : nat) (x : Z) :
  (- Z.of_nat base <= x)%Z ->
  np_index base x = np_index base (if (x <? 0)%Z then (x + Z.of_nat base)%Z else x).
Proof.
  intro H. unfold np_index. destruct (Z.ltb_spec x 0) as [Hx|Hx].
  - replace ((0 <=? x)%Z) with false by (symmetry; apply Z.leb_gt; lia).
    rewrite (proj2 (Z.leb_le _ _) H).
    destruct (Nat.eq_dec base 0) as [->|Hb]; [simpl in H; lia|].
    replace ((0 <=? x + Z.of_nat base)%Z && (x + Z.of_nat base <? Z.of_nat base)%Z)
      with true
      by (symmetry; apply andb_true_iff; split; [apply Z.leb_le | apply Z.ltb_lt]; lia).
    reflexivity.
  - rewrite (proj2 (Z.ltb_ge x 0) Hx). reflexivity.
Qed.

(** X13: a symbol [x] in [[-base, 0)] is counted as symbol [x + base]
    (numpy's negative indexing): the matrix of the sequence equals the
    matrix of the sequence with every negative symbol shifted by [base]. *)
Theorem transition_matrix_negative_wrap (sequence : list Z) (step base : nat)
    (buf : list (list f64)) :
  Forall (fun x => (- Z.of_nat base <= x)%Z) sequence ->
  calculate_transition_matrix sequence step base buf =
  calculate_transition_matrix
    (map (fun x => if (x <? 0)%Z then (x + Z.of_nat base)%Z else x) sequence)
    step base buf.
Proof.
  intro Hall. set (w := fun x => if (x <? 0)%Z then (x + Z.of_nat base)%Z else x).
  assert (Hn : forall k, nth k (map w sequence) 0%Z = w (nth k sequence 0%Z))
    by (intro k; exact (map_nth w sequence 0%Z k)).
  assert (Hk : forall k, np_index base (nth k (map w sequence) 0%Z) =
                         np_index base (nth k sequence 0%Z)).
  { intro k. rewrite Hn. symmetry. apply np_index_wrap.
    destruct (Nat.lt_ge_cases k (length sequence)) as [Hlt|Hge].
    - exact (proj1 (Forall_forall _ _) Hall _ (nth_In _ _ Hlt)).
    - rewrite nth_overflow by exact Hge. lia. }
  unfold calculate_transition_matrix, count_transitions. rewrite length_map.
  generalize (zeros base). generalize 0%nat.
  induction (length sequence - step)%nat as [|f IH]; intros i m; simpl; [reflexivity|].
  rewrite !Hk. destruct (np_index base (nth i sequence 0%Z)); [|reflexivity].
  destruct (np_index base (nth (i + step) sequence 0%Z)); [|reflexivity].
  apply IH.
Qed.

Lemma transition_matrix_negative_wrap_witness :
  Forall (fun x => (- Z.of_nat 2 <= x)%Z) [-1; 0; 1]%Z /\
  calculate_transition_matrix [-1; 0; 1]%Z 1 2 [[NaN; NaN]; [NaN; NaN]] =
  calculate_transition_matrix
    (map (fun x => if (x <? 0)%Z then (x + Z.of_nat 2)%Z else x) [-1; 0; 1]%Z)
    1 2 [[NaN; NaN]; [NaN; NaN]].
Proof.
  assert (H : Forall (fun x => (- Z.of_nat 2 <= x)%Z) [-1; 0; 1]%Z)
    by (repeat constructor; lia).
  split; [exact H|].
  exact (transition_matrix_negative_wrap [-1; 0; 1]%Z 1 2 [[NaN; NaN]; [NaN; NaN]] H).
Defined.

Lemma nth_prob_rows (m : counts) : forall buf i, (i < length m)%nat ->
  exists br, nth i (prob_rows m buf) [] = prob_row (nth i m []) br.
Proof.
  induction m as [|row m IH]; intros buf i Hi; simpl in Hi; [lia|].
  destruct i as [|i]; simpl.
  - exists (hd [] buf). reflexivity.
  - apply IH. lia.
Qed.

Lemma row_sum_ge_nth (row : list nat) (b : nat) : (nth b row 0 <= row_sum row)%nat.
Proof.
  revert b. induction row as [|c row IH]; intros [|b]; simpl; try lia.
  specialize (IH b). lia.
Qed.

(** X14: a row of the matrix whose symbol occurs at some loop index
    [p < len(sequence) - step] is a probability distribution: non-negative
    entries summing to 1, whatever the output buffer held. *)
Theorem transition_row_distribution (sequence : list Z) (step base : nat)
    (buf : list (list f64)) (P : list (list Q)) (p i : nat) :
  calculate_transition_matrix sequence step base buf = Some P ->
  (p + step < length sequence)%nat ->
  np_index base (nth p sequence 0%Z) = Some i ->
  Qsum (nth i P []) == 1 /\ Forall (fun q => 0 <= q) (nth i P []).
Proof.
  intros H Hp Hi. unfold calculate_transition_matrix in H.
  destruct (count_transitions sequence step base) as [m|] eqn:Em; [|discriminate].
  injection H as <-.
  destruct (np_index base (nth (p + step) sequence 0%Z)) as [b|] eqn:Eb.
  2:{ exfalso. unfold count_transitions in Em.
      assert (Hn : count_loop sequence step base 0 (length sequence - step) (zeros base) = None).
      { apply count_loop_none. exists p. split; [lia | right; exact Eb]. }
      congruence. }
  destruct (count_transitions_cells sequence step base m Em) as [HL [_ HE]].
  pose proof (np_index_lt _ _ _ Hi) as Hib. pose proof (np_index_lt _ _ _ Eb) as Hbb.
  assert (Hcell : (1 <= nth b (nth i m []) 0)%nat).
  { rewrite HE by assumption.
    assert (Hin : In p (filter (trans_hit sequence step base i b) (seq 0 (length sequence - step)))).
    { apply filter_In. split; [apply in_seq; lia|].
      unfold trans_hit. rewrite Hi, Eb, !Nat.eqb_refl. reflexivity. }
    destruct (filter _ _); [destruct Hin | simpl; lia]. }
  destruct (nth_prob_rows m buf i ltac:(lia)) as [br ->].
  apply TransitionFacts.prob_row_nonzero.
  pose proof (row_sum_ge_nth (nth i m []) b). lia.
Qed.

Lemma transition_row_distribution_witness :
  calculate_transition_matrix [0; 1; 0]%Z 1 2 [[NaN; NaN]; [NaN; NaN]]
    = Some [[0; 1]; [1; 0]] /\
  (0 + 1 < length [0; 1; 0]%Z)%nat /\
  np_index 2 (nth 0 [0; 1; 0]%Z 0%Z) = Some 0%nat /\
  Qsum (nth 0 [[0; 1]; [1; 0]] []) == 1 /\ Forall (fun q => 0 <= q) (nth 0 [[0; 1]; [1; 0]] []).
Proof.
  assert (H1 : calculate_transition_matrix [0; 1; 0]%Z 1 2 [[NaN; NaN]; [NaN; NaN]]
                 = Some [[0; 1]; [1; 0]]) by reflexivity.
  assert (H2 : (0 + 1 < length [0; 1; 0]%Z)%nat) by (simpl; lia).
  assert (H3 : np_index 2 (nth 0 [0; 1; 0]%Z 0%Z) = Some 0%nat) by reflexivity.
  split; [exact H1|]. split; [exact H2|]. split; [exact H3|].
  exact (transition_row_distribution [0; 1; 0]%Z 1 2 [[NaN; NaN]; [NaN; NaN]]
           [[0; 1]; [1; 0]] 0 0 H1 H2 H3).
Defined.

End TransitionMatrixFacts.

Module PyDictFacts.
Local Open Scope string_scope.

Definition setkv {V : Type} (acc : list (string * V)) (kv : string * V) :=
  PyDict.set acc (fst kv) (snd kv).

Lemma update_fold {V : Type} (d e : list (string * V)) :
  PyDict.update d e = fold_left setkv e d.
Proof. reflexivity. Qed.

Lemma get_set {V : Type} (d : list (string * V)) (k k' : string) (v : V) :
  PyDict.get (PyDict.set d k v) k' = if String.eqb k' k then Some v else PyDict.get d k'.
Proof.
  induction d as [|[k0 v0] d IH]; simpl; [reflexivity|].
  destruct (String.eqb_spec k k0) as [->|Hk]; simpl.
  - destruct (k' =? k0)%string; reflexivity.
  - rewrite IH. destruct (String.eqb_spec k' k0) as [->|Hk']; [|reflexivity].
    destruct (String.eqb_spec k0 k); [congruence | reflexivity].
Qed.

Lemma get_app {V : Type} (a b : list (string * V)) (k : string) :
  PyDict.get (a ++ b)%list k = match PyDict.get a k with Some v => Some v | None => PyDict.get b k end.
Proof.
  induction a as [|[k0 v0] a IH]; simpl; [reflexivity|].
  destruct (String.eqb k k0); [reflexivity | exact IH].
Qed.

(** Setting the pairs of [l] in order: the last value set for a key wins. *)
Lemma get_fold_set {V : Type} (l d : list (string * V)) (k : string) :
  PyDict.get (fold_left setkv l d) k =
  match PyDict.get (rev l) k with Some v => Some v | None => PyDict.get d k end.
Proof.
  revert d. induction l as [|[k1 v1] l IH]; intro d; simpl; [reflexivity|].
  rewrite IH, get_app. unfold setkv. simpl fst. simpl snd. rewrite get_set. simpl.
  destruct (PyDict.get (rev l) k); [reflexivity|].
  destruct (String.eqb k k1); reflexivity.
Qed.

Lemma get_notin {V : Type} (l : list (string * V)) (k : string) :
  ~ In k (map fst l) -> PyDict.get l k = None.
Proof.
  induction l as [|[k0 v0] l IH]; intro H; simpl; [reflexivity|].
  destruct (String.eqb_spec k k0) as [->|_]; [exfalso; apply H; left; reflexivity|].
  apply IH. intro Hin. apply H. right. exact Hin.
Qed.

Lemma get_in_nodup {V : Type} (l : list (string * V)) (k : string) (v : V) :
  NoDup (map fst l) -> In (k, v) l -> PyDict.get l k = Some v.
Proof.
  induction l as [|[k0 v0] l IH]; intros Hnd Hin; simpl; [destruct Hin|].
  inversion Hnd as [|? ? Hk0 Hnd']; subst.
  destruct Hin as [E|Hin].
  - injection E as -> ->. rewrite String.eqb_refl. reflexivity.
  - destruct (String.eqb_spec k k0) as [->|_].
    + exfalso. apply Hk0. apply (in_map fst) in Hin. exact Hin.
    + apply IH; assumption.
Qed.

Lemma set_fresh {V : Type} (d : list (string * V)) (k : string) (v : V) :
  ~ In k (map fst d) -> PyDict.set d k v = (d ++ [(k, v)])%list.
Proof.
  induction d as [|[k0 v0] d IH]; intro H; simpl; [reflexivity|].
  destruct (String.eqb_spec k k0) as [->|_]; [exfalso; apply H; left; reflexivity|].
  rewrite IH; [reflexivity|]. intro Hin. apply H. right. exact Hin.
Qed.

(** Setting keys that are pairwise distinct and new appends them in order. *)
Lemma fold_set_fresh {V : Type} (l d : list (string * V)) :
  NoDup (map fst l) -> (forall k, In k (map fst l) -> ~ In k (map fst d)) ->
  fold_left setkv l d = (d ++ l)%list.
Proof.
  revert d. induction l as [|[k v] l IH]; intros d Hnd Hfresh; simpl; [rewrite app_nil_r; reflexivity|].
  inversion Hnd as [|? ? Hk Hnd']; subst. unfold setkv at 2. simpl fst. simpl snd.
  rewrite set_fresh by (apply Hfresh; left; reflexivity).
  rewrite IH; [rewrite <- app_assoc; reflexivity | exact Hnd' |].
  intros k' Hk' Hin. rewrite map_app, in_app_iff in Hin. destruct Hin as [Hin|[E|[]]].
  - exact (Hfresh k' (or_intror Hk') Hin).
  - simpl in E. subst. contradiction.
Qed.

(** ** Keys built from numbers *)

Fixpoint no_underscore (s : string) : bool :=
  match s with
  | EmptyString => true
  | String c s' => negb (Ascii.eqb c "_"%char) && no_underscore s'
  end.

Lemma str_nat_no_underscore (n : nat) : no_underscore (str_nat n) = true.
Proof.
  unfold str_nat. generalize (Nat.to_uint n). induction u; simpl; auto.
Qed.

Lemma app_underscore_inj (a a' b b' : string) :
  no_underscore a = true -> no_underscore a' = true ->
  (a ++ String "_" b = a' ++ String "_" b')%string -> a = a' /\ b = b'.
Proof.
  revert a'. induction a as [|c a IH]; intros [|c' a'] Ha Ha' H; simpl in *.
  - injection H as ->. split; reflexivity.
  - injection H as <- _. discriminate.
  - injection H as -> _. discriminate.
  - injection H as <- H. apply andb_true_iff in Ha, Ha'.
    destruct (IH a' (proj2 Ha) (proj2 Ha') H) as [-> ->]. split; reflexivity.
Qed.

Lemma str_nat_underscore_inj (n n' : nat) (b b' : string) :
  (str_nat n ++ String "_" b = str_nat n' ++ String "_" b')%string -> n = n' /\ b = b'.
Proof.
  intro H. destruct (app_underscore_inj _ _ _ _ (str_nat_no_underscore n)
                       (str_nat_no_underscore n') H) as [Hn Hb].
  split; [exact (StatMetricsFacts.str_nat_inj _ _ Hn) | exact Hb].
Qed.

End PyDictFacts.

Module TransitionFeatureFacts.
Import Transitions TransitionFeatures PyDictFacts.
Local Open Scope Q_scope.

Lemma trans_key_inj (i j i' j' : nat) : trans_key i j = trans_key i' j' -> i = i' /\ j = j'.
Proof.
  unfold trans_key. intro H. simpl in H.
  injection H as H. apply str_nat_underscore_inj in H. destruct H as [-> H].
  simpl in H. injection H as H. apply StatMetricsFacts.str_nat_inj in H.
  split; [reflexivity | exact H].
Qed.

Lemma step_key_inj (s s' : nat) (k k' : string) : step_key s k = step_key s' k' -> s = s' /\ k = k'.
Proof.
  unfold step_key. intro H. simpl in H.
  injection H as H. exact (str_nat_underscore_inj _ _ _ _ H).
Qed.

Lemma NoDup_map_inj {A B : Type} (f : A -> B) (l : list A) :
  (forall x y, f x = f y -> x = y) -> NoDup l -> NoDup (map f l).
Proof.
  intros Hinj. induction 1 as [|x l Hx _ IH]; simpl; constructor; [|exact IH].
  intro Hin. apply in_map_iff in Hin. destruct Hin as [y [E Hy]].
  apply Hinj in E. subst. contradiction.
Qed.

Lemma NoDup_list_prod {A B : Type} (l : list A) (l' : list B) :
  NoDup l -> NoDup l' -> NoDup (list_prod l l').
Proof.
  intros Hl Hl'. induction Hl as [|x l Hx _ IH]; simpl; [constructor|].
  apply NoDup_app; [| exact IH |].
  - apply NoDup_map_inj; [|exact Hl']. intros y y' E. injection E as E. exact E.
  - intros [a b] Hin Hin'. apply in_map_iff in Hin. destruct Hin as [y [E _]].
    injection E as -> _. apply in_prod_iff in Hin'. destruct Hin' as [Hin' _]. contradiction.
Qed.

Lemma nested_fold (f : nat -> nat -> string) (g : nat -> nat -> Q) (L L' : list nat) :
  forall d,
  fold_left (fun d i => fold_left (fun d j => PyDict.set d (f i j) (g i j)) L' d) L d =
  fold_left setkv (map (fun p => (f (fst p) (snd p), g (fst p) (snd p))) (list_prod L L')) d.
Proof.
  induction L as [|i L IH]; intro d; simpl; [reflexivity|].
  rewrite map_app, fold_left_app, <- IH. f_equal. rewrite map_map. simpl.
  clear IH. revert d. induction L' as [|j L' IH']; intro d; simpl; [reflexivity|].
  apply IH'.
Qed.

Lemma prob_rows_length (m : counts) : forall buf, length (prob_rows m buf) = length m.
Proof. induction m as [|row m IH]; intro buf; simpl; [reflexivity | rewrite IH; reflexivity]. Qed.

Lemma calculate_transition_matrix_length (sequence : list Z) (step base : nat)
    (buf : list (list f64)) (pm : list (list Q)) :
  calculate_transition_matrix sequence step base buf = Some pm -> length pm = base.
Proof.
  unfold calculate_transition_matrix. intro H.
  destruct (count_transitions sequence step base) as [m|] eqn:Em; [|discriminate].
  injection H as <-. rewrite prob_rows_length.
  exact (proj1 (TransitionMatrixFacts.count_transitions_cells _ _ _ _ Em)).
Qed.

Definition trans_pairs (n : nat) : list (nat * nat) := list_prod (seq 0 n) (seq 0 n).

Lemma trans_keys_nodup (n : nat) (f : string -> string) :
  (forall k k', f k = f k' -> k = k') ->
  NoDup (map (fun p : nat * nat => f (trans_key (fst p) (snd p))) (trans_pairs n)).
Proof.
  intro Hf. apply NoDup_map_inj; [|apply NoDup_list_prod; apply seq_NoDup].
  intros [i j] [i' j'] E. apply Hf in E. apply trans_key_inj in E. simpl in E.
  destruct E as [-> ->]. reflexivity.
Qed.

(** The dict of [extract_transition_metrics]: one key per cell, row by
    row. *)
Lemma extract_eq (pm : list (list Q)) :
  extract_transition_metrics pm =
  map (fun p => (trans_key (fst p) (snd p), cell pm (fst p) (snd p)))
      (trans_pairs (length pm)).
Proof.
  unfold extract_transition_metrics, trans_pairs. rewrite nested_fold.
  rewrite fold_set_fresh; [reflexivity | | intros k _ []].
  rewrite map_map. simpl. apply (trans_keys_nodup _ (fun k => k)). intros; assumption.
Qed.

Lemma features_metrics_loop (sequence : list Z) (bufs : nat -> list (list f64)) :
  forall steps k tf,
  features_loop sequence bufs k steps tf = metrics_loop sequence 10 bufs k steps tf.
Proof.
  induction steps as [|s rest IH]; intros k tf; cbn [features_loop metrics_loop];
    [reflexivity|].
  destruct (calculate_transition_matrix sequence s 10 (bufs k)) as [pm|] eqn:E; [|reflexivity].
  rewrite extract_eq, (calculate_transition_matrix_length _ _ _ _ _ E).
  rewrite update_fold, nested_fold, map_map, IH. unfold trans_pairs.
  do 2 f_equal.
Qed.

(** X16: [calculate_transition_features] of calculate_features.py builds the
    same dict, with the same keys in the same insertion order, as
    [calculate_transition_metrics_for_sequence] of transition_probs.py over
    [range(1, max_step + 1)] in base 10. *)
Theorem transition_features_agree (sequence : list Z) (max_step : nat)
    (bufs : nat -> list (list f64)) :
  calculate_transition_features sequence max_step bufs =
  calculate_transition_metrics_for_sequence sequence (seq 1 max_step) 10 bufs.
Proof. apply features_metrics_loop. Qed.

Lemma metrics_loop_other (sequence : list Z) (base : nat) (bufs : nat -> list (list f64))
    (key : string) :
  forall steps k acc d,
  (forall st x, In st steps -> key <> step_key st x) ->
  metrics_loop sequence base bufs k steps acc = Some d ->
  PyDict.get d key = PyDict.get acc key.
Proof.
  induction steps as [|s rest IH]; intros k acc d Hkey H; simpl in H.
  - injection H as <-. reflexivity.
  - destruct (calculate_transition_matrix sequence s base (bufs k)) as [pm|]; [|discriminate].
    rewrite (IH _ _ _ (fun st x Hst => Hkey st x (or_intror Hst)) H).
    rewrite update_fold, get_fold_set, get_notin; [reflexivity|].
    intro Hin. apply in_map_iff in Hin. destruct Hin as [kv [E Hkv]].
    apply in_rev in Hkv. apply in_map_iff in Hkv. destruct Hkv as [kv' [<- _]].
    simpl in E. exact (Hkey s (fst kv') (or_introl eq_refl) (eq_sym E)).
Qed.

Lemma metrics_loop_lookup (sequence : list Z) (base : nat) (bufs : nat -> list (list f64))
    (i j : nat) :
  (i < base)%nat -> (j < base)%nat ->
  forall steps k0 acc d k s pm,
  NoDup steps -> nth_error steps k = Some s ->
  metrics_loop sequence base bufs k0 steps acc = Some d ->
  calculate_transition_matrix sequence s base (bufs (k0 + k)%nat) = Some pm ->
  PyDict.get d (step_key s (trans_key i j)) = Some (cell pm i j).
Proof.
  intros Hi Hj. induction steps as [|s0 rest IH]; intros k0 acc d k s pm Hnd Hk H Hpm;
    [destruct k; discriminate|].
  inversion Hnd as [|? ? Hs0 Hnd']; subst. simpl in H.
  destruct k as [|k].
  - injection Hk as <-. rewrite Nat.add_0_r in Hpm. rewrite Hpm in H.
    assert (Hother : forall st x, In st rest -> step_key s0 (trans_key i j) <> step_key st x).
    { intros st x Hst E. apply step_key_inj in E. destruct E as [<- _]. contradiction. }
    rewrite (metrics_loop_other sequence base bufs _ rest (S k0) _ d Hother H).
    rewrite update_fold, get_fold_set, (get_in_nodup _ _ (cell pm i j)); [reflexivity| |].
    + rewrite map_rev. apply NoDup_rev. rewrite map_map, extract_eq, map_map. simpl.
      apply (trans_keys_nodup _ (step_key s0)).
      intros k k' E. apply step_key_inj in E. exact (proj2 E).
    + apply in_rev. rewrite rev_involutive, extract_eq, map_map.
      apply in_map_iff. exists (i, j). split; [reflexivity|].
      unfold trans_pairs. rewrite (calculate_transition_matrix_length _ _ _ _ _ Hpm).
      apply in_prod; apply in_seq; lia.
  - destruct (calculate_transition_matrix sequence s0 base (bufs k0)); [|discriminate].
    apply (IH (S k0) _ d k s pm Hnd' Hk H).
    replace (S k0 + k)%nat with (k0 + S k)%nat by lia. exact Hpm.
Qed.

(** X15: in the dict of [calculate_transition_metrics_for_sequence] over
    distinct steps, ['step<s>_trans_<i>_to_<j>'] holds cell [(i, j)] of the
    matrix computed for step [s] (with the buffer of that call), for every
    [i, j < base]. *)
Theorem transition_metrics_lookup (sequence : list Z) (steps : list nat) (base : nat)
    (bufs : nat -> list (list f64)) (d : list (string * Q)) (k s i j : nat)
    (pm : list (list Q)) :
  NoDup steps -> nth_error steps k = Some s -> (i < base)%nat -> (j < base)%nat ->
  calculate_transition_metrics_for_sequence sequence steps base bufs = Some d ->
  calculate_transition_matrix sequence s base (bufs k) = Some pm ->
  PyDict.get d (step_key s (trans_key i j)) = Some (cell pm i j).
Proof.
  intros Hnd Hk Hi Hj H Hpm.
  exact (metrics_loop_lookup sequence base bufs i j Hi Hj steps 0 [] d k s pm Hnd Hk H Hpm).
Qed.

(** Two distinct steps over a short sequence, with NaN-filled buffers. *)
Definition lookup_bufs (_ : nat) : list (list f64) := [[NaN; NaN]; [NaN; NaN]].

Definition lookup_dict : list (string * Q) :=
  match calculate_transition_metrics_for_sequence [0; 1; 0; 1]%Z [1; 2]%nat 2 lookup_bufs with
  | Some d => d
  | None => []
  end.

Lemma transition_metrics_lookup_witness :
  NoDup [1; 2]%nat /\ nth_error [1; 2]%nat 1 = Some 2%nat /\ (1 < 2)%nat /\ (1 < 2)%nat /\
  calculate_transition_metrics_for_sequence [0; 1; 0; 1]%Z [1; 2]%nat 2 lookup_bufs
    = Some lookup_dict /\
  calculate_transition_matrix [0; 1; 0; 1]%Z 2 2 (lookup_bufs 1) = Some [[1; 0]; [0; 1]] /\
  PyDict.get lookup_dict (step_key 2 (trans_key 1 1)) = Some (cell [[1; 0]; [0; 1]] 1 1).
Proof.
  assert (H1 : NoDup [1; 2]%nat) by (repeat constructor; simpl; lia).
  assert (H2 : nth_error [1; 2]%nat 1 = Some 2%nat) by reflexivity.
  assert (H3 : (1 < 2)%nat) by lia.
  assert (H4 : calculate_transition_metrics_for_sequence [0; 1; 0; 1]%Z [1; 2]%nat 2 lookup_bufs
                 = Some lookup_dict) by (vm_compute; reflexivity).
  assert (H5 : calculate_transition_matrix [0; 1; 0; 1]%Z 2 2 (lookup_bufs 1)
                 = Some [[1; 0]; [0; 1]]) by reflexivity.
  split; [exact H1|]. split; [exact H2|]. split; [exact H3|]. split; [exact H3|].
  split; [exact H4|]. split; [exact H5|].
  exact (transition_metrics_lookup [0; 1; 0; 1]%Z [1; 2]%nat 2 lookup_bufs lookup_dict 1 2 1 1
           [[1; 0]; [0; 1]] H1 H2 H3 H3 H4 H5).
Defined.

End TransitionFeatureFacts.

Module CheckerResultFacts.
Import Checker.
Local Open Scope Q_scope.

Lemma classify_rows_lengths (r : MetricRecord) (c : confidence) (t : BoundsTable) :
  let '(outs, ins, miss) := classify_rows r c t in
  (length outs + length ins + length miss = length t)%nat.
Proof.
  induction t as [|row t IH]; simpl; [reflexivity|].
  destruct (classify_rows r c t) as [[outs ins] miss].
  destruct (classify_row r c row); simpl; lia.
Qed.

(** X17: every row of the bounds table is counted once: within-bounds,
    outlier and missing counts add up to the number of rows, so do the
    tested and missing counts, and the severe outliers are among the
    outliers. *)
Theorem check_counts_partition (r : MetricRecord) (t : BoundsTable) (c : confidence) :
  let res := check_sequence_randomness r t c in
  (within_bounds_count res + outlier_count res + missing_metrics_count res = length t)%nat /\
  (total_metrics_tested res + missing_metrics_count res = length t)%nat /\
  (severe_outlier_count res <= outlier_count res)%nat.
Proof.
  pose proof (classify_rows_lengths r c t) as H.
  unfold check_sequence_randomness.
  destruct (classify_rows r c t) as [[outs ins] miss]. cbn zeta; simpl.
  pose proof (filter_length_le is_severe outs). lia.
Qed.

Lemma classify_rows_outlier_row (r : MetricRecord) (c : confidence) (t : BoundsTable)
    (o : OutlierEntry) :
  In o (fst (fst (classify_rows r c t))) -> exists row, In row t /\ classify_row r c row = Outlier o.
Proof.
  induction t as [|row t IH]; simpl; [intros []|].
  destruct (classify_rows r c t) as [[outs ins] miss] eqn:E. simpl in IH.
  destruct (classify_row r c row) as [m|w|o'] eqn:Er; simpl; intro H.
  - destruct (IH H) as [row' [Hin Hc]]. exists row'. split; [right; exact Hin | exact Hc].
  - destruct (IH H) as [row' [Hin Hc]]. exists row'. split; [right; exact Hin | exact Hc].
  - destruct H as [<-|H].
    + exists row. split; [left; reflexivity | exact Er].
    + destruct (IH H) as [row' [Hin Hc]]. exists row'. split; [right; exact Hin | exact Hc].
Qed.

Lemma classify_row_outlier (r : MetricRecord) (c : confidence) (row : BoundsEntry)
    (o : OutlierEntry) :
  classify_row r c row = Outlier o ->
  metric row = o_metric o /\ dict_get r (o_metric o) = Some (o_value o) /\
  o_expected_range o = (bound_lower c row, bound_upper c row) /\
  0 < o_distance_from_bound o /\ 0 < o_relative_distance o /\
  (o_direction o = below ->
     o_value o < bound_lower c row /\ o_distance_from_bound o = bound_lower c row - o_value o) /\
  (o_direction o = above ->
     bound_upper c row < o_value o /\ o_distance_from_bound o = o_value o - bound_upper c row) /\
  (o_severity o = extreme <-> 1 < o_relative_distance o).
Proof.
  unfold classify_row. destruct (dict_get r (metric row)) as [v|] eqn:Eg; [|discriminate].
  set (lo := bound_lower c row). set (up := bound_upper c row).
  destruct (Qle_bool lo v && Qle_bool v up) eqn:W; [discriminate|].
  set (dv := if Qltb 0 (expected_mean row) then expected_mean row else 1).
  assert (Hdv : 0 < dv).
  { unfold dv. destruct (Qltb 0 (expected_mean row)) eqn:E.
    - apply CheckerFacts.Qltb_iff. exact E.
    - reflexivity. }
  assert (Hsev : forall rd, (if Qltb 1 rd then extreme else if Qltb (1#2) rd then high
                             else moderate) = extreme <-> 1 < rd).
  { intro rd. rewrite <- CheckerFacts.Qltb_iff.
    destruct (Qltb 1 rd); [tauto|]. destruct (Qltb (1#2) rd); split; discriminate. }
  destruct (Qltb v lo) eqn:L; intro H; injection H as <-; simpl;
    (split; [reflexivity|]); (split; [exact Eg|]); (split; [reflexivity|]).
  - apply CheckerFacts.Qltb_iff in L.
    assert (Hd : 0 < lo - v) by (apply Qlt_minus_iff in L; exact L).
    split; [exact Hd|]. split.
    + apply Qlt_shift_div_l; [exact Hdv|]. rewrite Qmult_0_l. exact Hd.
    + split; [intros _; split; [exact L | reflexivity]|]. split; [discriminate|]. apply Hsev.
  - apply CheckerFacts.Qltb_false_iff in L.
    assert (Hu : up < v).
    { apply Qnot_le_lt. intro Hvu. apply Qle_bool_iff in Hvu. apply Qle_bool_iff in L.
      rewrite L, Hvu in W. discriminate. }
    assert (Hd : 0 < v - up) by (apply Qlt_minus_iff in Hu; exact Hu).
    split; [exact Hd|]. split.
    + apply Qlt_shift_div_l; [exact Hdv|]. rewrite Qmult_0_l. exact Hd.
    + split; [discriminate|]. split; [intros _; split; [exact Hu | reflexivity]|]. apply Hsev.
Qed.

(** X18: every outlier reported by [check_sequence_randomness] comes from a
    row of the table for its metric and holds the record's value; its
    expected range is that row's bounds at the chosen level; its distance
    from the bound and its relative distance are positive; [below] means
    the value is under the lower bound by exactly that distance, [above]
    over the upper bound by exactly that distance; and it is [extreme]
    exactly when the relative distance exceeds 1. *)
Theorem outlier_entries_consistent (r : MetricRecord) (t : BoundsTable) (c : confidence)
    (o : OutlierEntry) :
  In o (outliers (check_sequence_randomness r t c)) ->
  exists row, In row t /\ metric row = o_metric o /\
  dict_get r (o_metric o) = Some (o_value o) /\
  o_expected_range o = (bound_lower c row, bound_upper c row) /\
  0 < o_distance_from_bound o /\ 0 < o_relative_distance o /\
  (o_direction o = below ->
     o_value o < bound_lower c row /\ o_distance_from_bound o = bound_lower c row - o_value o) /\
  (o_direction o = above ->
     bound_upper c row < o_value o /\ o_distance_from_bound o = o_value o - bound_upper c row) /\
  (o_severity o = extreme <-> 1 < o_relative_distance o).
Proof.
  intro H.
  assert (H' : In o (fst (fst (classify_rows r c t)))).
  { unfold check_sequence_randomness in H.
    destruct (classify_rows r c t) as [[outs ins] miss]. exact H. }
  destruct (classify_rows_outlier_row r c t o H') as [row [Hin Hc]].
  exists row. split; [exact Hin|]. exact (classify_row_outlier r c row o Hc).
Qed.

(** The outlier of the spec's example row for a redundancy of 0.045. *)
Definition redundancy_outlier : OutlierEntry :=
  mkOutlier "redundancy" (45#1000) (5#1000, 25#1000) ((45#1000) - (25#1000))
    (((45#1000) - (25#1000)) / (15#1000)) above extreme
    (py_div (Qabs ((45#1000) - (15#1000))) (5#1000)) "".

Lemma redundancy_outlier_in :
  In redundancy_outlier
     (outliers (check_sequence_randomness [("redundancy"%string, 45#1000)]
                  [CheckerFacts.redundancy_row] CL95)).
Proof. vm_compute. left. reflexivity. Qed.

Lemma outlier_entries_consistent_witness :
  In redundancy_outlier
     (outliers (check_sequence_randomness [("redundancy"%string, 45#1000)]
                  [CheckerFacts.redundancy_row] CL95)) /\
  exists row, In row [CheckerFacts.redundancy_row] /\ metric row = o_metric redundancy_outlier /\
  dict_get [("redundancy"%string, 45#1000)] (o_metric redundancy_outlier)
    = Some (o_value redundancy_outlier) /\
  o_expected_range redundancy_outlier = (bound_lower CL95 row, bound_upper CL95 row) /\
  0 < o_distance_from_bound redundancy_outlier /\ 0 < o_relative_distance redundancy_outlier /\
  (o_direction redundancy_outlier = below ->
     o_value redundancy_outlier < bound_lower CL95 row /\
     o_distance_from_bound redundancy_outlier = bound_lower CL95 row - o_value redundancy_outlier) /\
  (o_direction redundancy_outlier = above ->
     bound_upper CL95 row < o_value redundancy_outlier /\
     o_distance_from_bound redundancy_outlier = o_value redundancy_outlier - bound_upper CL95 row) /\
  (o_severity redundancy_outlier = extreme <-> 1 < o_relative_distance redundancy_outlier).
Proof.
  split; [exact redundancy_outlier_in|].
  exact (outlier_entries_consistent [("redundancy"%string, 45#1000)] [CheckerFacts.redundancy_row] CL95
           redundancy_outlier redundancy_outlier_in).
Defined.

End CheckerResultFacts.

Module ServerFacts.
Import Checker Server Lqa.
Local Open Scope Q_scope.

(** X19: when the table has a row for the metric (the first one is used)
    with a non-negative [expected_std], [calculate_statistical_range]
    gives finite bounds around that row's mean, at equal distance on both
    sides (zero for the non-normal metrics). *)
Theorem statistical_range_brackets_mean (metric_name : string) (df : BoundsTable)
    (cl : Q) (row : BoundsEntry) (rest : BoundsTable) :
  filter (fun row => String.eqb (metric row) metric_name) df = row :: rest ->
  0 <= expected_std row ->
  exists lo up,
    calculate_statistical_range metric_name (Some df) cl
      = mkRange (Some lo) (Some up) (Some (expected_mean row)) /\
    lo <= expected_mean row <= up /\
    up - expected_mean row == expected_mean row - lo /\
    (Suggestions.mem metric_name non_normal_metrics = true -> lo = up).
Proof.
  intros Hf Hs. unfold calculate_statistical_range. rewrite Hf.
  set (z := if Qeq_bool cl (95 # 100) then 196 # 100
            else if Qeq_bool cl (99 # 100) then 258 # 100 else 196 # 100).
  assert (Hz : 0 <= z) by (unfold z; destruct (Qeq_bool cl _); [|destruct (Qeq_bool cl _)];
                           discriminate).
  destruct (Suggestions.mem metric_name non_normal_metrics).
  - exists (expected_mean row), (expected_mean row). split; [reflexivity|].
    split; [split; apply Qle_refl|]. split; [ring | reflexivity].
  - exists (expected_mean row - z * expected_std row), (expected_mean row + z * expected_std row).
    split; [reflexivity|].
    assert (Hm : 0 <= z * expected_std row) by (apply Qmult_le_0_compat; assumption).
    split; [split|]; [lra | lra |]. split; [ring | discriminate].
Qed.

Lemma statistical_range_brackets_mean_witness :
  filter (fun row => String.eqb (metric row) "redundancy") [CheckerFacts.redundancy_row]
    = [CheckerFacts.redundancy_row] /\
  0 <= expected_std CheckerFacts.redundancy_row /\
  exists lo up,
    calculate_statistical_range "redundancy" (Some [CheckerFacts.redundancy_row]) (95 # 100)
      = mkRange (Some lo) (Some up) (Some (expected_mean CheckerFacts.redundancy_row)) /\
    lo <= expected_mean CheckerFacts.redundancy_row <= up /\
    up - expected_mean CheckerFacts.redundancy_row
      == expected_mean CheckerFacts.redundancy_row - lo /\
    (Suggestions.mem "redundancy" non_normal_metrics = true -> lo = up).
Proof.
  assert (H1 : filter (fun row => String.eqb (metric row) "redundancy")
                 [CheckerFacts.redundancy_row] = [CheckerFacts.redundancy_row]) by reflexivity.
  assert (H2 : 0 <= expected_std CheckerFacts.redundancy_row) by (vm_compute; discriminate).
  split; [exact H1|]. split; [exact H2|].
  exact (statistical_range_brackets_mean "redundancy" [CheckerFacts.redundancy_row] (95 # 100)
           CheckerFacts.redundancy_row [] H1 H2).
Defined.

Lemma outliers_loop_nil (bounds_df : option BoundsTable) : outliers_loop bounds_df [] = Ok [].
Proof. reflexivity. Qed.

(** X20: without a bounds table ([load_bounds_table] returned [None])
    [generate_deviation_report] raises [TypeError] as soon as there is an
    outlier ([actual_value > None]); with no outlier it returns a report
    marked random whose only suggestion is the minor-bias message. *)
Theorem deviation_report_without_bounds (ra : AnalysisResult) (stat_metrics : MetricRecord) :
  match outliers ra with
  | [] => exists rep,
            generate_deviation_report (Some ra) stat_metrics None = Ok (Some rep) /\
            is_random (summary rep) = true /\ report_outliers rep = [] /\
            improvements rep = [Suggestions.minor_bias_suggestion]
  | _ :: _ => generate_deviation_report (Some ra) stat_metrics None = Err TypeError
  end.
Proof.
  unfold generate_deviation_report. destruct (outliers ra) as [|o os]; simpl.
  - eexists. split; [reflexivity|]. split; [reflexivity|]. split; reflexivity.
  - reflexivity.
Qed.

Lemma outliers_loop_err (bounds_df : option BoundsTable) (os : list OutlierEntry) :
  forall o, In o os -> (exists e, outlier_info bounds_df o = Err e) ->
  exists e, outliers_loop bounds_df os = Err e.
Proof.
  induction os as [|o' os IH]; intros o Hin He; [destruct Hin|]. simpl.
  destruct (outlier_info bounds_df o') as [info|e'] eqn:Ei; [|exists e'; reflexivity].
  destruct Hin as [<-|Hin].
  - destruct He as [e He]. congruence.
  - destruct (IH o Hin He) as [e He']. rewrite He'. exists e. reflexivity.
Qed.

(** X21: an outlier whose metric has no row in the bounds table makes
    [generate_deviation_report] raise (its range is all [None], and
    [actual_value > None] is a [TypeError], unless an earlier outlier
    already raised). *)
Theorem deviation_report_missing_row_raises (ra : AnalysisResult)
    (stat_metrics : MetricRecord) (df : BoundsTable) (o : OutlierEntry) :
  In o (outliers ra) ->
  filter (fun row => String.eqb (metric row) (o_metric o)) df = [] ->
  exists e, generate_deviation_report (Some ra) stat_metrics (Some df) = Err e.
Proof.
  intros Hin Hf. unfold generate_deviation_report.
  destruct (outliers_loop_err (Some df) (outliers ra) o Hin) as [e He].
  - exists TypeError. unfold outlier_info, calculate_statistical_range. rewrite Hf.
    reflexivity.
  - rewrite He. exists e. reflexivity.
Qed.

Lemma deviation_report_missing_row_raises_witness :
  In CheckerResultFacts.redundancy_outlier
     (outliers (check_sequence_randomness [("redundancy"%string, 45#1000)]
                  [CheckerFacts.redundancy_row] CL95)) /\
  filter (fun row => String.eqb (metric row) (o_metric CheckerResultFacts.redundancy_outlier)) [] = [] /\
  exists e, generate_deviation_report
              (Some (check_sequence_randomness [("redundancy"%string, 45#1000)]
                       [CheckerFacts.redundancy_row] CL95)) [] (Some []) = Err e.
Proof.
  assert (H : filter (fun row => String.eqb (metric row) (o_metric CheckerResultFacts.redundancy_outlier)) []
              = []) by reflexivity.
  split; [exact CheckerResultFacts.redundancy_outlier_in|]. split; [exact H|].
  exact (deviation_report_missing_row_raises
           (check_sequence_randomness [("redundancy"%string, 45#1000)] [CheckerFacts.redundancy_row] CL95)
           [] [] CheckerResultFacts.redundancy_outlier CheckerResultFacts.redundancy_outlier_in H).
Defined.

Ltac case_tip H :=
  repeat match type of H with
  | context [if ?b then _ else _] => destruct b eqn:?
  | context [match String.get ?n ?s with Some _ => _ | None => _ end] =>
      destruct (String.get n s) eqn:?
  end.

Lemma improvement_tip_err_cases (metric_name : string) (actual_value : Q)
    (expected_range : stat_range) (e : py_error) :
  get_improvement_tip metric_name actual_value expected_range = Err e ->
  (r_lower expected_range = None /\ e = TypeError) \/
  (r_upper expected_range = None /\ e = TypeError) \/
  (metric_name = "pl"%string /\ e = IndexError).
Proof.
  intro H. destruct expected_range as [lo up mn].
  cbv beta iota zeta delta [get_improvement_tip py_gt py_lt r_lower r_upper] in H.
  cbn [r_lower r_upper].
  destruct lo as [lo|], up as [up|]; case_tip H; try discriminate;
    injection H as <-;
    first [ left; split; reflexivity
          | right; left; split; reflexivity
          | right; right; split; [apply SuggestionFacts.prefix_pl_short; assumption | reflexivity] ].
Qed.


Lemma statistical_range_some (metric_name : string) (df : BoundsTable) (cl : Q)
    (row : BoundsEntry) (rest : BoundsTable) :
  filter (fun row => String.eqb (metric row) metric_name) df = row :: rest ->
  exists lo up, calculate_statistical_range metric_name (Some df) cl
                = mkRange (Some lo) (Some up) (Some (expected_mean row)).
Proof.
  intro Hf. unfold calculate_statistical_range. rewrite Hf.
  destruct (Suggestions.mem metric_name non_normal_metrics); do 2 eexists; reflexivity.
Qed.


Lemma tip_ok (metric_name : string) (actual_value : Q) (lo up : Q) (mn : option Q) :
  metric_name <> "pl"%string ->
  exists t, get_improvement_tip metric_name actual_value (mkRange (Some lo) (Some up) mn) = Ok t.
Proof.
  intro Hpl.
  destruct (get_improvement_tip metric_name actual_value (mkRange (Some lo) (Some up) mn))
    as [t|e] eqn:E; [exists t; reflexivity|].
  exfalso. destruct (improvement_tip_err_cases _ _ _ _ E) as [[H _]|[[H _]|[H _]]];
    [discriminate | discriminate | contradiction].
Qed.

Lemma outliers_loop_ok (df : option BoundsTable) (os : list OutlierEntry) :
  (forall o, In o os -> exists ent, outlier_info df o = Ok ent) ->
  exists entries, outliers_loop df os = Ok entries /\
    Forall2 (fun o ent => outlier_info df o = Ok ent) os entries.
Proof.
  induction os as [|o os IH]; intro H; simpl.
  - exists []. split; [reflexivity | constructor].
  - destruct (H o (or_introl eq_refl)) as [ent Hent]. rewrite Hent.
    destruct (IH (fun o' Hin => H o' (or_intror Hin))) as [entries [He Hf]].
    rewrite He. exists (ent :: entries). split; [reflexivity | constructor; assumption].
Qed.

Lemma Forall2_map_pairs (os : list OutlierEntry) (entries : list report_entry)
    (df : option BoundsTable) :
  Forall2 (fun o ent => outlier_info df o = Ok ent) os entries ->
  (forall o ent, outlier_info df o = Ok ent ->
     (e_metric ent, e_actual ent) = (o_metric o, o_value o) /\
     exists lo up mn, e_expected_min ent = Some lo /\ e_expected_max ent = Some up /\
                      e_expected_mean ent = Some mn) ->
  map (fun e => (e_metric e, e_actual e)) entries = map (fun o => (o_metric o, o_value o)) os /\
  Forall (fun e => exists lo up mn, e_expected_min e = Some lo /\ e_expected_max e = Some up /\
                                    e_expected_mean e = Some mn) entries.
Proof.
  intros H Hent. induction H as [|o ent os entries Ho _ IH]; simpl.
  - split; [reflexivity | constructor].
  - destruct (Hent o ent Ho) as [E1 E2]. destruct IH as [IH1 IH2].
    rewrite E1, IH1. split; [reflexivity | constructor; assumption].
Qed.

(** X23: feeding the checker's result to [generate_deviation_report] with
    the same bounds table never raises as long as no outlier is named
    exactly ['pl']: every outlier's metric has a row in the table, so its
    range is finite; the report lists the outliers in order with their
    values and finite ranges, and its summary repeats the checker's
    counts. *)
Theorem deviation_report_of_checker (r : MetricRecord) (t : BoundsTable) (c : confidence)
    (stat_metrics : MetricRecord) :
  (forall o, In o (outliers (check_sequence_randomness r t c)) -> o_metric o <> "pl"%string) ->
  exists rep,
    generate_deviation_report (Some (check_sequence_randomness r t c)) stat_metrics (Some t)
      = Ok (Some rep) /\
    map (fun e => (e_metric e, e_actual e)) (report_outliers rep)
      = map (fun o => (o_metric o, o_value o)) (outliers (check_sequence_randomness r t c)) /\
    Forall (fun e => exists lo up mn, e_expected_min e = Some lo /\
                       e_expected_max e = Some up /\ e_expected_mean e = Some mn)
           (report_outliers rep) /\
    outliers_count (summary rep) = outlier_count (check_sequence_randomness r t c) /\
    summary_within_bounds_count (summary rep) = within_bounds_count (check_sequence_randomness r t c) /\
    is_random (summary rep) = Nat.eqb (outlier_count (check_sequence_randomness r t c)) 0.
Proof.
  intro Hpl. set (res := check_sequence_randomness r t c) in *.
  assert (Hrow : forall o, In o (outliers res) ->
            exists row, In row t /\ metric row = o_metric o).
  { intros o Ho. unfold res, check_sequence_randomness in Ho.
    destruct (classify_rows r c t) as [[outs ins] miss] eqn:E. simpl in Ho.
    destruct (CheckerResultFacts.classify_rows_outlier_row r c t o) as [row [Hin Hc]];
      [rewrite E; exact Ho|].
    exists row. split; [exact Hin | exact (proj1 (CheckerResultFacts.classify_row_outlier _ _ _ _ Hc))]. }
  assert (Hinfo : forall o, In o (outliers res) -> exists ent, outlier_info (Some t) o = Ok ent).
  { intros o Ho. destruct (Hrow o Ho) as [row [Hin Hm]].
    destruct (filter (fun row => String.eqb (metric row) (o_metric o)) t) as [|row' rest] eqn:Ef.
    - exfalso. assert (Hin' : In row (filter (fun row => String.eqb (metric row) (o_metric o)) t))
        by (apply filter_In; split; [exact Hin | apply String.eqb_eq; exact Hm]).
      rewrite Ef in Hin'. destruct Hin'.
    - destruct (statistical_range_some (o_metric o) t (95 # 100) row' rest Ef) as [lo [up Hr]].
      destruct (tip_ok (o_metric o) (o_value o) lo up (Some (expected_mean row')) (Hpl o Ho))
        as [tp Htp].
      unfold outlier_info. rewrite Hr. cbn [r_upper py_gt]. rewrite Htp.
      eexists. reflexivity. }
  destruct (outliers_loop_ok (Some t) (outliers res) Hinfo) as [entries [Hl Hf]].
  unfold generate_deviation_report. rewrite Hl.
  destruct (Forall2_map_pairs _ _ _ Hf) as [H1 H2].
  { intros o ent Ho. unfold outlier_info in Ho.
    destruct (calculate_statistical_range (o_metric o) (Some t) (95 # 100)) as [lo up mn] eqn:Er.
    destruct up as [up|]; cbn [r_upper py_gt] in Ho; [|discriminate].
    destruct (get_improvement_tip (o_metric o) (o_value o) (mkRange lo (Some up) mn)); [|discriminate].
    injection Ho as <-. cbn. split; [reflexivity|].
    unfold calculate_statistical_range in Er.
    destruct (filter _ t) as [|row rest]; [discriminate|].
    destruct (Suggestions.mem _ _); injection Er as <- <- <-; do 3 eexists; repeat split. }
  assert (Hnopl : ~ In "pl"%string (map Suggestions.metric (map to_suggestion_input entries))).
  { rewrite map_map. intro Hin. apply in_map_iff in Hin. destruct Hin as [e [He Hine]].
    assert (Hp : In (e_metric e, e_actual e) (map (fun e => (e_metric e, e_actual e)) entries))
      by (apply in_map_iff; exists e; split; [reflexivity | exact Hine]).
    rewrite H1 in Hp. apply in_map_iff in Hp. destruct Hp as [o [Eo Ho]].
    injection Eo as Em _. apply (Hpl o Ho). rewrite Em. exact He. }
  destruct (SuggestionFacts.suggestions_ok _ Hnopl) as [imps Himps]. rewrite Himps.
  eexists. split; [reflexivity|]. cbn [report_outliers summary outliers_count
    summary_within_bounds_count is_random].
  split; [exact H1|]. split; [exact H2|].
  unfold res, check_sequence_randomness.
  destruct (classify_rows r c t) as [[outs ins] miss]. cbn. repeat split.
Qed.

Lemma deviation_report_of_checker_witness :
  (forall o, In o (outliers (check_sequence_randomness [("redundancy"%string, 45#1000)]
                               [CheckerFacts.redundancy_row] CL95)) ->
             o_metric o <> "pl"%string) /\
  exists rep,
    generate_deviation_report
      (Some (check_sequence_randomness [("redundancy"%string, 45#1000)] [CheckerFacts.redundancy_row] CL95))
      [] (Some [CheckerFacts.redundancy_row]) = Ok (Some rep) /\
    map (fun e => (e_metric e, e_actual e)) (report_outliers rep)
      = map (fun o => (o_metric o, o_value o))
            (outliers (check_sequence_randomness [("redundancy"%string, 45#1000)]
                         [CheckerFacts.redundancy_row] CL95)) /\
    Forall (fun e => exists lo up mn, e_expected_min e = Some lo /\
                       e_expected_max e = Some up /\ e_expected_mean e = Some mn)
           (report_outliers rep) /\
    outliers_count (summary rep)
      = outlier_count (check_sequence_randomness [("redundancy"%string, 45#1000)]
                         [CheckerFacts.redundancy_row] CL95) /\
    summary_within_bounds_count (summary rep)
      = within_bounds_count (check_sequence_randomness [("redundancy"%string, 45#1000)]
                               [CheckerFacts.redundancy_row] CL95) /\
    is_random (summary rep)
      = Nat.eqb (outlier_count (check_sequence_randomness [("redundancy"%string, 45#1000)]
                                  [CheckerFacts.redundancy_row] CL95)) 0.
Proof.
  assert (H : forall o, In o (outliers (check_sequence_randomness [("redundancy"%string, 45#1000)]
                                          [CheckerFacts.redundancy_row] CL95)) ->
                        o_metric o <> "pl"%string).
  { intros o Ho. vm_compute in Ho. destruct Ho as [<-|[]]. discriminate. }
  split; [exact H|].
  exact (deviation_report_of_checker [("redundancy"%string, 45#1000)] [CheckerFacts.redundancy_row] CL95
           [] H).
Defined.

(** *** [generate_improvement_suggestions] *)

(** X24: when [generate_improvement_suggestions] returns, it returns
    between one and seven suggestions (one per rule at most), and the
    minor-bias message only ever appears alone, when no rule fired; when it
    raises, the exception is the [IndexError] of an outlier named [pl]. *)
Theorem improvement_suggestions_shape (os : list Suggestions.ReportOutlier) :
  match Suggestions.generate_improvement_suggestions os with
  | Ok res =>
      (1 <= length res <= 7)%nat /\
      (res = [Suggestions.minor_bias_suggestion] \/ ~ In Suggestions.minor_bias_suggestion res)
  | Err e => e = IndexError /\ In "pl"%string (map Suggestions.metric os)
  end.
Proof.
  pose proof (SuggestionFacts.phase_list_result _ (SuggestionFacts.phase_outliers_prefix os))
    as Hph.
  unfold Suggestions.generate_improvement_suggestions. cbv zeta.
  destruct (Nat.leb 2 (length (filter (fun o => String.prefix "pl" (Suggestions.metric o)) os))).
  1: destruct (Suggestions.map_result (fun o => Suggestions.str_index (Suggestions.metric o) 2)
                 (filter (fun o => String.prefix "pl" (Suggestions.metric o)) os)) as [phases|e];
     [|split; [exact (proj1 Hph)
              | exact (SuggestionFacts.pl_in_map_filter _ _ (proj2 Hph))]].
  all: cbv beta iota;
  repeat match goal with
         | |- context [if ?b then _ else _] =>
             lazymatch type of b with bool => destruct b end
         end;
  cbn [app length]; (split; [lia|]);
  first [left; reflexivity | right; simpl; intuition discriminate].
Qed.

(** *** [extract_statistical_metrics] *)

Definition extract_step (features metrics : list (string * Q)) (col : string)
    : list (string * Q) :=
  match PyDict.get features col with
  | Some v => PyDict.set metrics col v
  | None => metrics
  end.

Lemma extract_fold (features : list (string * Q)) (k : string) :
  forall cols acc,
  PyDict.get (fold_left (extract_step features) cols acc) k =
  if Suggestions.mem k cols
  then match PyDict.get features k with Some v => Some v | None => PyDict.get acc k end
  else PyDict.get acc k.
Proof.
  induction cols as [|col cols IH]; intro acc; simpl; [reflexivity|].
  rewrite IH. unfold extract_step.
  destruct (String.eqb_spec k col) as [->|Hne]; simpl.
  - destruct (PyDict.get features col) as [v|] eqn:E.
    + rewrite PyDictFacts.get_set, String.eqb_refl.
      destruct (Suggestions.mem col cols); reflexivity.
    + destruct (Suggestions.mem col cols); reflexivity.
  - destruct (PyDict.get features col) as [v|] eqn:E; [|reflexivity].
    rewrite PyDictFacts.get_set.
    destruct (String.eqb_spec k col) as [|_]; [contradiction | reflexivity].
Qed.

Lemma extract_keys (features : list (string * Q)) :
  forall cols acc,
  NoDup cols -> (forall k, In k cols -> ~ In k (map fst acc)) ->
  map fst (fold_left (extract_step features) cols acc) =
  (map fst acc ++ filter (fun col => match PyDict.get features col with
                                      | Some _ => true | None => false end) cols)%list.
Proof.
  induction cols as [|col cols IH]; intros acc Hnd Hfresh; simpl; [rewrite app_nil_r; reflexivity|].
  inversion Hnd as [|? ? Hcol Hnd']; subst. unfold extract_step at 2.
  destruct (PyDict.get features col) as [v|] eqn:E.
  - rewrite PyDictFacts.set_fresh by (apply Hfresh; left; reflexivity).
    rewrite IH; [rewrite map_app, <- app_assoc; reflexivity | exact Hnd'|].
    intros k Hk Hin. rewrite map_app, in_app_iff in Hin. destruct Hin as [Hin|[E'|[]]].
    + exact (Hfresh k (or_intror Hk) Hin).
    + simpl in E'. subst. contradiction.
  - apply IH; [exact Hnd'|]. intros k Hk. apply Hfresh. right. exact Hk.
Qed.

Lemma stat_metric_columns_nodup : NoDup stat_metric_columns.
Proof.
  vm_compute. repeat constructor; simpl; intuition discriminate.
Qed.

(** X25: [extract_statistical_metrics] keeps exactly the 27 known columns
    that the features have, with their values, in the order of the column
    list; any other key is absent. *)
Theorem extract_statistical_metrics_spec (features : list (string * Q)) (k : string) :
  PyDict.get (extract_statistical_metrics features) k =
    (if Suggestions.mem k stat_metric_columns then PyDict.get features k else None) /\
  map fst (extract_statistical_metrics features) =
    filter (fun col => match PyDict.get features col with Some _ => true | None => false end)
           stat_metric_columns.
Proof.
  unfold extract_statistical_metrics. split.
  - change (fun metrics col => match PyDict.get features col with
                               | Some v => PyDict.set metrics col v
                               | None => metrics end) with (extract_step features).
    rewrite extract_fold. destruct (Suggestions.mem k stat_metric_columns); [|reflexivity].
    destruct (PyDict.get features k); reflexivity.
  - change (fun metrics col => match PyDict.get features col with
                               | Some v => PyDict.set metrics col v
                               | None => metrics end) with (extract_step features).
    rewrite extract_keys; [reflexivity | exact stat_metric_columns_nodup | intros k' _ []].
Qed.

Lemma dict_get_py (d : MetricRecord) (k : string) : dict_get d k = PyDict.get d k.
Proof. induction d as [|[k' v] d IH]; simpl; [reflexivity | rewrite IH; reflexivity]. Qed.

Lemma classify_rows_missing (r : MetricRecord) (c : confidence) (t : BoundsTable)
    (row : BoundsEntry) :
  In row t -> dict_get r (metric row) = None -> In (metric row) (snd (classify_rows r c t)).
Proof.
  induction t as [|row' t IH]; intros Hin Hg; [destruct Hin|]. simpl.
  destruct (classify_rows r c t) as [[outs ins] miss] eqn:E. simpl in IH.
  destruct Hin as [<-|Hin].
  - unfold classify_row at 1. rewrite Hg. left. reflexivity.
  - specialize (IH Hin Hg).
    destruct (classify_row r c row'); simpl; [right|..]; exact IH.
Qed.

(** X26: composed with the checker, a bounds-table metric that is not one
    of the 27 extracted columns is always reported missing, whatever the
    features hold. *)
Theorem non_column_metric_missing (features : list (string * Q)) (t : BoundsTable)
    (c : confidence) (row : BoundsEntry) :
  In row t -> Suggestions.mem (metric row) stat_metric_columns = false ->
  In (metric row)
     (missing_metrics (check_sequence_randomness (extract_statistical_metrics features) t c)).
Proof.
  intros Hin Hm.
  assert (Hg : dict_get (extract_statistical_metrics features) (metric row) = None).
  { rewrite dict_get_py. unfold extract_statistical_metrics.
    change (fun metrics col => match PyDict.get features col with
                               | Some v => PyDict.set metrics col v
                               | None => metrics end) with (extract_step features).
    rewrite extract_fold, Hm. reflexivity. }
  pose proof (classify_rows_missing _ c t row Hin Hg) as H.
  unfold check_sequence_randomness.
  destruct (classify_rows (extract_statistical_metrics features) c t) as [[outs ins] miss].
  exact H.
Qed.

(** A table row for a metric the server never extracts. *)
Definition unknown_row : BoundsEntry := CheckerFacts.row_of "entropy" 0 1 (-1) 1 (-2) 2.

Lemma non_column_metric_missing_witness :
  In unknown_row [unknown_row] /\
  Suggestions.mem (metric unknown_row) stat_metric_columns = false /\
  In (metric unknown_row)
     (missing_metrics (check_sequence_randomness
                         (extract_statistical_metrics [("entropy"%string, 1)]) [unknown_row] CL95)).
Proof.
  assert (H1 : In unknown_row [unknown_row]) by (left; reflexivity).
  assert (H2 : Suggestions.mem (metric unknown_row) stat_metric_columns = false)
    by (vm_compute; reflexivity).
  split; [exact H1|]. split; [exact H2|].
  exact (non_column_metric_missing [("entropy"%string, 1)] [unknown_row] CL95 unknown_row H1 H2).
Defined.

End ServerFacts.
